(** * KeePassBot: the document tree of [src/KeePass.py]

    A shallow embedding of the node model ([BaseKeePass], [KeeGroup],
    [KeeEntry], [EntryString], [AutoType]), of the session object
    [KeePass] with its search overlay and commit step, of the draft
    [AddEditState], and of the XML encoder/decoder, followed by the
    properties of the specification that concern them.

    Python objects live in a store indexed by object identity, so that
    two references to one object are one index: aliasing is visible.
    Exceptions are the [Raise] outcome of the result type [Res]. *)

From Stdlib Require Import ZArith QArith Qround Lia Ascii String.
From Stdlib Require DecimalString DecimalZ DecimalPos.
From stdpp Require Import gmap strings list.

Close Scope Q_scope.
Local Open Scope string_scope.
#[local] Set Warnings "-register-all".

(** ** Python values and outcomes *)

Inductive ItemType := GROUP | ENTRY | STRING | MANAGER | AUTOTYPE.

Inductive ProcessType := ADD | EDIT.

(** Object identity: the index of the object in the store. *)
Abbreviation objid := nat (only parsing).

(** The values that the attributes of the model hold.  [VRoot] is the
    [KeePass] session object, the [_root] of every node. *)
Inductive PyVal :=
| VNone
| VStr (s : string)
| VInt (z : Z)
| VBool (b : bool)
| VEnum (t : ItemType)
| VRoot
| VRef (o : objid).

(** The exceptions that the modelled code raises, and two outcomes
    that are not exceptions: [Diverges] for a [while] loop that has
    outlived the bound past which it can only cycle, and [Unmodelled]
    for an attribute created on the fly on an object whose attributes
    the model fixes.  Neither is reached from a store that the
    constructors built. *)
Inductive exn :=
| TypeError | ValueError | AttributeError | KeyError | IndexError
| IOError | RecursionError
| Diverges | Unmodelled.

Inductive Res (A : Type) :=
| Ok (a : A)
| Raise (e : exn).
Arguments Ok {A} a.
Arguments Raise {A} e.

#[global] Instance Res_ret : MRet Res := fun A a => Ok a.
#[global] Instance Res_bind : MBind Res := fun A B f r =>
  match r with Ok a => f a | Raise e => Raise e end.

#[global] Instance ItemType_eq_dec : EqDecision ItemType.
Proof. solve_decision. Defined.
#[global] Instance ProcessType_eq_dec : EqDecision ProcessType.
Proof. solve_decision. Defined.
#[global] Instance PyVal_eq_dec : EqDecision PyVal.
Proof. solve_decision. Defined.

(** [a == b] on the values of the model (strings, numbers, enum members
    by value; objects by identity, no class defines [__eq__]). *)
Definition py_eq (a b : PyVal) : bool := bool_decide (a = b).

(** ** Pagination arithmetic ([BaseKeePass.next_page], [previous_page])

    [NUMBER_OF_ENTRIES_ON_PAGE] comes from [src.settings], which is not
    part of the sources: it is a parameter, a positive integer.
    [size / NUMBER_OF_ENTRIES_ON_PAGE] is Python's true division; the
    quotient is taken as the exact rational, which the floating-point
    quotient agrees with in comparisons against and ceilings to integers
    for all sizes below 2^53. *)

Definition true_div (a : Z) (b : positive) : Q := Qmake a b.

Definition math_ceil (q : Q) : Z := Qceiling q.

Definition next_page_value (N : positive) (page size : Z) : Z :=
  if Qlt_le_dec (inject_Z page) (true_div size N) then (page + 1)%Z else 1%Z.

Definition previous_page_value (N : positive) (page size : Z) : Z :=
  if (page >? 1)%Z then (page - 1)%Z else math_ceil (true_div size N).

(** ** XML elements, as [lxml] builds and reads them

    An element has a tag, an optional text and children in document
    order.  Attributes, tails and namespaces are not used by the code. *)

Inductive Element :=
| Elem (tag : string) (text : option string) (children : list Element).

Definition el_tag (e : Element) : string := let 'Elem t _ _ := e in t.
Definition el_text (e : Element) : option string := let 'Elem _ x _ := e in x.
Definition el_children (e : Element) : list Element := let 'Elem _ _ c := e in c.

(** [e.findall(tag)]: the direct children with that tag, in order. *)
Definition findall (tag : string) (e : Element) : list Element :=
  filter (fun c => el_tag c = tag) (el_children e).

(** [e.find(tag)]: the first such child, or [None]. *)
Definition find (tag : string) (e : Element) : option Element :=
  head (findall tag e).

(** [e.Tag] on an objectified element: the first child with that tag;
    [AttributeError] when there is none. *)
Definition child (tag : string) (e : Element) : Res Element :=
  match find tag e with
  | Some c => Ok c
  | None => Raise AttributeError
  end.

(** ** The objects

    [BaseKeePass.__init__] gives every node [_root], [_parent], [page],
    [size] and [type].  [_root] is always the one session object and
    [type] is assigned once per class, so [KeeGroup] and [KeeEntry]
    carry neither: their class is the constructor of [Obj]. *)

Record BaseKeePass := mkBase {
  _parent : PyVal;
  page : Z;
  size : Z
}.

Record AutoType := mkAutoType {
  enabled : PyVal;
  dto : PyVal;
  association : option (PyVal * PyVal)   (* 'window', 'key_sec' *)
}.

Record KeeGroup := mkGroup {
  g_base : BaseKeePass;
  g_uuid : string;
  g_name : PyVal;
  g_notes : PyVal;
  g_icon_id : Z;
  g_items : list objid
}.

Record KeeEntry := mkEntry {
  e_base : BaseKeePass;
  e_uuid : string;
  e_icon_id : Z;
  e_items : list objid;
  e_name : PyVal;
  e_autotype : AutoType
}.

(** [EntryString] overrides [__setattr__] and probes its own attributes
    with [hasattr], so it is kept as Python has it: the attribute
    dictionary of the instance. *)
Inductive Obj :=
| OGroup (g : KeeGroup)
| OEntry (e : KeeEntry)
| OString (d : gmap string PyVal).

(** The draft of the edit state machine.  [fields] is a [dict]: keys are
    unique and keep their insertion order. *)
Record AddEditState := mkAddEditState {
  aes_type : ItemType;
  process_type : ProcessType;
  fields : list (string * PyVal);
  req_fields : list string;
  current_field : string
}.

(** The session object [KeePass], together with the store of the nodes
    it reaches.  [create_state] is the flag of the user record that
    [finish_add_edit] reads; [uuid_drawn] and [clock] count the
    identifiers drawn and the clock readings taken so far. *)
Record KeePass := mkKeePass {
  heap : list Obj;
  active_item : PyVal;
  search_group : PyVal;
  root_group : PyVal;
  add_edit_state : option AddEditState;
  opened : bool;
  _root_obj : option Element;
  create_state : bool;
  uuid_drawn : nat;
  clock : nat
}.

Definition with_heap (h : list Obj) (st : KeePass) : KeePass :=
  mkKeePass h (active_item st) (search_group st) (root_group st)
    (add_edit_state st) (opened st) (_root_obj st) (create_state st)
    (uuid_drawn st) (clock st).

Definition with_active_item (a : PyVal) (st : KeePass) : KeePass :=
  mkKeePass (heap st) a (search_group st) (root_group st)
    (add_edit_state st) (opened st) (_root_obj st) (create_state st)
    (uuid_drawn st) (clock st).

Definition with_search_group (s : PyVal) (st : KeePass) : KeePass :=
  mkKeePass (heap st) (active_item st) s (root_group st)
    (add_edit_state st) (opened st) (_root_obj st) (create_state st)
    (uuid_drawn st) (clock st).

Definition with_add_edit_state (a : option AddEditState) (st : KeePass) : KeePass :=
  mkKeePass (heap st) (active_item st) (search_group st) (root_group st)
    a (opened st) (_root_obj st) (create_state st)
    (uuid_drawn st) (clock st).

Definition with_uuid_drawn (n : nat) (st : KeePass) : KeePass :=
  mkKeePass (heap st) (active_item st) (search_group st) (root_group st)
    (add_edit_state st) (opened st) (_root_obj st) (create_state st)
    n (clock st).

Definition with_root_obj (r : option Element) (c : nat) (st : KeePass) : KeePass :=
  mkKeePass (heap st) (active_item st) (search_group st) (root_group st)
    (add_edit_state st) (opened st) r (create_state st)
    (uuid_drawn st) c.

(** *** Record updates *)

Definition base_with_page (p : Z) (b : BaseKeePass) : BaseKeePass :=
  mkBase (_parent b) p (size b).

Definition g_with_base (b : BaseKeePass) (g : KeeGroup) : KeeGroup :=
  mkGroup b (g_uuid g) (g_name g) (g_notes g) (g_icon_id g) (g_items g).

Definition g_with_name (v : PyVal) (g : KeeGroup) : KeeGroup :=
  mkGroup (g_base g) (g_uuid g) v (g_notes g) (g_icon_id g) (g_items g).

Definition g_with_notes (v : PyVal) (g : KeeGroup) : KeeGroup :=
  mkGroup (g_base g) (g_uuid g) (g_name g) v (g_icon_id g) (g_items g).

Definition g_with_items (l : list objid) (g : KeeGroup) : KeeGroup :=
  mkGroup (g_base g) (g_uuid g) (g_name g) (g_notes g) (g_icon_id g) l.

Definition e_with_base (b : BaseKeePass) (e : KeeEntry) : KeeEntry :=
  mkEntry b (e_uuid e) (e_icon_id e) (e_items e) (e_name e) (e_autotype e).

Definition e_with_name (v : PyVal) (e : KeeEntry) : KeeEntry :=
  mkEntry (e_base e) (e_uuid e) (e_icon_id e) (e_items e) v (e_autotype e).

Definition e_with_items (l : list objid) (e : KeeEntry) : KeeEntry :=
  mkEntry (e_base e) (e_uuid e) (e_icon_id e) l (e_name e) (e_autotype e).

(** *** The store *)

(** A new object gets the next free identity. *)
Definition alloc (o : Obj) (h : list Obj) : objid * list Obj :=
  (List.length h, (h ++ [o])%list).

(** [isinstance(item, KeeEntry)] and its siblings. *)
Definition is_KeeEntry (h : list Obj) (v : PyVal) : bool :=
  match v with
  | VRef i => match h !! i with Some (OEntry _) => true | _ => false end
  | _ => false
  end.

Definition is_KeeGroup (h : list Obj) (v : PyVal) : bool :=
  match v with
  | VRef i => match h !! i with Some (OGroup _) => true | _ => false end
  | _ => false
  end.

Definition is_EntryString (h : list Obj) (v : PyVal) : bool :=
  match v with
  | VRef i => match h !! i with Some (OString _) => true | _ => false end
  | _ => false
  end.

(** [o.attr] read from an [EntryString]; [AttributeError] when the
    attribute was never assigned. *)
Definition dict_get (d : gmap string PyVal) (attr : string) : Res PyVal :=
  match d !! attr with
  | Some v => Ok v
  | None => Raise AttributeError
  end.

(** [o.items], [o.name], [o.type], [o._parent], [o.key] and [o.value]
    read through a reference whose class is not known statically. *)
Definition get_items (h : list Obj) (o : PyVal) : Res (list objid) :=
  match o with
  | VRef i =>
    match h !! i with
    | Some (OGroup g) => Ok (g_items g)
    | Some (OEntry e) => Ok (e_items e)
    | _ => Raise AttributeError
    end
  | _ => Raise AttributeError
  end.

Definition get_name (h : list Obj) (o : PyVal) : Res PyVal :=
  match o with
  | VRef i =>
    match h !! i with
    | Some (OGroup g) => Ok (g_name g)
    | Some (OEntry e) => Ok (e_name e)
    | Some (OString d) => dict_get d "name"
    | None => Raise AttributeError
    end
  | _ => Raise AttributeError
  end.

Definition get_type (h : list Obj) (o : PyVal) : Res PyVal :=
  match o with
  | VRef i =>
    match h !! i with
    | Some (OGroup _) => Ok (VEnum GROUP)
    | Some (OEntry _) => Ok (VEnum ENTRY)
    | Some (OString d) => dict_get d "type"
    | None => Raise AttributeError
    end
  | VRoot => Ok (VEnum MANAGER)
  | _ => Raise AttributeError
  end.

Definition get_parent (h : list Obj) (o : PyVal) : Res PyVal :=
  match o with
  | VRef i =>
    match h !! i with
    | Some (OGroup g) => Ok (_parent (g_base g))
    | Some (OEntry e) => Ok (_parent (e_base e))
    | Some (OString d) => dict_get d "_parent"
    | None => Raise AttributeError
    end
  | _ => Raise AttributeError
  end.

Definition get_string_attr (h : list Obj) (o : objid) (attr : string) : Res PyVal :=
  match h !! o with
  | Some (OString d) => dict_get d attr
  | _ => Raise AttributeError
  end.

Section Program.

(** [src.settings.NUMBER_OF_ENTRIES_ON_PAGE]. *)
Variable NUMBER_OF_ENTRIES_ON_PAGE : positive.

(** The identifiers that [base64.b64encode(uuid4().bytes).decode()]
    returns, in the order they are drawn. *)
Variable uuid4 : nat -> string.

(** [datetime.datetime.now().strftime("%Y-%m-%dT%H:%M:%SZ")] at the
    successive readings of the clock. *)
Variable strftime_now : nat -> string.

(** ** [EntryString] *)

(** The interpreter's bound on nested calls. *)
Definition recursion_limit : nat := 1000.

(** [object.__setattr__(self, attr, value)] on an [EntryString]. *)
Definition store_attr (self : objid) (attr : string) (value : PyVal)
    (h : list Obj) : Res (list Obj) :=
  match h !! self with
  | Some (OString d) => Ok (<[self := OString (<[attr := value]> d)]> h)
  | _ => Raise AttributeError
  end.

(** [hasattr(self, 'key') and self.key == "Title"]. *)
Definition is_title (d : gmap string PyVal) : bool :=
  match d !! "key" with
  | Some k => py_eq k (VStr "Title")
  | None => false
  end.

(** [o.name = value], for a reference [o] of any class.  On a group or
    an entry the attribute is stored.  On an [EntryString] the assignment
    goes through its [__setattr__], which first assigns the name of its
    own parent when its key is "Title": the calls nest, and [fuel] bounds
    the nesting.  Assigning through [None] or a non-object raises. *)
Fixpoint set_name (fuel : nat) (o : PyVal) (value : PyVal) (h : list Obj)
    : Res (list Obj) :=
  match fuel with
  | O => Raise RecursionError
  | S fuel' =>
    match o with
    | VRef i =>
      match h !! i with
      | Some (OGroup g) => Ok (<[i := OGroup (g_with_name value g)]> h)
      | Some (OEntry e) => Ok (<[i := OEntry (e_with_name value e)]> h)
      | Some (OString d) =>
        h1 ← (if is_title d
              then p ← dict_get d "_parent"; set_name fuel' p value h
              else Ok h);
        store_attr i "name" value h1
      | None => Raise AttributeError
      end
    | _ => Raise AttributeError
    end
  end.

(** [EntryString.__setattr__(self, name, value)]. *)
Definition EntryString_setattr (self : objid) (name : string) (value : PyVal)
    (h : list Obj) : Res (list Obj) :=
  match h !! self with
  | Some (OString d) =>
    h1 ← (if is_title d
          then p ← dict_get d "_parent"; set_name recursion_limit p value h
          else Ok h);
    store_attr self name value h1
  | _ => Raise AttributeError
  end.

(** [EntryString(root, parent, key, value)]: every assignment of the
    constructor, [BaseKeePass.__init__] included, goes through
    [__setattr__]. *)
Definition EntryString_init (parent key value : PyVal) (h : list Obj)
    : Res (objid * list Obj) :=
  let '(self, h) := alloc (OString ∅) h in
  h ← EntryString_setattr self "_root" VRoot h;
  h ← EntryString_setattr self "_parent" parent h;
  h ← EntryString_setattr self "page" (VInt 1) h;
  h ← EntryString_setattr self "size" (VInt 0) h;
  h ← EntryString_setattr self "type" VNone h;
  h ← EntryString_setattr self "key" key h;
  h ← EntryString_setattr self "value" value h;
  h ← EntryString_setattr self "type" (VEnum STRING) h;
  h ← (if py_eq key (VStr "Title")
       then p ← get_string_attr h self "_parent";
            set_name recursion_limit p value h
       else Ok h);
  Ok (self, h).

(** ** [KeeGroup] and [KeeEntry] *)

(** [KeeGroup(root, parent, name, notes, icond_id, uuid)].  An empty
    [uuid] (the default, or an empty text) draws a fresh identifier. *)
Definition KeeGroup_init (parent name notes : PyVal) (icon_id : Z)
    (uuid : string) (st : KeePass) : objid * KeePass :=
  let self := List.length (heap st) in
  let parent := if py_eq parent VNone then VRef self else parent in
  let '(uuid, drawn) :=
    if bool_decide (uuid = "")
    then (uuid4 (uuid_drawn st), S (uuid_drawn st))
    else (uuid, uuid_drawn st) in
  let g := mkGroup (mkBase parent 1 0) uuid name notes icon_id [] in
  (self, with_uuid_drawn drawn (with_heap (heap st ++ [OGroup g])%list st)).

(** [KeeEntry(root, parent, autotype, icond_id, uuid)]. *)
Definition KeeEntry_init (parent : PyVal) (autotype : AutoType) (icon_id : Z)
    (uuid : string) (st : KeePass) : objid * KeePass :=
  let self := List.length (heap st) in
  let '(uuid, drawn) :=
    if bool_decide (uuid = "")
    then (uuid4 (uuid_drawn st), S (uuid_drawn st))
    else (uuid, uuid_drawn st) in
  let e := mkEntry (mkBase parent 1 0) uuid icon_id [] (VStr "") autotype in
  (self, with_uuid_drawn drawn (with_heap (heap st ++ [OEntry e])%list st)).

(** [KeeGroup.append(self, item)]. *)
Definition KeeGroup_append (self : objid) (item : PyVal) (h : list Obj)
    : Res (list Obj) :=
  match h !! self with
  | Some (OGroup g) =>
    if negb (is_KeeEntry h item) && negb (is_KeeGroup h item)
    then Raise TypeError
    else
      match item with
      | VRef i =>
        let b := g_base g in
        Ok (<[self := OGroup (g_with_base (mkBase (_parent b) (page b) (size b + 1))
                                (g_with_items (g_items g ++ [i])%list g))]> h)
      | _ => Raise TypeError
      end
  | _ => Raise AttributeError
  end.

(** [KeeEntry.append(self, item)]. *)
Definition KeeEntry_append (self : objid) (item : PyVal) (h : list Obj)
    : Res (list Obj) :=
  match h !! self with
  | Some (OEntry e) =>
    if negb (is_EntryString h item)
    then Raise TypeError
    else
      match item with
      | VRef i =>
        let b := e_base e in
        let e1 := e_with_base (mkBase (_parent b) (page b) (size b + 1))
                    (e_with_items (e_items e ++ [i])%list e) in
        (* also set name *)
        k ← get_string_attr h i "key";
        if py_eq k (VStr "Title")
        then v ← get_string_attr h i "value";
             Ok (<[self := OEntry (e_with_name v e1)]> h)
        else Ok (<[self := OEntry e1]> h)
      | _ => Raise TypeError
      end
  | _ => Raise AttributeError
  end.

(** The loop of [KeeEntry.update_item]. *)
Fixpoint update_item_loop (items : list objid) (key value : PyVal)
    (h : list Obj) : Res (list Obj) :=
  match items with
  | [] => Ok h
  | item :: rest =>
    k ← get_string_attr h item "key";
    h1 ← (if py_eq k key then EntryString_setattr item "value" value h else Ok h);
    update_item_loop rest key value h1
  end.

(** [KeeEntry.update_item(self, key, value)]. *)
Definition update_item (self : objid) (key value : PyVal) (h : list Obj)
    : Res (list Obj) :=
  match h !! self with
  | Some (OEntry e) =>
    if py_eq key VNone then Ok h
    else update_item_loop (e_items e) key value h
  | _ => Raise AttributeError
  end.

(** The loop of [KeeEntry.get_item]: the first item with the key. *)
Fixpoint get_item_loop (items : list objid) (key : PyVal) (h : list Obj)
    : Res PyVal :=
  match items with
  | [] => Ok VNone
  | item :: rest =>
    k ← get_string_attr h item "key";
    if py_eq k key then Ok (VRef item) else get_item_loop rest key h
  end.

(** [KeeEntry.get_item(self, key)]. *)
Definition get_item (self : objid) (key : PyVal) (h : list Obj) : Res PyVal :=
  match h !! self with
  | Some (OEntry e) =>
    if py_eq key VNone then Ok VNone
    else get_item_loop (e_items e) key h
  | _ => Raise AttributeError
  end.

(** ** [BaseKeePass] *)

(** [next_page] and [previous_page] on the attributes of a group or an
    entry, where assignment is plain. *)
Definition next_page (b : BaseKeePass) : BaseKeePass :=
  base_with_page (next_page_value NUMBER_OF_ENTRIES_ON_PAGE (page b) (size b)) b.

Definition previous_page (b : BaseKeePass) : BaseKeePass :=
  base_with_page (previous_page_value NUMBER_OF_ENTRIES_ON_PAGE (page b) (size b)) b.

Definition int_attr (d : gmap string PyVal) (attr : string) : Res Z :=
  v ← dict_get d attr;
  match v with VInt z => Ok z | _ => Raise TypeError end.

(** [self.next_page()] and [self.previous_page()] through a reference:
    on an [EntryString] the assignment to [page] is intercepted. *)
Definition BaseKeePass_next_page (self : objid) (h : list Obj) : Res (list Obj) :=
  match h !! self with
  | Some (OGroup g) => Ok (<[self := OGroup (g_with_base (next_page (g_base g)) g)]> h)
  | Some (OEntry e) => Ok (<[self := OEntry (e_with_base (next_page (e_base e)) e)]> h)
  | Some (OString d) =>
    p ← int_attr d "page";
    s ← int_attr d "size";
    EntryString_setattr self "page"
      (VInt (next_page_value NUMBER_OF_ENTRIES_ON_PAGE p s)) h
  | None => Raise AttributeError
  end.

Definition BaseKeePass_previous_page (self : objid) (h : list Obj) : Res (list Obj) :=
  match h !! self with
  | Some (OGroup g) => Ok (<[self := OGroup (g_with_base (previous_page (g_base g)) g)]> h)
  | Some (OEntry e) => Ok (<[self := OEntry (e_with_base (previous_page (e_base e)) e)]> h)
  | Some (OString d) =>
    p ← int_attr d "page";
    s ← int_attr d "size";
    EntryString_setattr self "page"
      (VInt (previous_page_value NUMBER_OF_ENTRIES_ON_PAGE p s)) h
  | None => Raise AttributeError
  end.

(** [self.activate()]. *)
Definition activate (self : PyVal) (st : KeePass) : KeePass :=
  with_active_item self st.

(** [self.deactivate()]. *)
Definition deactivate (self : PyVal) (st : KeePass) : Res KeePass :=
  let st1 := if py_eq (active_item st) (search_group st)
             then with_search_group VNone st else st in
  p ← get_parent (heap st1) self;
  Ok (with_active_item p st1).

(** [list.remove(x)]: drops the first occurrence, [ValueError] if there
    is none. *)
Fixpoint list_remove (x : objid) (l : list objid) : Res (list objid) :=
  match l with
  | [] => Raise ValueError
  | y :: l' => if bool_decide (y = x) then Ok l' else l'' ← list_remove x l'; Ok (y :: l'')
  end.

(** [self._parent.items.remove(self)]. *)
Definition remove_from_parent (self : objid) (h : list Obj) : Res (list Obj) :=
  p ← get_parent h (VRef self);
  match p with
  | VRef i =>
    match h !! i with
    | Some (OGroup g) =>
      l ← list_remove self (g_items g);
      Ok (<[i := OGroup (g_with_items l g)]> h)
    | Some (OEntry e) =>
      l ← list_remove self (e_items e);
      Ok (<[i := OEntry (e_with_items l e)]> h)
    | _ => Raise AttributeError
    end
  | _ => Raise AttributeError
  end.

(** ** The XML codec

    [get_xml_element] only reads the objects.  What it reads is the tree
    under the root group: [Tree] is that view, with the attributes the
    codec touches ([page] and [size] belong to navigation and are not
    written).  [KeeGroup.append] admits only groups and entries and
    [KeeEntry.append] only [EntryString]s, hence the two levels. *)

Inductive Tree :=
| TGroup (uuid : string) (name notes : PyVal) (icon_id : Z) (items : list Tree)
| TEntry (uuid : string) (icon_id : Z) (name : PyVal)
         (items : list (PyVal * PyVal)) (autotype : AutoType).

(** A [string] stands for a Python [str] through its UTF-8 bytes.

    [lxml] stores a text only if it is XML compatible
    ([_is_valid_xml_utf8]): an ASCII byte has to be a tab, a line feed, a
    carriage return or at least a blank, and no three bytes starting at a
    byte with the high bit set may encode a surrogate or one of
    U+FFFE and U+FFFF. *)
Definition xml_char (b : N) : bool :=
  ((b =? 9) || (b =? 10) || (b =? 13) || (32 <=? b))%N.

Definition xml_next3 (b0 b1 b2 : N) : bool :=
  let next3 := (b0 * 65536 + b1 * 256 + b2)%N in
  negb ((next3 =? 0xEFBFBE) || (next3 =? 0xEFBFBF)
        || ((0xEDA080 <=? next3) && (next3 <=? 0xEDBFBF)))%N.

Fixpoint xml_bytes (l : list N) : bool :=
  match l with
  | [] => true
  | b0 :: rest =>
    (if (b0 <? 128)%N then xml_char b0
     else match rest with
          | b1 :: b2 :: _ => xml_next3 b0 b1 b2
          | _ => true
          end)
    && xml_bytes rest
  end.

Definition xml_compatible (s : string) : bool :=
  xml_bytes (map N_of_ascii (list_ascii_of_string s)).

(** [el.text = v]: [lxml] takes [None] or an XML compatible string; it
    raises [ValueError] on another string and [TypeError] on a value that
    is not a string. *)
Definition as_text (v : PyVal) : Res (option string) :=
  match v with
  | VNone => Ok None
  | VStr s => if xml_compatible s then Ok (Some s) else Raise ValueError
  | _ => Raise TypeError
  end.

(** [el.text] as a Python value. *)
Definition of_text (t : option string) : PyVal :=
  match t with
  | None => VNone
  | Some s => VStr s
  end.

(** [str(n)] for an integer. *)
Definition str_of_int (z : Z) : string :=
  DecimalString.NilZero.string_of_int (Z.to_int z).

(** The value of a numeral as [str] writes it: decimal digits without
    a leading zero, after a minus sign for a negative number. *)
Definition canonical_int (s : string) : option Z :=
  match DecimalString.NilZero.int_of_string s with
  | Some d =>
    if bool_decide (str_of_int (Z.of_int d) = s) then Some (Z.of_int d) else None
  | None => None
  end.

(** [int] of the interpreter on the other strings, which reads more
    than [str] writes (a plus sign, blanks around the numeral,
    underscores between digits, the digits of other scripts): the value,
    or [None] where [int] raises [ValueError]. *)
Variable int_of_str : string -> option Z.

(** [int(text)]; [int(None)] raises [TypeError]. *)
Definition int_of_text (t : option string) : Res Z :=
  match t with
  | None => Raise TypeError
  | Some s =>
    match canonical_int s with
    | Some z => Ok z
    | None =>
      match int_of_str s with
      | Some z => Ok z
      | None => Raise ValueError
      end
    end
  end.

Definition leaf (tag : string) (text : option string) : Element :=
  Elem tag text [].

(** The block of bookkeeping fields, stamped with one clock reading. *)
Definition times_element (now : string) : Element :=
  Elem "Times" None
    [ leaf "CreationTime" (Some now);
      leaf "LastModificationTime" (Some now);
      leaf "LastAccessTime" (Some now);
      leaf "ExpiryTime" (Some now);
      leaf "Expires" (Some "False");
      leaf "UsageCount" (Some "0");
      leaf "LocationChanged" (Some now) ].

(** [AutoType.get_xml_element]. *)
Definition AutoType_get_xml_element (a : AutoType) : Res Element :=
  en ← as_text (enabled a);
  dt ← as_text (dto a);
  match association a with
  | Some (window, key_sec) =>
    w ← as_text window;
    k ← as_text key_sec;
    Ok (Elem "AutoType" None
          [ leaf "Enabled" en; leaf "DataTransferObfuscation" dt;
            Elem "Association" None
              [ leaf "Window" w; leaf "KeystrokeSequence" k ] ])
  | None =>
    Ok (Elem "AutoType" None
          [ leaf "Enabled" en; leaf "DataTransferObfuscation" dt ])
  end.

(** [EntryString.get_xml_element]. *)
Definition EntryString_get_xml_element (s : PyVal * PyVal) : Res Element :=
  k ← as_text (fst s);
  v ← as_text (snd s);
  Ok (Elem "String" None [ leaf "Key" k; leaf "Value" v ]).

Fixpoint strings_get_xml (l : list (PyVal * PyVal)) : Res (list Element) :=
  match l with
  | [] => Ok []
  | s :: rest =>
    x ← EntryString_get_xml_element s;
    xs ← strings_get_xml rest;
    Ok (x :: xs)
  end.

(** [KeeEntry.get_xml_element]; takes one clock reading.  The texts
    that [str] and [strftime] give are digits, a sign and the letters of
    the format, which [lxml] takes. *)
Definition KeeEntry_get_xml_element (uuid : string) (icon_id : Z)
    (items : list (PyVal * PyVal)) (autotype : AutoType) (tick : nat)
    : Res (Element * nat) :=
  uuid_text ← as_text (VStr uuid);
  strings ← strings_get_xml items;
  at_el ← AutoType_get_xml_element autotype;
  Ok (Elem "Entry" None
        ([ leaf "UUID" uuid_text;
           leaf "IconID" (Some (str_of_int icon_id));
           leaf "ForegroundColor" None;
           leaf "BackgroundColor" None;
           leaf "OverrideURL" None;
           leaf "Tags" None;
           times_element (strftime_now tick) ]
         ++ strings ++ [ at_el; leaf "History" None ])%list,
      S tick).

(** The fields of a [Group] element that precede its children. *)
Definition group_header (uuid name : option string) (icon_id : Z)
    (now : string) : list Element :=
  [ leaf "UUID" uuid;
    leaf "Name" name;
    leaf "Notes" (Some "");
    leaf "IconID" (Some (str_of_int icon_id));
    times_element now;
    leaf "IsExpanded" (Some "True");
    leaf "DefaultAutoTypeSequence" (Some "");
    leaf "EnableAutoType" (Some "null");
    leaf "EnableSearching" (Some "null");
    leaf "LastTopVisibleEntry" (Some "AAAAAAAAAAAAAAAAAAAAAA==") ].

(** [for item in self.items: group.append(item.get_xml_element())],
    where [get_xml_element] is the method of the items. *)
Definition items_get_xml (get_xml_element : Tree -> nat -> Res (Element * nat))
    : list Tree -> nat -> Res (list Element * nat) :=
  fix loop (l : list Tree) (tick : nat) : Res (list Element * nat) :=
    match l with
    | [] => Ok ([], tick)
    | item :: rest =>
      '(x, tick1) ← get_xml_element item tick;
      '(xs, tick2) ← loop rest tick1;
      Ok (x :: xs, tick2)
    end.

(** [item.get_xml_element()], dispatched on the class of the item;
    [KeeGroup.get_xml_element] recurses into its items in order. *)
Fixpoint get_xml_element (t : Tree) (tick : nat) : Res (Element * nat) :=
  match t with
  | TGroup uuid name notes icon_id items =>
    uuid_text ← as_text (VStr uuid);
    name_text ← as_text name;
    let now := strftime_now tick in
    '(children, tick') ← items_get_xml get_xml_element items (S tick);
    Ok (Elem "Group" None
          (group_header uuid_text name_text icon_id now ++ children)%list,
        tick')
  | TEntry uuid icon_id _ items autotype =>
    KeeEntry_get_xml_element uuid icon_id items autotype tick
  end.

(** [objectify.fromstring(etree.tounicode(base))]: serialising and
    parsing keeps tags and structure; an element whose text is the empty
    string is read back with no text.  Texts are taken to be strings that
    XML can carry unchanged. *)
Definition reparse_text (text : option string) : option string :=
  match text with
  | Some s => if bool_decide (s = "") then None else Some s
  | None => None
  end.

Fixpoint reparse (e : Element) : Element :=
  match e with
  | Elem tag text children => Elem tag (reparse_text text) (map reparse children)
  end.

(** [KeePass.generate_root], on the view [t] of the root group:
    the new value of [_root_obj]. *)
Definition generate_root (root_obj : Element) (t : Tree) (tick : nat)
    : Res (Element * nat) :=
  match find "Meta" root_obj with
  | None => Raise TypeError      (* base.append(None) *)
  | Some meta =>
    '(group, tick') ← get_xml_element t tick;
    Ok (reparse (Elem "KeePassFile" None
                   [ meta; Elem "Root" None [ group; leaf "DeletedObjects" None ] ]),
        tick')
  end.

(** *** Decoding *)

(** [item.Tag.text]. *)
Definition child_text (tag : string) (e : Element) : Res (option string) :=
  c ← child tag e; Ok (el_text c).

(** The [uuid] that a constructor keeps: the one given, or a fresh one
    when the text is empty or absent. *)
Definition keep_uuid (t : option string) (drawn : nat) : string * nat :=
  match t with
  | Some s => if bool_decide (s = "") then (uuid4 drawn, S drawn) else (s, drawn)
  | None => (uuid4 drawn, S drawn)
  end.

(** One [String] element added to the entry under construction, whose
    name is [name] so far: [EntryString(root, new_entry, key, value)]
    followed by [new_entry.append(...)].  For a "Title" the assignments
    of [value] and of [type] in the constructor, the constructor's last
    statement and [append] each assign the entry's name. *)
Definition decode_string (string : Element) (acc : PyVal * list (PyVal * PyVal))
    : Res (PyVal * list (PyVal * PyVal)) :=
  k ← child_text "Key" string;
  v ← child_text "Value" string;
  let key := of_text k in
  let value := of_text v in
  let title := py_eq key (VStr "Title") in
  let name := fst acc in
  let name := if title then value else name in            (* self.value = value *)
  let name := if title then VEnum STRING else name in     (* self.type = ItemType.STRING *)
  let name := if title then value else name in            (* self._parent.name = value *)
  let name := if title then value else name in            (* append: self.name = item.value *)
  Ok (name, (snd acc ++ [(key, value)])%list).

Fixpoint decode_strings (l : list Element) (acc : PyVal * list (PyVal * PyVal))
    : Res (PyVal * list (PyVal * PyVal)) :=
  match l with
  | [] => Ok acc
  | string :: rest => acc1 ← decode_string string acc; decode_strings rest acc1
  end.

(** [AutoType(enabled=..., dto=..., association=asoc)] of the [Entry]
    branch of [inner_init], with the [asoc] computed before it. *)
Definition decode_autotype (item : Element) : Res AutoType :=
  at_el ← child "AutoType" item;
  asoc ← match find "Association" at_el with
         | Some a =>
           w ← child_text "Window" a;
           k ← child_text "KeystrokeSequence" a;
           Ok (Some (of_text w, of_text k))
         | None => Ok None
         end;
  en ← child_text "Enabled" at_el;
  dt ← child_text "DataTransferObfuscation" at_el;
  Ok (mkAutoType (of_text en) (of_text dt) asoc).

(** The [Entry] branch of [inner_init]. *)
Definition decode_entry (item : Element) (drawn : nat) : Res (Tree * nat) :=
  autotype ← decode_autotype item;
  icon ← child_text "IconID" item;
  u ← child_text "UUID" item;
  let '(uuid, drawn) := keep_uuid u drawn in
  icon_id ← int_of_text icon;
  '(name, strings) ← decode_strings (findall "String" item) (VStr "", []);
  Ok (TEntry uuid icon_id name strings autotype, drawn).

(** The constructor call of the [Group] branch: the attributes of the
    new group, before it has items. *)
Definition decode_group_attrs (item : Element) (drawn : nat)
    : Res (string * PyVal * PyVal * Z * nat) :=
  n ← child_text "Name" item;
  no ← child_text "Notes" item;
  icon ← child_text "IconID" item;
  u ← child_text "UUID" item;
  let '(uuid, drawn) := keep_uuid u drawn in
  icon_id ← int_of_text icon;
  Ok (uuid, of_text n, of_text no, icon_id, drawn).

(** The iterations of the loop of [inner_init] on the [Group] children:
    [inner_init] is the function itself, called on each new group. *)
Definition groups_pass (inner_init : Element -> nat -> Res (list Tree * nat))
    : list Element -> nat -> Res (list Tree * nat) :=
  fix loop (l : list Element) (drawn : nat) : Res (list Tree * nat) :=
    match l with
    | [] => Ok ([], drawn)
    | item :: rest =>
      if bool_decide (el_tag item = "Group") then
        '(uuid, name, notes, icon_id, drawn) ← decode_group_attrs item drawn;
        '(items, drawn) ← inner_init item drawn;
        '(more, drawn) ← loop rest drawn;
        Ok (TGroup uuid name notes icon_id items :: more, drawn)
      else loop rest drawn
    end.

(** The iterations on the [Entry] children. *)
Fixpoint entries_pass (l : list Element) (drawn : nat) : Res (list Tree * nat) :=
  match l with
  | [] => Ok ([], drawn)
  | item :: rest =>
    if bool_decide (el_tag item = "Entry") then
      '(e, drawn) ← decode_entry item drawn;
      '(more, drawn) ← entries_pass rest drawn;
      Ok (e :: more, drawn)
    else entries_pass rest drawn
  end.

(** [inner_init(parent_group_obj, cur_group)]: the items it appends to
    [cur_group].  The source walks
    [findall('Group') + findall('Entry')]: all child groups in document
    order, then all child entries.  The two passes over the children
    visit the same elements in the same order.  A new group is appended
    to [cur_group] before the recursive call fills it; the reference in
    [cur_group] sees the filled group. *)
Fixpoint inner_init (parent_group_obj : Element) (drawn : nat)
    : Res (list Tree * nat) :=
  match parent_group_obj with
  | Elem _ _ children =>
    '(groups, drawn) ← groups_pass inner_init children drawn;
    '(entries, drawn) ← entries_pass children drawn;
    Ok ((groups ++ entries)%list, drawn)
  end.

(** [self._root_obj.find('./Root/Group')]: the first [Group] child of a
    [Root] child, in document order. *)
Definition find_root_group (root_obj : Element) : option Element :=
  head (findall "Root" root_obj ≫= findall "Group").

(** [KeePass._init_root_group], as the view of the root group built. *)
Definition _init_root_group (opened : bool) (root_obj : Element) (drawn : nat)
    : Res (Tree * nat) :=
  if negb opened then Raise IOError
  else
    match find_root_group root_obj with
    | None => Raise AttributeError
    | Some root_group_obj =>
      '(uuid, name, notes, icon_id, drawn) ← decode_group_attrs root_group_obj drawn;
      '(items, drawn) ← inner_init root_group_obj drawn;
      Ok (TGroup uuid name notes icon_id items, drawn)
    end.

(** *** Reading the view off the store *)

Fixpoint mapM {A B : Type} (f : A -> Res B) (l : list A) : Res (list B) :=
  match l with
  | [] => Ok []
  | a :: rest => b ← f a; bs ← mapM f rest; Ok (b :: bs)
  end.

Definition string_view (h : list Obj) (o : objid) : Res (PyVal * PyVal) :=
  match h !! o with
  | Some (OString d) =>
    k ← dict_get d "key";
    v ← dict_get d "value";
    Ok (k, v)
  | _ => Raise TypeError
  end.

(** The tree that [get_xml_element] walks from the object [o]; the
    nesting of the calls is bounded by [fuel]. *)
Fixpoint snapshot (fuel : nat) (h : list Obj) (o : objid) : Res Tree :=
  match fuel with
  | O => Raise RecursionError
  | S fuel' =>
    match h !! o with
    | Some (OGroup g) =>
      items ← mapM (snapshot fuel' h) (g_items g);
      Ok (TGroup (g_uuid g) (g_name g) (g_notes g) (g_icon_id g) items)
    | Some (OEntry e) =>
      strings ← mapM (string_view h) (e_items e);
      Ok (TEntry (e_uuid e) (e_icon_id e) (e_name e) strings (e_autotype e))
    | _ => Raise TypeError
    end
  end.

(** [KeePass.update_kdb_in_db]: regenerates [_root_obj] from the tree.
    Writing the container and saving the user record are the business
    of the collaborators and leave the nodes alone; of them only
    [self.root_group.name + '.kdbx'] can fail here. *)
Definition update_kdb_in_db (st : KeePass) : Res KeePass :=
  match _root_obj st with
  | None => Raise AttributeError
  | Some root_obj =>
    match root_group st with
    | VRef r =>
      t ← snapshot recursion_limit (heap st) r;
      '(doc, tick) ← generate_root root_obj t (clock st);
      n ← get_name (heap st) (VRef r);
      match n with
      | VStr _ => Ok (with_root_obj (Some doc) tick st)
      | _ => Raise TypeError
      end
    | _ => Raise AttributeError
    end
  end.

(** [KeeGroup.delete] and [KeeEntry.delete] (the two bodies are the
    same); [BaseKeePass.delete], which an [EntryString] inherits, only
    raises. *)
Definition delete (self : objid) (st : KeePass) : Res KeePass :=
  match heap st !! self with
  | Some (OGroup _) | Some (OEntry _) =>
    st1 ← deactivate (VRef self) st;
    h ← remove_from_parent self (heap st1);
    update_kdb_in_db (with_heap h st1)
  | Some (OString _) => Raise TypeError
  | None => Raise AttributeError
  end.

(** ** [AddEditState] *)

(** [d[k] = v] on a [dict]: an existing key keeps its place. *)
Fixpoint dict_set (k : string) (v : PyVal) (d : list (string * PyVal))
    : list (string * PyVal) :=
  match d with
  | [] => [(k, v)]
  | (k', v') :: rest =>
    if bool_decide (k' = k) then (k', v) :: rest else (k', v') :: dict_set k v rest
  end.

Definition keys (d : list (string * PyVal)) : list string := map fst d.

(** The loop that fills an entry draft from the entry [obj]. *)
Fixpoint fill_from_entry (names : list string) (obj : objid) (h : list Obj)
    (d : list (string * PyVal)) : Res (list (string * PyVal)) :=
  match names with
  | [] => Ok d
  | field_name :: rest =>
    item ← get_item obj (VStr field_name) h;
    match item with
    | VRef i =>
      v ← get_string_attr h i "value";
      fill_from_entry rest obj h (dict_set field_name v d)
    | _ => Raise AttributeError
    end
  end.

(** [AddEditState(item_type, obj)].  When the kind inherited from [obj]
    is neither Entry nor Group the constructor leaves the object without
    fields and [start_add_edit], its only caller, raises at once in
    [get_message]: that case is the [AttributeError] below. *)
Definition AddEditState_init (item_type : option ItemType) (obj : PyVal)
    (h : list Obj) : Res AddEditState :=
  '(type, ptype) ←
    (match item_type with
     | Some ENTRY => Ok (VEnum ENTRY, ADD)
     | Some GROUP => Ok (VEnum GROUP, ADD)
     | _ => if py_eq obj VNone then Raise KeyError
            else t ← get_type h obj; Ok (t, EDIT)
     end);
  if py_eq type (VEnum ENTRY) then
    let fields0 := [("Title", VNone); ("UserName", VNone); ("Password", VNone);
                    ("URL", VNone); ("Notes", VNone)] in
    fields1 ← (match obj with
               | VNone => Ok fields0
               | VRef o => fill_from_entry (keys fields0) o h fields0
               | _ => Raise AttributeError
               end);
    Ok (mkAddEditState ENTRY ptype fields1 ["Title"; "Password"] "Title")
  else if py_eq type (VEnum GROUP) then
    let fields0 := [("Name", VNone); ("Notes", VNone)] in
    fields1 ← (match obj with
               | VNone => Ok fields0
               | VRef o =>
                 match h !! o with
                 | Some (OGroup g) =>
                   Ok (dict_set "Notes" (g_notes g) (dict_set "Name" (g_name g) fields0))
                 | _ => Raise AttributeError
                 end
               | _ => Raise AttributeError
               end);
    Ok (mkAddEditState GROUP ptype fields1 ["Name"] "Name")
  else Raise AttributeError.

Definition get_rawstrings (a : AddEditState) : list (string * PyVal) := fields a.

Definition set_cur_field_value (value : PyVal) (a : AddEditState) : AddEditState :=
  mkAddEditState (aes_type a) (process_type a)
    (dict_set (current_field a) value (fields a)) (req_fields a) (current_field a).

Definition set_cur_field (field_name : string) (a : AddEditState) : AddEditState :=
  mkAddEditState (aes_type a) (process_type a) (fields a) (req_fields a) field_name.

(** The loop of [next_field]; [cur] is [self.current_field] on entry
    and the result is its value when the loop ends. *)
Fixpoint next_field_loop (ks : list string) (finded : bool) (cur : string) : string :=
  match ks with
  | [] => cur
  | field :: rest =>
    if finded then field                                   (* assign, break *)
    else if bool_decide (cur = field) then next_field_loop rest true cur
    else next_field_loop rest false cur
  end.

Definition next_field (a : AddEditState) : AddEditState :=
  set_cur_field (next_field_loop (keys (fields a)) false (current_field a)) a.

(** The loop of [prev_field]. *)
Fixpoint prev_field_loop (ks : list string) (prev_field : string) (cur : string) : string :=
  match ks with
  | [] => cur
  | field :: rest =>
    if bool_decide (cur = field) then prev_field          (* assign, break *)
    else prev_field_loop rest field cur
  end.

(** [list(self.fields.keys())[0]] raises on an empty mapping. *)
Definition prev_field (a : AddEditState) : Res AddEditState :=
  match keys (fields a) with
  | [] => Raise IndexError
  | first :: _ =>
    Ok (set_cur_field (prev_field_loop (keys (fields a)) first (current_field a)) a)
  end.

(** The population that [generate_password] samples from, as written. *)
Definition password_alphabet : string :=
  "abcdefghijklmnopqrstuvwxyz01234567890ABCDEFGHIJKLMNOPQRSTUVWXYZ".

Definition passlen : nat := 8.

(** [random.sample(population, k)] returns the elements at [k] distinct
    positions of the population.  The positions are the random input:
    [choice] lists them in the order drawn. *)
Definition sample_choice (n k : nat) (choice : list nat) : Prop :=
  List.length choice = k ∧ NoDup choice ∧ Forall (fun i => i < n) choice.

Definition rsample (population : list ascii) (choice : list nat) : list ascii :=
  omap (fun i => population !! i) choice.

(** [generate_password], given the positions that [rsample] draws. *)
Definition generate_password (choice : list nat) (a : AddEditState) : AddEditState :=
  let gen_password :=
    string_of_list_ascii (rsample (list_ascii_of_string password_alphabet) choice) in
  let prev_field := current_field a in
  let a := set_cur_field "Password" a in
  let a := set_cur_field_value (VStr gen_password) a in
  set_cur_field prev_field a.

(** ** The session: search and commit *)

(** [str.lower()] turns the letters A to Z of a string of ASCII
    characters into a to z and keeps its other characters. *)
Definition lower_ascii (c : ascii) : ascii :=
  let n := nat_of_ascii c in
  if (65 <=? n)%nat && (n <=? 90)%nat then ascii_of_nat (n + 32) else c.

Fixpoint lower_bytes (s : string) : string :=
  match s with
  | EmptyString => EmptyString
  | String c s' => String (lower_ascii c) (lower_bytes s')
  end.

Fixpoint is_ascii (s : string) : bool :=
  match s with
  | EmptyString => true
  | String c s' => (nat_of_ascii c <? 128)%nat && is_ascii s'
  end.

(** [str.lower] of the interpreter on the other strings, where it
    follows the case mapping of Unicode. *)
Variable str_lower : string -> string.

Definition lower (s : string) : string :=
  if is_ascii s then lower_bytes s else str_lower s.

(** [w in s] on strings.  The bytes of [w] occur in those of [s] where
    its characters do: a character of UTF-8 does not start inside
    another. *)
Fixpoint contains (w s : string) : bool :=
  String.prefix w s ||
  match s with
  | EmptyString => false
  | String _ s' => contains w s'
  end.

(** [word.lower() in item.name.lower()]. *)
Definition name_matches (word : string) (h : list Obj) (item : PyVal) : Res bool :=
  n ← get_name h item;
  match n with
  | VStr s => Ok (contains (lower word) (lower s))
  | _ => Raise AttributeError
  end.

(** [__inner_find(parent_item)] of [search_item]: what the call appends
    to [finded_items]. *)
Fixpoint inner_find (fuel : nat) (word : string) (h : list Obj)
    (parent_item : objid) : Res (list objid) :=
  match fuel with
  | O => Raise RecursionError
  | S fuel' =>
    m ← name_matches word h (VRef parent_item);
    items ← get_items h (VRef parent_item);
    found ←
      (fix loop (l : list objid) : Res (list objid) :=
         match l with
         | [] => Ok []
         | item :: rest =>
           t ← get_type h (VRef item);
           sub ← (if py_eq t (VEnum GROUP) then inner_find fuel' word h item else Ok []);
           mi ← name_matches word h (VRef item);
           more ← loop rest;
           Ok (sub ++ (if mi : bool then [item] else []) ++ more)%list
         end) items;
    Ok ((if m : bool then [parent_item] else []) ++ found)%list
  end.

(** [KeePass.search_item(word)]. *)
Definition search_item (word : string) (st : KeePass) : Res (list objid) :=
  if negb (opened st) then Raise IOError
  else
    match root_group st with
    | VRef r => inner_find recursion_limit word (heap st) r
    | _ => Raise AttributeError
    end.

(** [for string in item.items: temp_entry.append(string)]. *)
Fixpoint append_all (temp_entry : objid) (strings : list objid) (h : list Obj)
    : Res (list Obj) :=
  match strings with
  | [] => Ok h
  | string :: rest =>
    h1 ← KeeEntry_append temp_entry (VRef string) h;
    append_all temp_entry rest h1
  end.

(** The loop of [search] over [finded_items]. *)
Fixpoint search_loop (finded_items : list objid) (st : KeePass) : Res KeePass :=
  match finded_items with
  | [] => Ok st
  | item :: rest =>
    if is_KeeEntry (heap st) (VRef item) then
      let '(temp_entry, st1) :=
        KeeEntry_init (search_group st) (mkAutoType (VBool true) (VStr "0") None) 0 "" st in
      strings ← get_items (heap st1) (VRef item);
      h1 ← append_all temp_entry strings (heap st1);
      match search_group st1 with
      | VRef sg =>
        h2 ← KeeGroup_append sg (VRef temp_entry) h1;
        search_loop rest (with_heap h2 st1)
      | _ => Raise AttributeError
      end
    else search_loop rest st
  end.

(** [KeePass.search(word)]. *)
Definition search (word : string) (st : KeePass) : Res KeePass :=
  finded_items ← search_item word st;
  let '(sg, st1) := KeeGroup_init (active_item st) (VStr "Search") (VStr "") 37 "" st in
  let st2 := with_search_group (VRef sg) st1 in
  st3 ← search_loop finded_items st2;
  Ok (activate (search_group st3) st3).

(** [KeePass.start_add_edit(item_type, obj)]; the message it returns is
    not modelled. *)
Definition start_add_edit (item_type : option ItemType) (obj : PyVal)
    (st : KeePass) : Res KeePass :=
  a ← AddEditState_init item_type obj (heap st);
  Ok (with_add_edit_state (Some a) st).

(** [while not group_item.type == ItemType.GROUP:
       group_item = group_item.get_parent()]. *)
Fixpoint enclosing_group (fuel : nat) (h : list Obj) (group_item : PyVal) : Res PyVal :=
  match fuel with
  | O => Raise Diverges
  | S fuel' =>
    t ← get_type h group_item;
    if py_eq t (VEnum GROUP) then Ok group_item
    else p ← get_parent h group_item; enclosing_group fuel' h p
  end.

(** [for key, value in ...: entry.append(EntryString(root, entry, key, value))]. *)
Fixpoint add_strings (entry : objid) (raw : list (string * PyVal)) (h : list Obj)
    : Res (list Obj) :=
  match raw with
  | [] => Ok h
  | (key, value) :: rest =>
    '(s, h1) ← EntryString_init (VRef entry) (VStr key) value h;
    h2 ← KeeEntry_append entry (VRef s) h1;
    add_strings entry rest h2
  end.

(** [for key, value in ...: entry.update_item(key, value)]. *)
Fixpoint update_items (entry : PyVal) (raw : list (string * PyVal)) (h : list Obj)
    : Res (list Obj) :=
  match raw with
  | [] => Ok h
  | (key, value) :: rest =>
    match entry with
    | VRef e => h1 ← update_item e (VStr key) value h; update_items entry rest h1
    | _ => Raise AttributeError
    end
  end.

(** [gr_name = "None"; for key, value in ...: if key == "Name": gr_name = value]. *)
Fixpoint group_name_of (raw : list (string * PyVal)) (gr_name : PyVal) : PyVal :=
  match raw with
  | [] => gr_name
  | (key, value) :: rest =>
    group_name_of rest (if bool_decide (key = "Name") then value else gr_name)
  end.

(** [group.notes = value] through the reference [group]. *)
Definition set_notes (group : PyVal) (value : PyVal) (h : list Obj) : Res (list Obj) :=
  match group with
  | VRef i =>
    match h !! i with
    | Some (OGroup g) => Ok (<[i := OGroup (g_with_notes value g)]> h)
    | Some (OString _) => EntryString_setattr i "notes" value h
    | Some (OEntry _) => Raise Unmodelled
    | None => Raise AttributeError
    end
  | _ => Raise AttributeError
  end.

(** The loop of the Group/Edit branch:
    [if key == 'Name': group.name = value]
    [if key == 'Note': group.notes = value]. *)
Fixpoint edit_group (group : PyVal) (raw : list (string * PyVal)) (h : list Obj)
    : Res (list Obj) :=
  match raw with
  | [] => Ok h
  | (key, value) :: rest =>
    h1 ← (if bool_decide (key = "Name")
          then set_name recursion_limit group value h else Ok h);
    h2 ← (if bool_decide (key = "Note") then set_notes group value h1 else Ok h1);
    edit_group group rest h2
  end.

(** The body of [finish_add_edit] under its guard, up to and including
    [group_item.activate()]. *)
Definition commit (a : AddEditState) (st : KeePass) : Res KeePass :=
  group_item ← enclosing_group (S (List.length (heap st))) (heap st) (active_item st);
  st1 ←
    match aes_type a with
    | ENTRY =>
      match process_type a with
      | ADD =>
        let '(entry, st1) :=
          KeeEntry_init group_item (mkAutoType (VStr "True") (VStr "0") None) 0 "" st in
        h1 ← add_strings entry (get_rawstrings a) (heap st1);
        match group_item with
        | VRef g => h2 ← KeeGroup_append g (VRef entry) h1; Ok (with_heap h2 st1)
        | _ => Raise AttributeError
        end
      | EDIT =>
        h1 ← update_items (active_item st) (get_rawstrings a) (heap st);
        Ok (with_heap h1 st)
      end
    | GROUP =>
      let gr_name := group_name_of (get_rawstrings a) (VStr "None") in
      match process_type a with
      | ADD =>
        let '(group, st1) := KeeGroup_init group_item gr_name (VStr "") 37 "" st in
        match group_item with
        | VRef g => h2 ← KeeGroup_append g (VRef group) (heap st1); Ok (with_heap h2 st1)
        | _ => Raise AttributeError
        end
      | EDIT =>
        h1 ← edit_group (active_item st) (get_rawstrings a) (heap st);
        Ok (with_heap h1 st)
      end
    | _ => Ok st
    end;
  Ok (activate group_item st1).

(** [KeePass.finish_add_edit()]. *)
Definition finish_add_edit (st : KeePass) : Res KeePass :=
  st1 ← match add_edit_state st with
        | Some a =>
          if create_state st
          then st1 ← commit a st; update_kdb_in_db st1
          else Ok st
        | None => Ok st
        end;
  Ok (with_add_edit_state None st1).

(** [d.get(k)] on a [dict]. *)
Fixpoint dict_lookup (k : string) (d : list (string * PyVal)) : option PyVal :=
  match d with
  | [] => None
  | (k', v) :: rest => if bool_decide (k' = k) then Some v else dict_lookup k rest
  end.

(** The characters of the class [a-z0-9A-Z]. *)
Definition alnum (c : ascii) : bool :=
  let n := nat_of_ascii c in
  ((97 <=? n)%nat && (n <=? 122)%nat) ||
  ((48 <=? n)%nat && (n <=? 57)%nat) ||
  ((65 <=? n)%nat && (n <=? 90)%nat).

(** The object [o] after [o.name = v], for a group or an entry. *)
Definition named (v : PyVal) (o : Obj) : Obj :=
  match o with
  | OGroup g => OGroup (g_with_name v g)
  | OEntry e => OEntry (e_with_name v e)
  | OString d => OString d
  end.

(** [p] is a group or an entry of the store. *)
Definition is_node (h : list Obj) (p : objid) : Prop :=
  is_KeeEntry h (VRef p) || is_KeeGroup h (VRef p) = true.

(** An [EntryString] as the constructor leaves it: it has a key, and a
    "Title" has a group or an entry as its parent. *)
Definition string_ok (h : list Obj) (s : objid) : Prop :=
  ∃ d, h !! s = Some (OString d) ∧ is_Some (d !! "key") ∧
       (is_title d = true → ∃ p, d !! "_parent" = Some (VRef p) ∧ is_node h p).

(** [h1] keeps the groups and entries of [h] and, of its strings, the
    key and the parent. *)
Definition keeps_shape (h h1 : list Obj) : Prop :=
  (∀ q, is_node h q → is_node h1 q) ∧
  (∀ s d, h !! s = Some (OString d) →
     ∃ d', h1 !! s = Some (OString d') ∧
           d' !! "key" = d !! "key" ∧ d' !! "_parent" = d !! "_parent") ∧
  (∀ e ent, h !! e = Some (OEntry ent) →
     ∃ ent', h1 !! e = Some (OEntry ent') ∧ e_items ent' = e_items ent).

(** The objects of the tree under [r]: [r] and, transitively, the
    members of the [items] of its members. *)
Inductive reachable (h : list Obj) (r : objid) : objid -> Prop :=
| reach_root : reachable h r r
| reach_item (i j : objid) (l : list objid) :
    reachable h r i -> get_items h (VRef i) = Ok l -> j ∈ l -> reachable h r j.

(** The canonical document tree of the session: what the root group
    reaches. *)
Definition in_document (st : KeePass) (o : objid) : Prop :=
  ∃ r, root_group st = VRef r ∧ reachable (heap st) r o.

(** An [EntryString] that [KeeEntry.append] can read: it has a key,
    and a "Title" has a value. *)
Definition appendable (h : list Obj) (s : objid) : Prop :=
  ∃ d, h !! s = Some (OString d) ∧ is_Some (d !! "key") ∧
       (is_title d = true → is_Some (d !! "value")).

(** The entries among the matches, in the order of the match list. *)
Definition matched_entries (h : list Obj) (finded_items : list objid) : list objid :=
  filter (fun i => is_KeeEntry h (VRef i) = true) finded_items.

(** The tree under [i] is made of groups and entries named by strings,
    with groups nested at most [n] deep. *)
Fixpoint well_nested (n : nat) (h : list Obj) (i : objid) {struct n} : Prop :=
  match h !! i with
  | Some (OEntry e) => ∃ s, e_name e = VStr s
  | Some (OGroup g) =>
    (∃ s, g_name g = VStr s) ∧
    match n with
    | O => False
    | S n' => Forall (well_nested n' h) (g_items g)
    end
  | _ => False
  end.

(** A session on which [search] can run: it is opened, its root group
    heads a tree of named groups and entries that is not nested deeper
    than the interpreter lets calls nest, and its entries hold strings
    that [append] can read. *)
Definition searchable (st : KeePass) : Prop :=
  opened st = true ∧
  (∃ r n, root_group st = VRef r ∧ is_KeeGroup (heap st) (VRef r) = true ∧
          well_nested n (heap st) r ∧ (n ≤ recursion_limit)%nat) ∧
  (∀ i e, heap st !! i = Some (OEntry e) → Forall (appendable (heap st)) (e_items e)).

(** The claim C3 as it is worded, for a search that found
    [finded_items] in [st] and ended in [st']: the overlay is active,
    holds a new entry with the same strings for each matched entry, and
    holds each matched group itself. *)
Definition overlay_as_claimed (st : KeePass) (finded_items : list objid)
    (st' : KeePass) : Prop :=
  ∃ sg overlay,
    search_group st' = VRef sg ∧ active_item st' = VRef sg ∧
    heap st' !! sg = Some (OGroup overlay) ∧
    (∀ item e, item ∈ finded_items → heap st !! item = Some (OEntry e) →
       ∃ new e', new ∈ g_items overlay ∧ new ≠ item ∧
                 heap st' !! new = Some (OEntry e') ∧ e_items e' = e_items e) ∧
    (∀ item, item ∈ finded_items → is_KeeGroup (heap st) (VRef item) = true →
       item ∈ g_items overlay).

(** The strings that the overlay of [st'] reaches. *)
Definition overlay_string (st' : KeePass) (s : objid) : Prop :=
  ∃ sg overlay new e',
    search_group st' = VRef sg ∧ heap st' !! sg = Some (OGroup overlay) ∧
    new ∈ g_items overlay ∧ heap st' !! new = Some (OEntry e') ∧ s ∈ e_items e'.

(** The claim C4 as it is worded: no string of the overlay is an object
    of the document tree. *)
Definition overlay_disjoint_as_claimed (st' : KeePass) : Prop :=
  ∀ s, overlay_string st' s → ¬ in_document st' s.

(** *** The tree that a round trip gives back

    [reread t] is [t] as the decoder rebuilds it from the encoding of
    [t]: an empty text comes back as [None]; a group comes back without
    its notes and with its child groups ahead of its child entries; an
    entry comes back named by its strings, the value of the last "Title"
    or the empty string. *)

Definition reread_text (v : PyVal) : PyVal :=
  match v with
  | VStr s => if bool_decide (s = "") then VNone else VStr s
  | _ => v
  end.

Definition is_group (t : Tree) : bool :=
  match t with
  | TGroup _ _ _ _ _ => true
  | TEntry _ _ _ _ _ => false
  end.

Definition title_step (name : PyVal) (s : PyVal * PyVal) : PyVal :=
  if py_eq (fst s) (VStr "Title") then snd s else name.

Definition derived_name (strings : list (PyVal * PyVal)) : PyVal :=
  fold_left title_step strings (VStr "").

Definition reread_string (s : PyVal * PyVal) : PyVal * PyVal :=
  (reread_text (fst s), reread_text (snd s)).

Definition reread_autotype (a : AutoType) : AutoType :=
  mkAutoType (reread_text (enabled a)) (reread_text (dto a))
    (match association a with
     | Some (w, k) => Some (reread_text w, reread_text k)
     | None => None
     end).

Fixpoint reread (t : Tree) : Tree :=
  match t with
  | TGroup uuid name notes icon_id items =>
    let kids := map reread items in
    TGroup uuid (reread_text name) VNone icon_id
      (List.filter is_group kids ++ List.filter (fun k => negb (is_group k)) kids)%list
  | TEntry uuid icon_id name items autotype =>
    let strings := map reread_string items in
    TEntry uuid icon_id (derived_name strings) strings (reread_autotype autotype)
  end.

(** Every node carries an identifier, as the constructors see to. *)
Fixpoint uuids_nonempty (t : Tree) : bool :=
  match t with
  | TGroup uuid _ _ _ items =>
    negb (bool_decide (uuid = "")) && forallb uuids_nonempty items
  | TEntry uuid _ _ _ _ => negb (bool_decide (uuid = ""))
  end.

Definition tree_uuid (t : Tree) : string :=
  match t with
  | TGroup uuid _ _ _ _ => uuid
  | TEntry uuid _ _ _ _ => uuid
  end.

Definition tree_name (t : Tree) : PyVal :=
  match t with
  | TGroup _ name _ _ _ => name
  | TEntry _ _ name _ _ => name
  end.

Definition tree_children (t : Tree) : list Tree :=
  match t with
  | TGroup _ _ _ _ items => items
  | TEntry _ _ _ _ _ => []
  end.

(** The tree without the notes of its groups. *)
Fixpoint without_group_notes (t : Tree) : Tree :=
  match t with
  | TGroup uuid name _ icon_id items =>
    TGroup uuid name VNone icon_id (map without_group_notes items)
  | TEntry _ _ _ _ _ => t
  end.

(** The claim C2 as it is worded: the decoded tree [t'] is the encoded
    tree [t], the notes of groups apart (timestamps are not part of the
    tree). *)
Definition roundtrip_as_claimed (t t' : Tree) : Prop :=
  without_group_notes t' = without_group_notes t.

(** [size] equals the number of items, for a group or an entry. *)
Definition size_matches (o : Obj) : Prop :=
  match o with
  | OGroup g => size (g_base g) = Z.of_nat (List.length (g_items g))
  | OEntry e => size (e_base e) = Z.of_nat (List.length (e_items e))
  | OString _ => True
  end.

(** The claim C8 as it is worded, for a node with attributes [b]:
    wrapping at the two ends, one step "otherwise". *)
Definition paging_as_claimed (b : BaseKeePass) : Prop :=
  let last := math_ceil (true_div (size b) NUMBER_OF_ENTRIES_ON_PAGE) in
  (page b = last → page (next_page b) = 1%Z) ∧
  (page b = 1%Z → page (previous_page b) = last) ∧
  (page b ≠ last → page (next_page b) = (page b + 1)%Z) ∧
  (page b ≠ 1%Z → page (previous_page b) = (page b - 1)%Z).

(** The claim C7 as it is worded, for a draft whose cursor is at
    position [i] of the mapping: [next_field] wraps from the last field
    to the first, [prev_field] stays on the first, and otherwise each
    moves by one position. *)
Definition field_cursor_as_claimed (a : AddEditState) (i : nat) : Prop :=
  let ks := keys (fields a) in
  Some (current_field (next_field a)) =
    (if bool_decide (S i = List.length ks) then head ks else ks !! S i) ∧
  ∃ a', prev_field a = Ok a' ∧ Some (current_field a') = ks !! pred i.

(** What decoding makes of the encoding [x] of the node [t]. *)
Definition decodes_to_reread (t : Tree) (x : Element) : Prop :=
  ∀ drawn,
  match t with
  | TGroup uuid name _ icon_id _ =>
    el_tag x = "Group" ∧
    decode_group_attrs (reparse x) drawn =
      Ok (uuid, reread_text name, VNone, icon_id, drawn) ∧
    inner_init (reparse x) drawn = Ok (tree_children (reread t), drawn)
  | TEntry _ _ _ _ _ =>
    el_tag x = "Entry" ∧ decode_entry (reparse x) drawn = Ok (reread t, drawn)
  end.

(** ** The items shown on a page

    [_generate_keyboard] and the group branch of [get_message] walk the
    items with a counter [i] from 0 and emit an item (a button, a line)
    when
    [page * NUMBER_OF_ENTRIES_ON_PAGE >= i >= page * NUMBER_OF_ENTRIES_ON_PAGE - NUMBER_OF_ENTRIES_ON_PAGE].
    [page_window] is that selection: the items for which the loop emits. *)

Fixpoint page_window_loop {A : Type} (page i : Z) (items : list A) : list A :=
  match items with
  | [] => []
  | item :: rest =>
    ((if (page * Z.pos NUMBER_OF_ENTRIES_ON_PAGE >=? i)%Z &&
         (i >=? page * Z.pos NUMBER_OF_ENTRIES_ON_PAGE - Z.pos NUMBER_OF_ENTRIES_ON_PAGE)%Z
      then [item] else []) ++ page_window_loop page (i + 1) rest)%list
  end.

Definition page_window {A : Type} (page : Z) (items : list A) : list A :=
  page_window_loop page 0 items.

(** ** [KeePass.get_item_by_uuid] *)

(** [o.uuid] through a reference. *)
Definition get_uuid (h : list Obj) (o : PyVal) : Res PyVal :=
  match o with
  | VRef i =>
    match h !! i with
    | Some (OGroup g) => Ok (VStr (g_uuid g))
    | Some (OEntry e) => Ok (VStr (e_uuid e))
    | Some (OString d) => dict_get d "uuid"
    | None => Raise AttributeError
    end
  | _ => Raise AttributeError
  end.

(** The truth value that [if v:] tests.  No class of the program
    defines [__bool__] or [__len__]: an object is true. *)
Definition truthy (v : PyVal) : bool :=
  match v with
  | VNone => false
  | VStr s => negb (bool_decide (s = ""))
  | VInt z => negb (z =? 0)%Z
  | VBool b => b
  | VEnum _ | VRoot | VRef _ => true
  end.

(** The loop of [__inner_find] in [get_item_by_uuid]; [inner] is the
    nested call.  The result is what the loop returns, or [None] when
    it ends without returning. *)
Fixpoint find_uuid_loop (inner : objid -> Res PyVal) (word : PyVal) (h : list Obj)
    (l : list objid) : Res PyVal :=
  match l with
  | [] => Ok VNone
  | item :: rest =>
    t ← get_type h (VRef item);
    finded_elem ← (if py_eq t (VEnum GROUP) then inner item else Ok VNone);
    if truthy finded_elem then Ok finded_elem
    else
      u ← get_uuid h (VRef item);
      if py_eq u word then Ok (VRef item) else find_uuid_loop inner word h rest
  end.

(** [__inner_find(parent_item)] of [get_item_by_uuid]. *)
Fixpoint inner_find_uuid (fuel : nat) (word : PyVal) (h : list Obj)
    (parent_item : objid) : Res PyVal :=
  match fuel with
  | O => Raise RecursionError
  | S fuel' =>
    u ← get_uuid h (VRef parent_item);
    if py_eq u word then Ok (VRef parent_item)
    else
      items ← get_items h (VRef parent_item);
      find_uuid_loop (inner_find_uuid fuel' word h) word h items
  end.

(** [KeePass.get_item_by_uuid(word)]. *)
Definition get_item_by_uuid (word : PyVal) (st : KeePass) : Res PyVal :=
  if negb (opened st) then Raise IOError
  else
    match (if truthy (search_group st) then search_group st else root_group st) with
    | VRef r => inner_find_uuid recursion_limit word (heap st) r
    | _ => Raise AttributeError
    end.

(** The nodes that the groups under [p] list: [p] and, transitively,
    the items of the groups among them. *)
Inductive listed (h : list Obj) (p : objid) : objid -> Prop :=
| listed_top : listed h p p
| listed_item (q i : objid) (g : KeeGroup) :
    listed h p q -> h !! q = Some (OGroup g) -> i ∈ g_items g -> listed h p i.

(** The tree under [i] is made of groups and entries, with groups
    nested at most [n] deep. *)
Fixpoint nodes_nested (n : nat) (h : list Obj) (i : objid) {struct n} : Prop :=
  match h !! i with
  | Some (OEntry e) => True
  | Some (OGroup g) =>
    match n with
    | O => False
    | S n' => Forall (nodes_nested n' h) (g_items g)
    end
  | _ => False
  end.


(** What [__inner_find] of [get_item_by_uuid] returns for the group
    [p]: a node that the groups under [p] list and that carries the
    identifier, or [None] when no such node carries it. *)
Definition uuid_found (h : list Obj) (word : PyVal) (from : objid -> Prop)
    (res : PyVal) : Prop :=
  match res with
  | VRef i => from i ∧ get_uuid h (VRef i) = Ok word
  | VNone => ∀ i, from i → get_uuid h (VRef i) ≠ Ok word
  | _ => False
  end.

(** ** What the encoder accepts *)











(** ** The strings shown for an entry

    The entry branch of [get_message] walks the strings of the active
    entry with the same counter and the same window as the group branch,
    but prints each string in the window under
    [try: ... except TypeError: continue], and [continue] skips the
    [i += 1] at the end of the loop body. *)

(** [EntryString.__str__]: [+] on anything but two strings raises
    [TypeError]. *)
Definition EntryString_str (h : list Obj) (self : objid) : Res string :=
  value ← get_string_attr h self "value";
  key ← get_string_attr h self "key";
  match key with
  | VStr k =>
    if negb (truthy value) then Ok (k ++ " = ")
    else match value with
         | VStr v => Ok (k ++ " = " ++ v)
         | _ => Raise TypeError
         end
  | _ => Raise TypeError
  end.

(** The lines that the loop adds to the message, from the counter [i]
    on. *)
Fixpoint entry_lines_loop (h : list Obj) (page i : Z) (items : list objid)
    : Res (list string) :=
  match items with
  | [] => Ok []
  | item :: rest =>
    if (page * Z.pos NUMBER_OF_ENTRIES_ON_PAGE >=? i)%Z &&
       (i >=? page * Z.pos NUMBER_OF_ENTRIES_ON_PAGE - Z.pos NUMBER_OF_ENTRIES_ON_PAGE)%Z
    then
      match EntryString_str h item with
      | Ok line => more ← entry_lines_loop h page (i + 1) rest; Ok (line :: more)
      | Raise TypeError => entry_lines_loop h page i rest         (* continue *)
      | Raise e => Raise e
      end
    else entry_lines_loop h page (i + 1) rest
  end.

Definition entry_lines (h : list Obj) (page : Z) (items : list objid)
    : Res (list string) :=
  entry_lines_loop h page 0 items.

(** The line of a string that [str] can print. *)
Definition printed (h : list Obj) (s : objid) : option string :=
  match EntryString_str h s with
  | Ok line => Some line
  | Raise _ => None
  end.

(** A string with the attributes that [__str__] reads. *)
Definition printable_or_skipped (h : list Obj) (s : objid) : Prop :=
  ∃ d, h !! s = Some (OString d) ∧ is_Some (d !! "key") ∧ is_Some (d !! "value").


(** ** A new entry from a draft *)

(** The attributes of a string that [EntryString(root, parent, key,
    value)] has built. *)
Definition new_string (parent : objid) (key : string) (value : PyVal)
    : gmap string PyVal :=
  <["type" := VEnum STRING]> (<["value" := value]> (<["key" := VStr key]>
    (<["type" := VNone]> (<["size" := VInt 0]> (<["page" := VInt 1]>
      (<["_parent" := VRef parent]> (<["_root" := VRoot]> ∅))))))).

(** The name that the fields [raw] of a draft leave on an entry named
    [name]: the value of the last "Title" among them. *)
Definition name_from_draft (raw : list (string * PyVal)) (name : PyVal) : PyVal :=
  fold_left (fun n kv => if bool_decide (kv.1 = "Title") then kv.2 else n) raw name.


(** ** What the decoder always delivers *)

(** No group comes after an entry. *)
Fixpoint groups_first (items : list Tree) : bool :=
  match items with
  | [] => true
  | t :: rest =>
    (is_group t || forallb (fun k => negb (is_group k)) rest) && groups_first rest
  end.

(** Every node carries an identifier, every group lists its groups
    ahead of its entries, and every entry is named by its strings. *)
Fixpoint as_decoded (t : Tree) : bool :=
  match t with
  | TGroup uuid _ _ _ items =>
    negb (bool_decide (uuid = "")) && groups_first items && forallb as_decoded items
  | TEntry uuid _ name strings _ =>
    negb (bool_decide (uuid = "")) && bool_decide (name = derived_name strings)
  end.


(** ** An edit that changes nothing *)

(** A string that holds a value and, if it is a "Title", has a group
    or an entry as its parent that is named by that value. *)
Definition settled_string (h : list Obj) (s : objid) : Prop :=
  ∃ d v, h !! s = Some (OString d) ∧ is_Some (d !! "key") ∧ d !! "value" = Some v ∧
         (is_title d = true →
            ∃ p, d !! "_parent" = Some (VRef p) ∧ is_node h p ∧
                 get_name h (VRef p) = Ok v).

(** Strings of the list with the same key hold the same value, as they
    do when no key occurs twice. *)
Definition one_value_per_key (h : list Obj) (items : list objid) : Prop :=
  ∀ s1 s2 d1 d2, s1 ∈ items → s2 ∈ items →
    h !! s1 = Some (OString d1) → h !! s2 = Some (OString d2) →
    d1 !! "key" = d2 !! "key" → d1 !! "value" = d2 !! "value".


(** ** The classes of the items *)

(** Every group of the store lists groups and entries only, and every
    entry lists [EntryString]s only. *)
Definition well_typed (h : list Obj) : Prop :=
  ∀ i, match h !! i with
       | Some (OGroup g) => Forall (is_node h) (g_items g)
       | Some (OEntry e) => Forall (fun s => is_EntryString h (VRef s) = true) (e_items e)
       | _ => True
       end.

(** Two objects of the same class. *)
Definition same_class (o o' : Obj) : Prop :=
  match o, o' with
  | OGroup _, OGroup _ | OEntry _, OEntry _ | OString _, OString _ => True
  | _, _ => False
  end.


(** ** Words that differ in letter case *)

(** Two ASCII characters that are the same but for the case of a letter
    A to Z: the codes of a capital and of its small letter are 32
    apart. *)
Definition capital (n : nat) : bool := (65 <=? n)%nat && (n <=? 90)%nat.

Definition same_letter (a b : ascii) : bool :=
  let m := nat_of_ascii a in
  let n := nat_of_ascii b in
  (m =? n)%nat || (capital m && (n =? m + 32)%nat) || (capital n && (m =? n + 32)%nat).

Fixpoint same_letters (w1 w2 : string) : bool :=
  match w1, w2 with
  | EmptyString, EmptyString => true
  | String a w1', String b w2' => same_letter a b && same_letters w1' w2'
  | _, _ => false
  end.


(** ** Sample data

    A small document: the root group holds the entry "site" and the
    group "Sites", which holds the entry "blog". *)

Definition demo_string (parent : objid) (k : string) (v : PyVal) : Obj :=
  OString (list_to_map
    [("_root", VRoot); ("_parent", VRef parent); ("page", VInt 1); ("size", VInt 0);
     ("type", VEnum STRING); ("key", VStr k); ("value", v)]).

Definition demo_autotype : AutoType := mkAutoType (VStr "True") (VStr "0") None.

Definition demo_site : KeeEntry :=
  mkEntry (mkBase (VRef 0) 1 2) "U0lURQ==" 0 [2; 3] (VStr "site") demo_autotype.

Definition demo_title : gmap string PyVal :=
  list_to_map
    [("_root", VRoot); ("_parent", VRef 1); ("page", VInt 1); ("size", VInt 0);
     ("type", VEnum STRING); ("key", VStr "Title"); ("value", VStr "site")].

Definition demo_heap : list Obj :=
  [ OGroup (mkGroup (mkBase (VRef 0) 1 2) "Uk9PVA==" (VStr "Root") (VStr "") 37 [1; 4]);
    OEntry demo_site;
    OString demo_title;
    demo_string 1 "Password" (VStr "x");
    OGroup (mkGroup (mkBase (VRef 0) 1 1) "R1JQ" (VStr "Sites") (VStr "") 37 [5]);
    OEntry (mkEntry (mkBase (VRef 4) 1 1) "QkxPRw==" 0 [6] (VStr "blog") demo_autotype);
    demo_string 5 "Title" (VStr "blog") ].

Definition demo_root_obj : Element :=
  Elem "KeePassFile" None [ Elem "Meta" None []; Elem "Root" None [] ].

Definition demo_state : KeePass :=
  mkKeePass demo_heap (VRef 0) VNone (VRef 0) None true (Some demo_root_obj) true 0 0.

(** The view of the sample document that the codec works on.  The root
    lists the entry "site" before the group "Sites". *)
Definition demo_tree : Tree :=
  TGroup "Uk9PVA==" (VStr "Root") (VStr "") 37
    [ TEntry "U0lURQ==" 0 (VStr "site")
        [(VStr "Title", VStr "site"); (VStr "Password", VStr "x")] demo_autotype;
      TGroup "R1JQ" (VStr "Sites") (VStr "") 37
        [ TEntry "QkxPRw==" 0 (VStr "blog") [(VStr "Title", VStr "blog")] demo_autotype ] ].

(** The matches of the word "site" in the sample document: the entry
    "site", and the group "Sites" once from the call on it and once from
    the loop of its parent. *)
Definition demo_found : list objid := [1; 4; 4].

(** The draft of a new group, as [AddEditState(ItemType.GROUP)] builds
    it, and the same with the cursor moved to its last field. *)
Definition demo_group_draft : AddEditState :=
  mkAddEditState GROUP ADD [("Name", VNone); ("Notes", VNone)] ["Name"] "Name".

Definition demo_group_draft_on_notes : AddEditState :=
  set_cur_field "Notes" demo_group_draft.

(** Positions that [random.sample] may draw from the 63 characters of
    the population: 26 and 36 both hold the character 0. *)
Definition demo_choice : list nat := [26; 36; 0; 1; 2; 3; 4; 5].

(** A node as [BaseKeePass.__init__] leaves it: first page, no child. *)
Definition demo_fresh_node : BaseKeePass := mkBase (VRef 0) 1 0.

(** The caller's [keepass.add_edit_state.method(...)]. *)
Definition edit_draft (f : AddEditState -> AddEditState) (st : KeePass) : KeePass :=
  with_add_edit_state (f <$> add_edit_state st) st.

Definition demo_uuid4 (n : nat) : string :=
  String (ascii_of_nat (65 + n)) "AAAAAAAAAAAAAAAAAAAAA==".

Definition demo_now (n : nat) : string := "2024-01-01T00:00:00Z".

(** An entry that carries all five fields of an entry draft, under a
    root group. *)
Definition demo_login : KeeEntry :=
  mkEntry (mkBase (VRef 0) 1 5) "TE9HSU4=" 0 [2; 3; 4; 5; 6] (VStr "mail") demo_autotype.

Definition demo_login_heap : list Obj :=
  [ OGroup (mkGroup (mkBase (VRef 0) 1 1) "Uk9PVA==" (VStr "Root") (VStr "") 37 [1]);
    OEntry demo_login;
    demo_string 1 "Title" (VStr "mail");
    demo_string 1 "UserName" (VStr "ann");
    demo_string 1 "Password" (VStr "pw");
    demo_string 1 "URL" (VStr "example.org");
    demo_string 1 "Notes" VNone ].

(** An entry with a string that [str] cannot print: the key of the
    second string is [None]. *)
Definition demo_keyless_heap : list Obj :=
  [ OEntry (mkEntry (mkBase (VRef 0) 1 4) "S0VZ" 0 [1; 2; 3; 4] (VStr "a") demo_autotype);
    demo_string 0 "Title" (VStr "a");
    OString (list_to_map
      [("_root", VRoot); ("_parent", VRef 0); ("page", VInt 1); ("size", VInt 0);
       ("type", VEnum STRING); ("key", VNone); ("value", VStr "b")]);
    demo_string 0 "URL" VNone;
    demo_string 0 "Notes" (VStr "d") ].


(** The draft of a new entry with its two required fields filled in. *)
Definition demo_entry_draft : AddEditState :=
  mkAddEditState ENTRY ADD
    [("Title", VStr "new"); ("UserName", VNone); ("Password", VStr "pw");
     ("URL", VNone); ("Notes", VNone)]
    ["Title"; "Password"] "Title".

Definition demo_root : KeeGroup :=
  mkGroup (mkBase (VRef 0) 1 2) "Uk9PVA==" (VStr "Root") (VStr "") 37 [1; 4].


(** A document as it may be loaded: the root group has no identifier
    yet, and lists an entry ahead of a group. *)
Definition demo_loaded_doc : Element :=
  Elem "KeePassFile" None
    [ Elem "Meta" None [];
      Elem "Root" None
        [ Elem "Group" None
            [ leaf "UUID" None; leaf "Name" (Some "Root"); leaf "Notes" None;
              leaf "IconID" (Some "37");
              Elem "Entry" None
                [ leaf "UUID" (Some "RQ=="); leaf "IconID" (Some "0");
                  Elem "String" None [ leaf "Key" (Some "Title"); leaf "Value" (Some "mail") ];
                  Elem "AutoType" None
                    [ leaf "Enabled" (Some "True");
                      leaf "DataTransferObfuscation" (Some "0") ] ];
              Elem "Group" None
                [ leaf "UUID" (Some "Rw=="); leaf "Name" (Some "Sub"); leaf "Notes" None;
                  leaf "IconID" (Some "37") ] ] ] ].

Definition demo_loaded_tree : Tree :=
  TGroup (demo_uuid4 0) (VStr "Root") VNone 37
    [ TGroup "Rw==" (VStr "Sub") VNone 37 [];
      TEntry "RQ==" 0 (VStr "mail") [(VStr "Title", VStr "mail")]
        (mkAutoType (VStr "True") (VStr "0") None) ].


(** A session with that entry active. *)
Definition demo_login_root : KeeGroup :=
  mkGroup (mkBase (VRef 0) 1 1) "Uk9PVA==" (VStr "Root") (VStr "") 37 [1].

Definition demo_login_state : KeePass :=
  mkKeePass demo_login_heap (VRef 1) VNone (VRef 0) None true (Some demo_root_obj) true 0 0.





(** The built-ins on the sample data.  The names and words of the
    samples are ASCII and their numerals are as [str] writes them, so
    that neither function is ever consulted
    ([samples_ignore_builtins]). *)
Definition demo_int_of_str (s : string) : option Z := None.

Definition demo_lower (s : string) : string := s.


(** ** Properties *)

Lemma bind_Ok {A B : Type} (m : Res A) (f : A -> Res B) (b : B) :
  m ≫= f = Ok b ↔ ∃ a, m = Ok a ∧ f a = Ok b.
Proof.
  destruct m as [a|e]; simpl.
  - split; [eauto | intros (a' & [= <-] & ?); done].
  - split; [done | intros (a' & ? & ?); done].
Qed.

Lemma bind_Ok_l {A B : Type} (a : A) (f : A -> Res B) : Ok a ≫= f = f a.
Proof. done. Qed.

(** *** Pagination *)

Lemma true_div_lt (N : positive) (p s : Z) :
  (inject_Z p < true_div s N)%Q ↔ (p * Z.pos N < s)%Z.
Proof. unfold Qlt, true_div; simpl. lia. Qed.

Lemma math_ceil_bounds (N : positive) (s : Z) :
  ((math_ceil (true_div s N) - 1) * Z.pos N < s ≤ math_ceil (true_div s N) * Z.pos N)%Z.
Proof.
  unfold math_ceil, true_div, Qceiling, Qfloor, Qopp; simpl.
  pose proof (Z.div_mod (- s) (Z.pos N) ltac:(lia)) as Hd.
  pose proof (Z.mod_pos_bound (- s) (Z.pos N) ltac:(lia)) as Hm.
  nia.
Qed.

Lemma next_page_value_spec (N : positive) (p s : Z) :
  next_page_value N p s =
  if (p <? math_ceil (true_div s N))%Z then (p + 1)%Z else 1%Z.
Proof.
  unfold next_page_value.
  pose proof (math_ceil_bounds N s) as Hc.
  set (c := math_ceil (true_div s N)) in *.
  assert (HN : (0 < Z.pos N)%Z) by lia.
  destruct (Qlt_le_dec _ _) as [Hl|Hl].
  - apply (proj1 (true_div_lt N p s)) in Hl.
    destruct (Z.ltb_spec p c) as [Hp|Hp]; [done | exfalso].
    assert ((c * Z.pos N <= p * Z.pos N)%Z) by (apply Z.mul_le_mono_nonneg_r; lia).
    lia.
  - destruct (Z.ltb_spec p c) as [Hp|Hp]; [|done].
    exfalso. apply Qle_not_lt in Hl. apply Hl, (proj2 (true_div_lt N p s)).
    assert ((p * Z.pos N <= (c - 1) * Z.pos N)%Z) by (apply Z.mul_le_mono_nonneg_r; lia).
    lia.
Qed.

(** C8, amended: [next_page] steps forward while the cursor is below
    the last page [ceil(size / NUMBER_OF_ENTRIES_ON_PAGE)] and otherwise
    returns to 1 (at the last page, and also past it, as on a node
    without children, whose last page is 0); [previous_page] steps back
    while the cursor is above 1 and otherwise goes to the last page.
    Neither touches [size] or the parent. *)
Theorem page_cursor_moves (b : BaseKeePass) :
  let last := math_ceil (true_div (size b) NUMBER_OF_ENTRIES_ON_PAGE) in
  page (next_page b) = (if (page b <? last)%Z then page b + 1 else 1)%Z ∧
  page (previous_page b) = (if (1 <? page b)%Z then page b - 1 else last)%Z ∧
  size (next_page b) = size b ∧ size (previous_page b) = size b ∧
  _parent (next_page b) = _parent b ∧ _parent (previous_page b) = _parent b.
Proof.
  cbn zeta. unfold next_page, previous_page, base_with_page; simpl.
  rewrite next_page_value_spec. split_and!; try done.
  unfold previous_page_value.
  destruct (Z.gtb_spec (page b) 1), (Z.ltb_spec 1 (page b)); try done; lia.
Qed.

(** *** The field cursor of the draft *)

Lemma next_field_loop_found (ks : list string) (cur : string) :
  next_field_loop ks true cur = default cur (head ks).
Proof. by destruct ks. Qed.

Lemma next_field_loop_spec (ks : list string) (cur : string) (i : nat) :
  NoDup ks → ks !! i = Some cur →
  next_field_loop ks false cur = default cur (ks !! S i).
Proof.
  revert i. induction ks as [|k ks IH]; intros i Hnd Hi; [done|].
  apply NoDup_cons in Hnd as [Hk Hnd]. simpl.
  case_bool_decide as Hc.
  - subst k. destruct i as [|i].
    + rewrite next_field_loop_found. by destruct ks.
    + exfalso. apply Hk. eapply list_elem_of_lookup_2. exact Hi.
  - destruct i as [|i]; [by injection Hi as ->|].
    by apply IH.
Qed.

Lemma prev_field_loop_spec (ks : list string) (prev cur : string) (i : nat) :
  NoDup ks → ks !! i = Some cur →
  Some (prev_field_loop ks prev cur) =
  match i with O => Some prev | S j => ks !! j end.
Proof.
  revert prev i. induction ks as [|k ks IH]; intros prev i Hnd Hi; [done|].
  apply NoDup_cons in Hnd as [Hk Hnd]. simpl.
  case_bool_decide as Hc.
  - subst k. destruct i as [|i]; [done|].
    exfalso. apply Hk. eapply list_elem_of_lookup_2. exact Hi.
  - destruct i as [|i]; [by injection Hi as ->|].
    simpl in Hi. rewrite (IH k i Hnd Hi). by destruct i.
Qed.

(** C7, amended: with the cursor on the field at position [i] of the
    mapping, [next_field] moves it to position [i + 1] and leaves it
    where it is on the last field (it does not wrap); [prev_field] moves
    it to position [i - 1] and leaves it where it is on the first field.
    The mapping itself is untouched. *)
Theorem field_cursor_moves (a : AddEditState) (i : nat) :
  NoDup (keys (fields a)) →
  keys (fields a) !! i = Some (current_field a) →
  Some (current_field (next_field a)) =
    (if bool_decide (S i = List.length (keys (fields a)))
     then Some (current_field a) else keys (fields a) !! S i) ∧
  fields (next_field a) = fields a ∧
  ∃ a', prev_field a = Ok a' ∧
        Some (current_field a') = keys (fields a) !! pred i ∧
        fields a' = fields a.
Proof.
  intros Hnd Hi. split_and!.
  - unfold next_field; simpl. rewrite (next_field_loop_spec _ _ i Hnd Hi).
    pose proof (lookup_lt_Some _ _ _ Hi) as Hlt.
    case_bool_decide as Hl.
    + rewrite lookup_ge_None_2; [done | lia].
    + destruct (lookup_lt_is_Some_2 (keys (fields a)) (S i)) as [x Hx]; [lia|].
      by rewrite Hx.
  - done.
  - unfold prev_field. destruct (keys (fields a)) as [|first ks] eqn:Hks; [done|].
    eexists; split_and!; [done | | done].
    unfold set_cur_field at 1. cbn [current_field].
    rewrite (prev_field_loop_spec _ first _ i Hnd Hi).
    destruct i as [|i]; [by injection Hi as -> | done].
Qed.

(** *** [generate_password] *)

Lemma dict_lookup_set (k : string) (v : PyVal) (d : list (string * PyVal)) :
  dict_lookup k (dict_set k v d) = Some v.
Proof.
  induction d as [|[k' v'] d IH]; simpl.
  - by rewrite bool_decide_eq_true_2.
  - case_bool_decide as Hk; simpl.
    + by rewrite bool_decide_eq_true_2.
    + by rewrite bool_decide_eq_false_2.
Qed.

Lemma rsample_length (population : list ascii) (choice : list nat) :
  Forall (fun i => i < List.length population) choice →
  List.length (rsample population choice) = List.length choice.
Proof.
  induction 1 as [|i choice Hi _ IH]; [done|].
  unfold rsample in *. simpl.
  destruct (lookup_lt_is_Some_2 population i Hi) as [c Hc]. rewrite Hc. simpl.
  f_equal. exact IH.
Qed.

Lemma rsample_from (population : list ascii) (choice : list nat) (P : ascii -> Prop) :
  Forall P population → Forall P (rsample population choice).
Proof.
  intros HP. apply Forall_forall. intros c Hc.
  apply list_elem_of_omap in Hc as (i & _ & Hi).
  eapply Forall_forall; [exact HP|]. eapply list_elem_of_lookup_2, Hi.
Qed.

Lemma string_roundtrip_length (l : list ascii) :
  String.length (string_of_list_ascii l) = List.length l.
Proof. induction l; simpl; congruence. Qed.

(** What [generate_password] does keep of C6: for any positions that
    [random.sample] can draw, the Password field receives a string of 8
    characters of the class [a-z0-9A-Z], whatever the cursor, and the
    cursor is where it was. *)
Lemma generate_password_writes (choice : list nat) (a : AddEditState) :
  sample_choice (String.length password_alphabet) passlen choice →
  ∃ pw, dict_lookup "Password" (fields (generate_password choice a)) = Some (VStr pw) ∧
        String.length pw = 8 ∧
        Forall (fun c => alnum c = true) (list_ascii_of_string pw) ∧
        current_field (generate_password choice a) = current_field a.
Proof.
  intros (Hlen & _ & Hlt). eexists. split_and!.
  - unfold generate_password; simpl. apply dict_lookup_set.
  - rewrite string_roundtrip_length, rsample_length; [done | exact Hlt].
  - rewrite list_ascii_of_string_of_list_ascii. apply rsample_from.
    unfold password_alphabet; cbn [list_ascii_of_string].
    repeat (constructor; [reflexivity|]). constructor.
  - done.
Qed.

(** *** Assignments to an [EntryString] *)

Lemma is_node_lookup (h : list Obj) (p : objid) :
  is_node h p ↔ ∃ o, h !! p = Some o ∧ (∀ d, o ≠ OString d).
Proof.
  unfold is_node, is_KeeEntry, is_KeeGroup. split.
  - destruct (h !! p) as [[g|e|d]|] eqn:Hp; simpl; try done; eauto.
  - intros (o & -> & Ho). destruct o; try done. by destruct (Ho d).
Qed.

Lemma set_name_node (fuel : nat) (h : list Obj) (p : objid) (o : Obj) (v : PyVal) :
  h !! p = Some o → (∀ d, o ≠ OString d) →
  set_name (S fuel) (VRef p) v h = Ok (<[p := named v o]> h).
Proof.
  intros Hp Ho. simpl. rewrite Hp. destruct o; try done. by destruct (Ho d).
Qed.

Lemma set_name_limit (h : list Obj) (p : objid) (o : Obj) (v : PyVal) :
  h !! p = Some o → (∀ d, o ≠ OString d) →
  set_name recursion_limit (VRef p) v h = Ok (<[p := named v o]> h).
Proof. exact (set_name_node 999 h p o v). Qed.

#[local] Opaque recursion_limit.

Lemma get_name_named (h : list Obj) (p : objid) (o : Obj) (v : PyVal) :
  h !! p = Some (named v o) → (∀ d, o ≠ OString d) → get_name h (VRef p) = Ok v.
Proof.
  intros Hp Ho. simpl. rewrite Hp. destruct o; try done. by destruct (Ho d).
Qed.

(** The store after an assignment to an attribute of a "Title" whose
    parent [p] is a group or an entry. *)
Lemma EntryString_setattr_title (h : list Obj) (s p : objid) (d : gmap string PyVal)
    (o : Obj) (name : string) (value : PyVal) :
  h !! s = Some (OString d) →
  is_title d = true →
  d !! "_parent" = Some (VRef p) →
  h !! p = Some o → (∀ d, o ≠ OString d) →
  EntryString_setattr s name value h =
  Ok (<[s := OString (<[name := value]> d)]> (<[p := named value o]> h)).
Proof.
  intros Hs Ht Hpar Hp Ho. unfold EntryString_setattr.
  rewrite Hs, Ht. unfold dict_get. rewrite Hpar.
  rewrite bind_Ok_l, (set_name_limit h p o value Hp Ho), bind_Ok_l.
  unfold store_attr. rewrite list_lookup_insert_ne; [by rewrite Hs|].
  intros ->. rewrite Hs in Hp. injection Hp as <-. by destruct (Ho d).
Qed.

Lemma EntryString_setattr_plain (h : list Obj) (s : objid) (d : gmap string PyVal)
    (name : string) (value : PyVal) :
  h !! s = Some (OString d) →
  is_title d = false →
  EntryString_setattr s name value h = Ok (<[s := OString (<[name := value]> d)]> h).
Proof.
  intros Hs Ht. unfold EntryString_setattr. rewrite Hs, Ht. simpl.
  unfold store_attr. by rewrite Hs.
Qed.

(** C10: on an [EntryString] whose key is "Title" and whose parent is a
    group or an entry, the assignment of any attribute, whatever its
    name, stores the value and also overwrites the parent's [name] with
    it.  In particular [next_page] on such a string, which assigns
    [page], names the parent with that page number. *)
Theorem title_string_assignment_renames_parent (h : list Obj) (s p : objid)
    (d : gmap string PyVal) :
  h !! s = Some (OString d) →
  d !! "key" = Some (VStr "Title") →
  d !! "_parent" = Some (VRef p) →
  is_node h p →
  (∀ (name : string) (value : PyVal),
     ∃ h', EntryString_setattr s name value h = Ok h' ∧
           get_name h' (VRef p) = Ok value ∧
           get_string_attr h' s name = Ok value) ∧
  (∀ pg sz : Z, d !! "page" = Some (VInt pg) → d !! "size" = Some (VInt sz) →
     ∃ h', BaseKeePass_next_page s h = Ok h' ∧
           get_name h' (VRef p) =
             Ok (VInt (next_page_value NUMBER_OF_ENTRIES_ON_PAGE pg sz))).
Proof.
  intros Hs Hk Hpar Hnode.
  apply is_node_lookup in Hnode as (o & Hp & Ho).
  assert (Ht : is_title d = true) by (unfold is_title; by rewrite Hk).
  assert (Hne : p ≠ s).
  { intros ->. rewrite Hs in Hp. injection Hp as <-. by destruct (Ho d). }
  assert (Hset : ∀ name value,
    ∃ h', EntryString_setattr s name value h = Ok h' ∧
          get_name h' (VRef p) = Ok value ∧
          get_string_attr h' s name = Ok value).
  { intros name value. eexists. split; [by eapply EntryString_setattr_title|]. split.
    - eapply get_name_named; [|exact Ho].
      rewrite list_lookup_insert_ne by done.
      apply list_lookup_insert_eq. by eapply lookup_lt_Some.
    - unfold get_string_attr. rewrite list_lookup_insert_eq.
      + unfold dict_get. by rewrite lookup_insert_eq.
      + rewrite length_insert. by eapply lookup_lt_Some. }
  split; [exact Hset|].
  intros pg sz Hpg Hsz.
  destruct (Hset "page" (VInt (next_page_value NUMBER_OF_ENTRIES_ON_PAGE pg sz)))
    as (h' & Hh' & Hn & _).
  exists h'. split; [|done].
  unfold BaseKeePass_next_page. rewrite Hs. unfold int_attr, dict_get.
  by rewrite Hpg, Hsz.
Qed.

(** *** [update_item] and [append] on a "Title" *)

Lemma keeps_shape_string_ok (h h1 : list Obj) (s : objid) :
  keeps_shape h h1 → string_ok h s → string_ok h1 s.
Proof.
  intros (Hn & Hs & _) (d & Hd & Hk & Ht).
  destruct (Hs s d Hd) as (d' & Hd' & Hk' & Hp').
  exists d'. split_and!; [done | by rewrite Hk' |].
  unfold is_title. rewrite Hk'. intros Htitle.
  destruct (Ht Htitle) as (p & Hp & Hnode).
  exists p. rewrite Hp'. eauto.
Qed.

(** One intercepted assignment of [value]: the shape of the store is
    kept, the parent of a "Title" is renamed, and every other group or
    entry keeps its name. *)
Lemma setattr_value_step (h : list Obj) (item : objid) (d : gmap string PyVal)
    (v : PyVal) :
  h !! item = Some (OString d) →
  (is_title d = true → ∃ p, d !! "_parent" = Some (VRef p) ∧ is_node h p) →
  ∃ h1, EntryString_setattr item "value" v h = Ok h1 ∧
        keeps_shape h h1 ∧
        (∀ p, is_title d = true → d !! "_parent" = Some (VRef p) →
              get_name h1 (VRef p) = Ok v) ∧
        (∀ e, is_node h e → get_name h (VRef e) = Ok v → get_name h1 (VRef e) = Ok v).
Proof.
  intros Hitem Hpar.
  assert (Hlen : item < List.length h) by by eapply lookup_lt_Some.
  destruct (is_title d) eqn:Ht.
  - destruct (Hpar eq_refl) as (p & Hp & Hnode).
    apply is_node_lookup in Hnode as (o & Ho & Hno).
    assert (Hne : p ≠ item).
    { intros ->. rewrite Hitem in Ho. injection Ho as <-. by destruct (Hno d). }
    assert (Hplen : p < List.length h) by by eapply lookup_lt_Some.
    eexists. split; [by eapply EntryString_setattr_title|]. split_and!.
    + split_and!.
      * intros q Hq. apply is_node_lookup in Hq as (oq & Hoq & Hnq).
        apply is_node_lookup.
        destruct (decide (q = item)) as [->|Hqi].
        { rewrite Hitem in Hoq. injection Hoq as <-. by destruct (Hnq d). }
        rewrite list_lookup_insert_ne by done.
        destruct (decide (q = p)) as [->|Hqp].
        { rewrite list_lookup_insert_eq by done. eexists; split; [done|].
          rewrite Ho in Hoq. injection Hoq as <-. by destruct o. }
        rewrite list_lookup_insert_ne by done. eauto.
      * intros s d0 Hs0.
        destruct (decide (s = item)) as [->|Hsi].
        { rewrite list_lookup_insert_eq by by rewrite length_insert.
          rewrite Hitem in Hs0. injection Hs0 as <-.
          eexists; split_and!; [done | |]; by rewrite lookup_insert_ne. }
        rewrite list_lookup_insert_ne by done.
        rewrite list_lookup_insert_ne; [eauto|].
        intros ->. rewrite Ho in Hs0. injection Hs0 as ->. by destruct (Hno d0).
      * intros e ent He.
        assert (e ≠ item) by (intros ->; by rewrite Hitem in He).
        rewrite list_lookup_insert_ne by done.
        destruct (decide (e = p)) as [->|Hep].
        { rewrite list_lookup_insert_eq by done.
          rewrite Ho in He. injection He as ->. simpl. eauto. }
        rewrite list_lookup_insert_ne by done. eauto.
    + intros p' _ Hp'. rewrite Hp in Hp'. injection Hp' as <-.
      eapply get_name_named; [|exact Hno].
      rewrite list_lookup_insert_ne by done. by apply list_lookup_insert_eq.
    + intros e He Hname. apply is_node_lookup in He as (oe & Hoe & Hne').
      assert (e ≠ item).
      { intros ->. rewrite Hitem in Hoe. injection Hoe as <-. by destruct (Hne' d). }
      destruct (decide (e = p)) as [->|Hep].
      * eapply get_name_named; [|exact Hno].
        rewrite list_lookup_insert_ne by done. by apply list_lookup_insert_eq.
      * simpl in *. by rewrite !list_lookup_insert_ne by done.
  - eexists. split; [by eapply EntryString_setattr_plain|]. split_and!.
    + split_and!.
      * intros q Hq. apply is_node_lookup in Hq as (oq & Hoq & Hnq).
        apply is_node_lookup. rewrite list_lookup_insert_ne; [eauto|].
        intros ->. rewrite Hitem in Hoq. injection Hoq as <-. by destruct (Hnq d).
      * intros s d0 Hs0.
        destruct (decide (s = item)) as [->|Hsi].
        { rewrite list_lookup_insert_eq by done.
          rewrite Hitem in Hs0. injection Hs0 as <-.
          eexists; split_and!; [done | |]; by rewrite lookup_insert_ne. }
        rewrite list_lookup_insert_ne by done. eauto.
      * intros e ent He.
        rewrite list_lookup_insert_ne; [eauto|]. intros ->. by rewrite Hitem in He.
    + done.
    + intros e He Hname. apply is_node_lookup in He as (oe & Hoe & Hne').
      simpl in *. rewrite list_lookup_insert_ne; [done|].
      intros ->. rewrite Hitem in Hoe. injection Hoe as <-. by destruct (Hne' d).
Qed.

(** The loop of [update_item] for the key "Title": it ends normally on
    well-formed strings, and the entry [e] carries the name [v] at the
    end if it did at the start or if one of the items is a "Title" of
    [e]. *)
Lemma update_item_loop_title (items : list objid) (e : objid) (v : PyVal) :
  ∀ h : list Obj,
  Forall (string_ok h) items → is_node h e →
  ∃ h', update_item_loop items (VStr "Title") v h = Ok h' ∧
        ((get_name h (VRef e) = Ok v ∨
          ∃ s d, s ∈ items ∧ h !! s = Some (OString d) ∧
                 d !! "key" = Some (VStr "Title") ∧ d !! "_parent" = Some (VRef e)) →
         get_name h' (VRef e) = Ok v).
Proof.
  induction items as [|item rest IH]; intros h Hok He.
  - exists h. split; [done|]. intros [Hn|(s & d & Hs & _)]; [done|].
    by apply elem_of_nil in Hs.
  - apply Forall_cons in Hok as [(d & Hd & [k Hk] & Hpar) Hrest].
    simpl. unfold get_string_attr at 1. rewrite Hd. unfold dict_get. rewrite Hk.
    rewrite bind_Ok_l.
    assert (Htk : is_title d = py_eq k (VStr "Title")) by (unfold is_title; by rewrite Hk).
    destruct (py_eq k (VStr "Title")) eqn:Hkt.
    + destruct (setattr_value_step h item d v Hd Hpar) as (h1 & Hset & Hshape & Htitle & Hkeep).
      rewrite Hset, bind_Ok_l.
      destruct (IH h1) as (h' & Hloop & Hname).
      { eapply Forall_impl; [exact Hrest|]. intros s. by apply keeps_shape_string_ok. }
      { by apply Hshape. }
      exists h'. split; [done|]. intros Hcase. apply Hname.
      destruct Hcase as [Hn|(s & d0 & Hs & Hd0 & Hk0 & Hp0)]; [left; by apply Hkeep|].
      apply elem_of_cons in Hs as [->|Hs].
      * left. rewrite Hd in Hd0. injection Hd0 as <-. by apply Htitle.
      * right. destruct Hshape as (_ & Hstr & _).
        destruct (Hstr s d0 Hd0) as (d1 & Hd1 & Hk1 & Hp1).
        exists s, d1. by rewrite Hk1, Hp1.
    + rewrite bind_Ok_l. destruct (IH h Hrest He) as (h' & Hloop & Hname).
      exists h'. split; [done|]. intros Hcase. apply Hname.
      destruct Hcase as [Hn|(s & d0 & Hs & Hd0 & Hk0 & Hp0)]; [by left|].
      apply elem_of_cons in Hs as [->|Hs]; [|right; eauto 10].
      exfalso. rewrite Hd in Hd0. injection Hd0 as <-.
      rewrite Hk in Hk0. injection Hk0 as ->.
      unfold py_eq in Hkt. by rewrite bool_decide_eq_true_2 in Hkt.
Qed.

(** One intercepted assignment of [value], seen from the strings: the
    string assigned to holds the value, every other string is as it
    was; a group or an entry is as it was or, when the string is a
    "Title", renamed. *)
Lemma setattr_value_strings (h : list Obj) (item : objid) (d : gmap string PyVal)
    (v : PyVal) :
  h !! item = Some (OString d) →
  (is_title d = true → ∃ p, d !! "_parent" = Some (VRef p) ∧ is_node h p) →
  ∃ h1, EntryString_setattr item "value" v h = Ok h1 ∧
        h1 !! item = Some (OString (<["value" := v]> d)) ∧
        (∀ s d0, s ≠ item → h !! s = Some (OString d0) → h1 !! s = Some (OString d0)) ∧
        (∀ q o, h !! q = Some o → (∀ d0, o ≠ OString d0) →
                h1 !! q = Some o ∨ (is_title d = true ∧ h1 !! q = Some (named v o))).
Proof.
  intros Hitem Hpar.
  assert (Hlen : item < List.length h) by by eapply lookup_lt_Some.
  destruct (is_title d) eqn:Ht.
  - destruct (Hpar eq_refl) as (p & Hp & Hnode).
    apply is_node_lookup in Hnode as (o & Ho & Hno).
    assert (Hne : p ≠ item).
    { intros ->. rewrite Hitem in Ho. injection Ho as <-. by destruct (Hno d). }
    assert (Hplen : p < List.length h) by by eapply lookup_lt_Some.
    eexists. split; [by eapply EntryString_setattr_title|]. split_and!.
    + apply list_lookup_insert_eq. by rewrite length_insert.
    + intros s d0 Hs Hd0. rewrite list_lookup_insert_ne by done.
      rewrite list_lookup_insert_ne; [done|].
      intros ->. rewrite Ho in Hd0. injection Hd0 as ->. by destruct (Hno d0).
    + intros q oq Hq Hnq.
      assert (q ≠ item).
      { intros ->. rewrite Hitem in Hq. injection Hq as <-. by destruct (Hnq d). }
      rewrite list_lookup_insert_ne by done.
      destruct (decide (q = p)) as [->|Hqp].
      * right. split; [done|]. rewrite list_lookup_insert_eq by done.
        rewrite Ho in Hq. by injection Hq as ->.
      * left. by rewrite list_lookup_insert_ne.
  - eexists. split; [by eapply EntryString_setattr_plain|]. split_and!.
    + by apply list_lookup_insert_eq.
    + intros s d0 Hs Hd0. by rewrite list_lookup_insert_ne.
    + intros q oq Hq Hnq. left. rewrite list_lookup_insert_ne; [done|].
      intros ->. rewrite Hitem in Hq. injection Hq as <-. by destruct (Hnq d).
Qed.

Lemma named_named (v : PyVal) (o : Obj) : named v (named v o) = named v o.
Proof. by destruct o. Qed.

Lemma named_not_string (v : PyVal) (o : Obj) :
  (∀ d, o ≠ OString d) → ∀ d, named v o ≠ OString d.
Proof. intros Ho d. destruct o; simpl; [done | done | exact (Ho d)]. Qed.

(** The loop of [update_item] on well-formed strings: it ends normally;
    a string holds the value if it is one of the items and carries the
    key, and is as it was otherwise; a group or an entry is as it was
    or, when the key is "Title", renamed. *)
Lemma update_item_loop_spec (key v : PyVal) (items : list objid) :
  ∀ h : list Obj,
  Forall (string_ok h) items →
  ∃ h', update_item_loop items key v h = Ok h' ∧
        keeps_shape h h' ∧
        (∀ s d, h !! s = Some (OString d) →
           h' !! s = Some (OString (if bool_decide (s ∈ items ∧ d !! "key" = Some key)
                                    then <["value" := v]> d else d))) ∧
        (∀ q o, h !! q = Some o → (∀ d0, o ≠ OString d0) →
           h' !! q = Some o ∨ (key = VStr "Title" ∧ h' !! q = Some (named v o))).
Proof.
  induction items as [|item rest IH]; intros h Hok.
  - exists h. split_and!; [done | | | by left].
    + split_and!; eauto.
    + intros s d Hs. rewrite bool_decide_eq_false_2; [done|].
      intros [Hin _]. by apply elem_of_nil in Hin.
  - apply Forall_cons in Hok as [Hitem Hrest].
    pose proof Hitem as (d & Hd & [k Hk] & Hpar).
    cbn [update_item_loop]. unfold get_string_attr at 1. rewrite Hd. unfold dict_get.
    rewrite Hk, bind_Ok_l. unfold py_eq. case_bool_decide as Hkk.
    + destruct (setattr_value_step h item d v Hd Hpar) as (h1 & Hset & Hshape & _).
      destruct (setattr_value_strings h item d v Hd Hpar)
        as (h1' & Hset' & Hself & Hothers & Hnodes).
      rewrite Hset in Hset'. injection Hset' as <-.
      rewrite Hset, bind_Ok_l.
      destruct (IH h1) as (h' & Hloop & Hshape' & Hstr & Hnd).
      { eapply Forall_impl; [exact Hrest|]. intros s. by apply keeps_shape_string_ok. }
      exists h'. split_and!; [done | | |].
      * destruct Hshape as (A1 & A2 & A3), Hshape' as (B1 & B2 & B3). split_and!.
        -- eauto.
        -- intros s d0 Hs. destruct (A2 s d0 Hs) as (d1 & Hd1 & Hk1 & Hp1).
           destruct (B2 s d1 Hd1) as (d2 & Hd2 & Hk2 & Hp2).
           exists d2. split_and!; [done | congruence | congruence].
        -- intros q ent Hq. destruct (A3 q ent Hq) as (ent1 & Hq1 & Hi1).
           destruct (B3 q ent1 Hq1) as (ent2 & Hq2 & Hi2).
           exists ent2. split; [done | congruence].
      * intros s d0 Hs.
        destruct (decide (s = item)) as [->|Hne].
        -- rewrite Hd in Hs. injection Hs as <-.
           rewrite (Hstr item _ Hself).
           rewrite (bool_decide_eq_true_2 (item ∈ item :: rest ∧ _))
             by (split; [by left | by rewrite Hk, Hkk]).
           case_bool_decide; [by rewrite insert_insert_eq | done].
        -- rewrite (Hstr s d0 (Hothers s d0 Hne Hs)).
           assert (Hiff : (s ∈ rest ∧ d0 !! "key" = Some key) ↔
                          (s ∈ item :: rest ∧ d0 !! "key" = Some key))
             by (rewrite elem_of_cons; split;
                 [intros [? ?]; split; [by right | done]
                 |intros [[Heq|?] ?]; [by destruct Hne | done]]).
           by rewrite (bool_decide_ext _ _ Hiff).
      * intros q o Hq Hnq.
        assert (Htitle : is_title d = true → key = VStr "Title").
        { unfold is_title. rewrite Hk. unfold py_eq. intros Ht.
          apply bool_decide_eq_true_1 in Ht. congruence. }
        destruct (Hnodes q o Hq Hnq) as [Hq1|[Ht Hq1]].
        -- apply (Hnd q o Hq1 Hnq).
        -- destruct (Hnd q _ Hq1 (named_not_string v o Hnq)) as [Hq2|[Hkt Hq2]].
           ++ right. eauto.
           ++ right. split; [done|]. by rewrite named_named in Hq2.
    + rewrite bind_Ok_l.
      destruct (IH h Hrest) as (h' & Hloop & Hshape' & Hstr & Hnd).
      exists h'. split_and!; [done | done | | done].
      intros s d0 Hs. rewrite (Hstr s d0 Hs).
      assert (Hiff : (s ∈ rest ∧ d0 !! "key" = Some key) ↔
                     (s ∈ item :: rest ∧ d0 !! "key" = Some key)).
      { rewrite elem_of_cons. split; [intros [? ?]; split; [by right | done]|].
        intros [[->|Hin] Hkey]; [|done].
        rewrite Hd in Hs. injection Hs as <-. rewrite Hk in Hkey. congruence. }
      by rewrite (bool_decide_ext _ _ Hiff).
Qed.

(** C9: an entry [e] whose strings are well formed and which owns a
    "Title" whose parent is [e] is named [v] after
    [update_item("Title", v)]: that string then holds the value [v],
    its other attributes as they were, and the entry is as it was but
    for its name.  And appending a "Title" string of value [v] to an
    entry names it [v]: the string, unchanged, is then the last of the
    items of the entry, whose size has grown by one.  [v] is any value,
    the empty string included. *)
Theorem title_value_names_entry (h : list Obj) (e : objid) (ent : KeeEntry)
    (v : PyVal) :
  h !! e = Some (OEntry ent) →
  Forall (string_ok h) (e_items ent) →
  (∀ s d, s ∈ e_items ent → h !! s = Some (OString d) →
          d !! "key" = Some (VStr "Title") → d !! "_parent" = Some (VRef e) →
     ∃ h', update_item e (VStr "Title") v h = Ok h' ∧ get_name h' (VRef e) = Ok v ∧
           h' !! s = Some (OString (<["value" := v]> d)) ∧
           h' !! e = Some (OEntry (e_with_name v ent))) ∧
  (∀ s d, h !! s = Some (OString d) →
          d !! "key" = Some (VStr "Title") → d !! "value" = Some v →
     ∃ h', KeeEntry_append e (VRef s) h = Ok h' ∧ get_name h' (VRef e) = Ok v ∧
           h' !! s = Some (OString d) ∧
           ∃ ent', h' !! e = Some (OEntry ent') ∧
                   e_items ent' = (e_items ent ++ [s])%list ∧
                   e_name ent' = v ∧
                   size (e_base ent') = (size (e_base ent) + 1)%Z).
Proof.
  intros He Hok. split.
  - intros s d Hs Hd Hk Hp.
    destruct (update_item_loop_title (e_items ent) e v h Hok) as (h' & Hloop & Hname).
    { apply is_node_lookup. eexists; split; [exact He|done]. }
    destruct (update_item_loop_spec (VStr "Title") v (e_items ent) h Hok)
      as (h'' & Hloop' & _ & Hstr & Hnd).
    rewrite Hloop in Hloop'. injection Hloop' as <-.
    assert (Hnamed : get_name h' (VRef e) = Ok v) by (apply Hname; right; eauto 10).
    exists h'. split_and!.
    + unfold update_item. by rewrite He.
    + exact Hnamed.
    + rewrite (Hstr s d Hd). by rewrite bool_decide_eq_true_2.
    + destruct (Hnd e (OEntry ent) He) as [He'|[_ He']]; [done | | exact He'].
      rewrite He'. cbn [get_name] in Hnamed. rewrite He' in Hnamed.
      injection Hnamed as <-. by destruct ent.
  - intros s d Hd Hk Hv. unfold KeeEntry_append. rewrite He.
    unfold is_EntryString. rewrite Hd. simpl.
    unfold get_string_attr. rewrite Hd. unfold dict_get. rewrite Hk, Hv. simpl.
    assert (Hlen : e < List.length h) by by eapply lookup_lt_Some.
    assert (Hne : e ≠ s) by (intros ->; rewrite He in Hd; discriminate).
    eexists. split_and!; [done | | |].
    + simpl. by rewrite list_lookup_insert_eq.
    + by rewrite list_lookup_insert_ne.
    + eexists. split; [by apply list_lookup_insert_eq|]. done.
Qed.

(** *** The search overlay *)

Lemma name_matches_in_heap (word : string) (h : list Obj) (i : objid) (b : bool) :
  name_matches word h (VRef i) = Ok b → i < List.length h.
Proof.
  unfold name_matches, get_name. intros H.
  destruct (h !! i) eqn:Hi; [by eapply lookup_lt_Some | done].
Qed.

(** Every match is an object of the tree under the starting group. *)
Lemma inner_find_reachable (fuel : nat) (word : string) (h : list Obj) :
  ∀ (p : objid) (l : list objid),
  inner_find fuel word h p = Ok l →
  ∀ i, i ∈ l → reachable h p i ∧ i < List.length h.
Proof.
  induction fuel as [|fuel IH]; intros p l Hfind; [done|].
  simpl in Hfind.
  apply bind_Ok in Hfind as (m & Hm & Hfind).
  apply bind_Ok in Hfind as (items & Hitems & Hfind).
  apply bind_Ok in Hfind as (found & Hloop & Hfind).
  injection Hfind as <-.
  assert (Hfound : ∀ i, i ∈ found → reachable h p i ∧ i < List.length h).
  { clear Hm.
    assert (Hsub : ∀ j, j ∈ items → j ∈ items) by done.
    revert found Hloop Hsub. generalize items at 1 2 as todo.
    induction todo as [|item rest IHl]; intros found Hloop Hsub i Hi.
    - injection Hloop as <-. by apply elem_of_nil in Hi.
    - apply bind_Ok in Hloop as (t & Ht & Hloop).
      apply bind_Ok in Hloop as (sub & Hsubcall & Hloop).
      apply bind_Ok in Hloop as (mi & Hmi & Hloop).
      apply bind_Ok in Hloop as (more & Hmore & Hloop).
      injection Hloop as <-.
      assert (Hitem : reachable h p item).
      { eapply reach_item; [apply reach_root | exact Hitems |]. apply Hsub. by left. }
      apply elem_of_app in Hi as [Hi|Hi]; [|apply elem_of_app in Hi as [Hi|Hi]].
      + destruct (py_eq t (VEnum GROUP)).
        * destruct (IH item sub Hsubcall i Hi) as [Hr Hlt]. split; [|done].
          clear -Hr Hitem. induction Hr; [done | by eapply reach_item].
        * injection Hsubcall as <-. by apply elem_of_nil in Hi.
      + destruct mi; [|by apply elem_of_nil in Hi].
        apply list_elem_of_singleton in Hi as ->. split; [done|].
        by eapply name_matches_in_heap.
      + eapply IHl; [exact Hmore| |exact Hi]. intros j Hj. apply Hsub. by right. }
  intros i Hi. apply elem_of_app in Hi as [Hi|Hi]; [|by apply Hfound].
  destruct m; [|by apply elem_of_nil in Hi].
  apply list_elem_of_singleton in Hi as ->. split; [apply reach_root|].
  by eapply name_matches_in_heap.
Qed.

Lemma appendable_agree (h h1 : list Obj) (s : objid) :
  h1 !! s = h !! s → appendable h s → appendable h1 s.
Proof. intros Heq (d & Hd & Hrest). exists d. by rewrite Heq. Qed.

Lemma KeeEntry_append_ok (h : list Obj) (t : objid) (e : KeeEntry) (s : objid) :
  h !! t = Some (OEntry e) → appendable h s →
  ∃ e', KeeEntry_append t (VRef s) h = Ok (<[t := OEntry e']> h) ∧
        e_items e' = (e_items e ++ [s])%list ∧
        _parent (e_base e') = _parent (e_base e).
Proof.
  intros Ht (d & Hd & [k Hk] & Hv). unfold KeeEntry_append.
  rewrite Ht. unfold is_EntryString. rewrite Hd. simpl.
  unfold get_string_attr. rewrite Hd. unfold dict_get. rewrite Hk, bind_Ok_l.
  destruct (py_eq k (VStr "Title")) eqn:Hkt.
  - destruct Hv as [v Hv]; [unfold is_title; by rewrite Hk|].
    rewrite Hv, bind_Ok_l. eexists; split_and!; done.
  - eexists; split_and!; done.
Qed.

Lemma append_all_ok (strings : list objid) :
  ∀ (h : list Obj) (t : objid) (e : KeeEntry),
  h !! t = Some (OEntry e) → Forall (appendable h) strings →
  ∃ e', append_all t strings h = Ok (<[t := OEntry e']> h) ∧
        e_items e' = (e_items e ++ strings)%list ∧
        _parent (e_base e') = _parent (e_base e).
Proof.
  induction strings as [|s rest IH]; intros h t e Ht Hok.
  - exists e. simpl. rewrite app_nil_r. by rewrite list_insert_id.
  - apply Forall_cons in Hok as [Hs Hrest]. simpl.
    destruct (KeeEntry_append_ok h t e s Ht Hs) as (e1 & -> & Hitems1 & Hpar1).
    rewrite bind_Ok_l.
    assert (Hlt : t < List.length h) by by eapply lookup_lt_Some.
    destruct (IH (<[t := OEntry e1]> h) t e1) as (e2 & Hall & Hitems2 & Hpar2).
    { by apply list_lookup_insert_eq. }
    { eapply Forall_impl; [exact Hrest|]. intros s' Hs'.
      eapply appendable_agree; [|exact Hs'].
      apply list_lookup_insert_ne. intros <-.
      destruct Hs' as (d & Hd & _). by rewrite Ht in Hd. }
    exists e2. rewrite Hall, list_insert_insert_eq. split_and!; [done| |congruence].
    by rewrite Hitems2, Hitems1, <- app_assoc.
Qed.

Lemma KeeEntry_init_fresh (parent : PyVal) (a : AutoType) (icon_id : Z) (st : KeePass) :
  KeeEntry_init parent a icon_id "" st =
  (List.length (heap st),
   with_uuid_drawn (S (uuid_drawn st))
     (with_heap (heap st ++ [OEntry (mkEntry (mkBase parent 1 0) (uuid4 (uuid_drawn st))
                                      icon_id [] (VStr "") a)])%list st)).
Proof. done. Qed.

Lemma KeeGroup_init_fresh (parent name notes : PyVal) (icon_id : Z) (st : KeePass) :
  KeeGroup_init parent name notes icon_id "" st =
  (List.length (heap st),
   with_uuid_drawn (S (uuid_drawn st))
     (with_heap (heap st ++
        [OGroup (mkGroup (mkBase (if py_eq parent VNone then VRef (List.length (heap st))
                                  else parent) 1 0)
                   (uuid4 (uuid_drawn st)) name notes icon_id [])])%list st)).
Proof. done. Qed.

Lemma KeeGroup_append_entry (h : list Obj) (sg : objid) (g : KeeGroup) (t : objid)
    (e : KeeEntry) :
  h !! sg = Some (OGroup g) → h !! t = Some (OEntry e) →
  KeeGroup_append sg (VRef t) h =
  Ok (<[sg := OGroup (g_with_base (mkBase (_parent (g_base g)) (page (g_base g))
                                     (size (g_base g) + 1))
                        (g_with_items (g_items g ++ [t])%list g))]> h).
Proof.
  intros Hsg Ht. unfold KeeGroup_append. rewrite Hsg.
  unfold is_KeeEntry. by rewrite Ht.
Qed.

(** The loop of [search], started with the overlay group [sg] in place:
    it appends to the overlay one new entry per matched entry, in order,
    each listing the very items of the entry it stands for, and changes
    no other object. *)
Lemma search_loop_spec (h0 : list Obj) (sg : objid) (finded : list objid) :
  ∀ (st : KeePass) (g : KeeGroup),
  (List.length h0 ≤ sg)%nat →
  (∀ i, i < List.length h0 → heap st !! i = h0 !! i) →
  search_group st = VRef sg →
  heap st !! sg = Some (OGroup g) →
  Forall (fun item => item < List.length h0) finded →
  (∀ item e, item ∈ finded → h0 !! item = Some (OEntry e) →
             Forall (appendable h0) (e_items e)) →
  ∃ st' g' news,
    search_loop finded st = Ok st' ∧
    search_group st' = VRef sg ∧
    active_item st' = active_item st ∧
    root_group st' = root_group st ∧
    (∀ i, i ≠ sg → i < List.length (heap st) → heap st' !! i = heap st !! i) ∧
    heap st' !! sg = Some (OGroup g') ∧
    g_items g' = (g_items g ++ news)%list ∧
    g_name g' = g_name g ∧
    Forall2 (fun item new =>
               (List.length (heap st) ≤ new)%nat ∧
               ∃ e e', h0 !! item = Some (OEntry e) ∧
                       heap st' !! new = Some (OEntry e') ∧
                       e_items e' = e_items e ∧
                       _parent (e_base e') = VRef sg)
            (matched_entries h0 finded) news.
Proof.
  induction finded as [|item rest IH]; intros st g Hsg Hagree Hsearch Hg Hlt Hwf.
  - exists st, g, []. rewrite app_nil_r. split_and!; done.
  - apply Forall_cons in Hlt as [Hitem Hrest].
    assert (Hsglt : sg < List.length (heap st)) by by eapply lookup_lt_Some.
    assert (Hk : is_KeeEntry (heap st) (VRef item) = is_KeeEntry h0 (VRef item)).
    { unfold is_KeeEntry. by rewrite Hagree. }
    cbn [search_loop]. rewrite Hk.
    destruct (is_KeeEntry h0 (VRef item)) eqn:Hentry.
    + assert (He : ∃ e, h0 !! item = Some (OEntry e)).
      { unfold is_KeeEntry in Hentry. destruct (h0 !! item) as [[]|]; try done. eauto. }
      destruct He as [e He].
      rewrite KeeEntry_init_fresh, Hsearch. cbv beta iota zeta.
      set (temp := List.length (heap st)).
      set (e0 := mkEntry _ _ _ _ _ _).
      set (h1 := (heap st ++ [OEntry e0])%list).
      cbn [heap with_uuid_drawn with_heap search_group].
      assert (Hold : ∀ i, i < temp → h1 !! i = heap st !! i).
      { intros i Hi. by apply lookup_app_l. }
      assert (Htemp : h1 !! temp = Some (OEntry e0)).
      { unfold h1, temp. by rewrite list_lookup_middle. }
      assert (Hitems : get_items h1 (VRef item) = Ok (e_items e)).
      { simpl. rewrite Hold, Hagree, He; [done | done | lia]. }
      rewrite Hitems, bind_Ok_l.
      destruct (append_all_ok (e_items e) h1 temp e0 Htemp) as (e' & Happ & Hitems' & Hpar').
      { eapply Forall_impl; [by eapply Hwf; [left|]|]. intros s Hs.
        eapply appendable_agree; [|exact Hs].
        assert (s < List.length h0).
        { destruct Hs as (d & Hd & _). by eapply lookup_lt_Some. }
        rewrite Hold, Hagree; [done | done | lia]. }
      rewrite Happ, bind_Ok_l.
      set (h2 := <[temp := OEntry e']> h1).
      assert (Hg2 : h2 !! sg = Some (OGroup g)).
      { unfold h2. rewrite list_lookup_insert_ne by (unfold temp; lia).
        by rewrite Hold. }
      assert (Ht2 : h2 !! temp = Some (OEntry e')).
      { unfold h2. apply list_lookup_insert_eq. by eapply lookup_lt_Some. }
      rewrite Hsearch, (KeeGroup_append_entry h2 sg g temp e' Hg2 Ht2), bind_Ok_l.
      set (g1 := g_with_base _ _).
      set (h3 := <[sg := OGroup g1]> h2).
      assert (Hlen3 : List.length h3 = S temp).
      { unfold h3, h2, h1. rewrite !length_insert, length_app. simpl. unfold temp. lia. }
      assert (Hold3 : ∀ i, i ≠ sg → i < temp → h3 !! i = heap st !! i).
      { intros i Hne Hi. unfold h3, h2.
        rewrite !list_lookup_insert_ne by lia. by apply Hold. }
      destruct (IH (with_heap h3 (with_uuid_drawn (S (uuid_drawn st))
                      (with_heap h1 st))) g1)
        as (st' & g' & news & Hloop & Hsg' & Hact' & Hroot' & Hsame & Hg' & Hitems2 & Hname & Hall);
        try done.
      { intros i Hi. cbn [heap with_heap]. rewrite Hold3 by lia. by apply Hagree. }
      { cbn [heap with_heap]. unfold h3. apply list_lookup_insert_eq.
        unfold h2. rewrite length_insert. unfold h1. rewrite length_app. lia. }
      { intros it' e1 Hin. apply Hwf. by right. }
      cbn [heap with_heap] in *.
      exists st', g', (temp :: news). split_and!; try done.
      * intros i Hne Hi. rewrite Hsame by (rewrite ?Hlen3; lia). by apply Hold3.
      * rewrite Hitems2. unfold g1; simpl. by rewrite <- app_assoc.
      * unfold matched_entries. rewrite filter_cons_True by done.
        constructor.
        -- split; [done|]. exists e, e'.
           split_and!; [done | | by rewrite Hitems' | by rewrite Hpar'].
           rewrite Hsame by (rewrite ?Hlen3; unfold temp; lia).
           unfold h3. rewrite list_lookup_insert_ne by (unfold temp; lia). done.
        -- eapply Forall2_impl; [exact Hall|]. intros it' new (Hnew & Hrel).
           split; [rewrite Hlen3 in Hnew; unfold temp in *; lia | done].
    + destruct (IH st g) as (st' & g' & news & Hloop & Hrest');
        try done.
      { intros it' e1 Hin. apply Hwf. by right. }
      exists st', g', news. split; [done|].
      unfold matched_entries. rewrite filter_cons_False; [done|].
      by rewrite Hentry.
Qed.

Lemma reachable_agree (h h' : list Obj) (r x : objid) :
  (∀ i, i < List.length h → h' !! i = h !! i) →
  reachable h r x → reachable h' r x.
Proof.
  intros Hagree. induction 1 as [|i j l _ IH Hitems Hj]; [apply reach_root|].
  eapply reach_item; [exact IH | | exact Hj].
  simpl in *. destruct (h !! i) eqn:Hi; [|done].
  rewrite Hagree, Hi; [done|]. by eapply lookup_lt_Some.
Qed.

Lemma well_nested_unfold (n : nat) (h : list Obj) (i : objid) :
  well_nested n h i =
  match h !! i with
  | Some (OEntry e) => ∃ s, e_name e = VStr s
  | Some (OGroup g) =>
    (∃ s, g_name g = VStr s) ∧
    match n with
    | O => False
    | S n' => Forall (well_nested n' h) (g_items g)
    end
  | _ => False
  end.
Proof. by destruct n. Qed.

Lemma well_nested_mono (n : nat) (h : list Obj) :
  ∀ m i, (n ≤ m)%nat → well_nested n h i → well_nested m h i.
Proof.
  induction n as [|n IH]; intros m i Hle; rewrite !well_nested_unfold;
    destruct (h !! i) as [[g|e|d]|]; try done.
  - by intros [_ []].
  - intros [Hname Hitems]. split; [done|].
    destruct m as [|m]; [lia|].
    eapply Forall_impl; [exact Hitems|]. intros j. apply IH. lia.
Qed.

Lemma name_matches_named (word : string) (h : list Obj) (i : objid) (s : string) :
  get_name h (VRef i) = Ok (VStr s) →
  name_matches word h (VRef i) = Ok (contains (lower word) (lower s)).
Proof. intros H. unfold name_matches. by rewrite H. Qed.

(** On a well nested tree [__inner_find] returns. *)
Lemma inner_find_returns (n : nat) (word : string) (h : list Obj) :
  ∀ p g, h !! p = Some (OGroup g) → well_nested n h p →
  ∃ l, inner_find n word h p = Ok l.
Proof.
  induction n as [|n IH]; intros p g Hp; rewrite well_nested_unfold, Hp.
  - by intros [_ []].
  - intros [[s Hs] Hitems]. cbn [inner_find].
    rewrite (name_matches_named word h p s) by (cbn [get_name]; by rewrite Hp, Hs).
    assert (Hget : get_items h (VRef p) = Ok (g_items g)) by (cbn [get_items]; by rewrite Hp).
    rewrite Hget, !bind_Ok_l.
    assert (Hloop : ∀ items, Forall (well_nested n h) items → ∃ found,
      (fix loop (l : list objid) : Res (list objid) :=
         match l with
         | [] => Ok []
         | item :: rest =>
           t ← get_type h (VRef item);
           sub ← (if py_eq t (VEnum GROUP) then inner_find n word h item else Ok []);
           mi ← name_matches word h (VRef item);
           more ← loop rest;
           Ok (sub ++ (if mi : bool then [item] else []) ++ more)%list
         end) items = Ok found).
    { clear Hitems Hget. intros items Hitems.
      induction Hitems as [|item rest Hitem _ [more Hmore]]; [by eexists|].
      pose proof Hitem as Hitem'.
      rewrite well_nested_unfold in Hitem.
      destruct (h !! item) as [[gi|ei|di]|] eqn:Hi; try done.
      - destruct Hitem as [[si Hsi] _].
        destruct (IH item gi Hi Hitem') as [sub Hsub].
        assert (Ht : get_type h (VRef item) = Ok (VEnum GROUP))
          by (cbn [get_type]; by rewrite Hi).
        rewrite Ht, bind_Ok_l.
        change (py_eq (VEnum GROUP) (VEnum GROUP)) with true. cbv iota.
        rewrite Hsub, bind_Ok_l.
        rewrite (name_matches_named word h item si) by (cbn [get_name]; by rewrite Hi, Hsi).
        rewrite bind_Ok_l, Hmore. by eexists.
      - destruct Hitem as [si Hsi].
        assert (Ht : get_type h (VRef item) = Ok (VEnum ENTRY))
          by (cbn [get_type]; by rewrite Hi).
        rewrite Ht, bind_Ok_l.
        change (py_eq (VEnum ENTRY) (VEnum GROUP)) with false. cbv iota.
        rewrite bind_Ok_l.
        rewrite (name_matches_named word h item si) by (cbn [get_name]; by rewrite Hi, Hsi).
        rewrite bind_Ok_l, Hmore. by eexists. }
    destruct (Hloop _ Hitems) as [found ->]. by eexists.
Qed.

Lemma recursion_limit_value : recursion_limit = 1000.
Proof. Transparent recursion_limit. reflexivity. Opaque recursion_limit. Qed.

(** On a searchable session [search_item] returns. *)
Lemma search_item_returns (word : string) (st : KeePass) :
  searchable st → ∃ finded_items, search_item word st = Ok finded_items.
Proof.
  intros (Hopened & (r & n & Hroot & Hgroup & Hnested & Hle) & _).
  unfold search_item. rewrite Hopened, Hroot. cbn [negb].
  unfold is_KeeGroup in Hgroup.
  destruct (heap st !! r) as [[g| |]|] eqn:Hr; try discriminate Hgroup.
  eapply inner_find_returns; [exact Hr|].
  eapply well_nested_mono; [exact Hle | exact Hnested].
Qed.

(** What [search] does, given that [search_item] returned
    [finded_items] and that the strings of the matched entries are well
    formed. *)
Lemma search_spec (word : string) (st : KeePass) (finded_items : list objid) :
  search_item word st = Ok finded_items →
  (∀ item e, item ∈ finded_items → heap st !! item = Some (OEntry e) →
             Forall (appendable (heap st)) (e_items e)) →
  ∃ st' overlay,
    search word st = Ok st' ∧
    search_group st' = VRef (List.length (heap st)) ∧
    active_item st' = VRef (List.length (heap st)) ∧
    root_group st' = root_group st ∧
    (∀ i, i < List.length (heap st) → heap st' !! i = heap st !! i) ∧
    heap st' !! List.length (heap st) = Some (OGroup overlay) ∧
    g_name overlay = VStr "Search" ∧
    Forall2 (fun item new =>
               List.length (heap st) < new ∧
               ∃ e e', heap st !! item = Some (OEntry e) ∧
                       heap st' !! new = Some (OEntry e') ∧
                       e_items e' = e_items e ∧
                       _parent (e_base e') = VRef (List.length (heap st)))
            (matched_entries (heap st) finded_items) (g_items overlay) ∧
    Forall (fun item => item < List.length (heap st) ∧ in_document st item) finded_items.
Proof.
  intros Hfind Hwf.
  assert (Hdoc : Forall (fun item => item < List.length (heap st) ∧ in_document st item)
                   finded_items).
  { unfold search_item in Hfind. destruct (opened st); [|discriminate Hfind].
    cbn [negb] in Hfind.
    destruct (root_group st) as [| | | | | |r] eqn:Hr; try discriminate Hfind.
    apply Forall_forall. intros i Hi.
    destruct (inner_find_reachable _ _ _ _ _ Hfind i Hi) as [Hreach Hlt].
    split; [done|]. exists r. by rewrite Hr. }
  unfold search. rewrite Hfind, bind_Ok_l, KeeGroup_init_fresh. cbv beta iota zeta.
  set (sg := List.length (heap st)).
  set (g0 := mkGroup _ _ _ _ _ _).
  set (st2 := with_search_group _ _).
  destruct (search_loop_spec (heap st) sg finded_items st2 g0)
    as (st3 & g' & news & Hloop & Hsg & Hact & Hroot & Hsame & Hg' & Hitems & Hname & Hall);
    try done.
  - intros i Hi. unfold st2; cbn [heap with_search_group with_uuid_drawn with_heap].
    by apply lookup_app_l.
  - unfold st2; cbn [heap with_search_group with_uuid_drawn with_heap].
    unfold sg. by rewrite list_lookup_middle.
  - eapply Forall_impl; [exact Hdoc|]. by intros i [? _].
  - rewrite Hloop, bind_Ok_l. eexists _, g'. split; [done|].
    unfold activate; cbn [search_group active_item root_group heap with_active_item].
    assert (Hlen2 : List.length (heap st2) = S sg).
    { unfold st2; cbn [heap with_search_group with_uuid_drawn with_heap].
      rewrite length_app. simpl. unfold sg. lia. }
    split_and!; try done.
    + intros i Hi. rewrite Hsame by (rewrite ?Hlen2; unfold sg; lia).
      unfold st2; cbn [heap with_search_group with_uuid_drawn with_heap].
      by apply lookup_app_l.
    + rewrite Hitems. simpl. eapply Forall2_impl; [exact Hall|].
      intros item new (Hnew & Hrel). rewrite Hlen2 in Hnew. split; [unfold sg in *; lia | done].
Qed.

(** C3, amended: on a searchable session [search] returns, for every
    word.  The overlay is a new group named "Search"; it is the search
    group and the active node; its items are, in the order of the match
    list that [search_item] returns, one new entry per matched entry,
    whose item list holds the very same [EntryString] objects as the
    entry it stands for.  The overlay holds nothing else: matched groups
    are not included.  The objects that existed before the search are
    unchanged. *)
Theorem search_builds_overlay (word : string) (st : KeePass) :
  searchable st →
  ∃ finded_items st' overlay,
    search_item word st = Ok finded_items ∧
    search word st = Ok st' ∧
    search_group st' = VRef (List.length (heap st)) ∧
    active_item st' = VRef (List.length (heap st)) ∧
    heap st' !! List.length (heap st) = Some (OGroup overlay) ∧
    g_name overlay = VStr "Search" ∧
    (∀ i, i < List.length (heap st) → heap st' !! i = heap st !! i) ∧
    Forall2 (fun item new =>
               List.length (heap st) < new ∧
               ∃ e e', heap st !! item = Some (OEntry e) ∧
                       heap st' !! new = Some (OEntry e') ∧
                       e_items e' = e_items e)
            (matched_entries (heap st) finded_items) (g_items overlay) ∧
    (∀ item, item ∈ finded_items → item ∉ g_items overlay).
Proof.
  intros Hst. destruct (search_item_returns word st Hst) as [finded_items Hfind].
  destruct (search_spec word st finded_items Hfind)
    as (st' & overlay & Hs & Hsg & Hact & _ & Hsame & Hov & Hname & Hall & Hdoc).
  { intros item e _. apply Hst. }
  exists finded_items, st', overlay. split_and!; try done.
  - eapply Forall2_impl; [exact Hall|].
    intros item new (Hnew & e & e' & He & He' & Hitems & _).
    split; [done|]. by exists e, e'.
  - intros item Hin Hover.
    apply list_elem_of_lookup_1 in Hover as [k Hk].
    destruct (Forall2_lookup_r _ _ _ _ _ Hall Hk) as (it' & _ & Hnew & _).
    apply (proj1 (Forall_forall _ _) Hdoc) in Hin as [Hlt _]. lia.
Qed.

Lemma KeeEntry_append_other (h h1 : list Obj) (t : objid) (item : PyVal) :
  KeeEntry_append t item h = Ok h1 → ∀ i, i ≠ t → h1 !! i = h !! i.
Proof.
  unfold KeeEntry_append. intros H i Hi.
  destruct (h !! t) as [[g|e|d]|]; try discriminate H.
  destruct (negb _); [discriminate H|]. destruct item; try discriminate H.
  apply bind_Ok in H as (k & _ & H).
  destruct (py_eq k _).
  - apply bind_Ok in H as (v & _ & H). injection H as <-.
    by rewrite list_lookup_insert_ne.
  - injection H as <-. by rewrite list_lookup_insert_ne.
Qed.

Lemma append_all_other (strings : list objid) :
  ∀ (h h1 : list Obj) (t : objid),
  append_all t strings h = Ok h1 → ∀ i, i ≠ t → h1 !! i = h !! i.
Proof.
  induction strings as [|s rest IH]; intros h h1 t H i Hi.
  - by injection H as <-.
  - cbn [append_all] in H. apply bind_Ok in H as (h0 & Happ & H).
    rewrite (IH _ _ _ H i Hi). by eapply KeeEntry_append_other.
Qed.

Lemma append_all_entry (strings : list objid) :
  ∀ (h h1 : list Obj) (t : objid) (e : KeeEntry),
  append_all t strings h = Ok h1 → h !! t = Some (OEntry e) →
  List.length h1 = List.length h ∧ ∃ e1, h1 !! t = Some (OEntry e1).
Proof.
  induction strings as [|s rest IH]; intros h h1 t e H Ht.
  - injection H as <-. eauto.
  - cbn [append_all] in H. apply bind_Ok in H as (h0 & Happ & H).
    assert (Hlt : t < List.length h) by by eapply lookup_lt_Some.
    assert (Hh0 : ∃ e0, h0 = <[t := OEntry e0]> h).
    { unfold KeeEntry_append in Happ. rewrite Ht in Happ.
      destruct (negb _); [discriminate Happ|].
      apply bind_Ok in Happ as (k & _ & Happ).
      destruct (py_eq k _).
      - apply bind_Ok in Happ as (v & _ & Happ). injection Happ as <-. by eexists.
      - injection Happ as <-. by eexists. }
    destruct Hh0 as [e0 ->].
    destruct (IH _ _ t e0 H) as [Hlen He1]; [by apply list_lookup_insert_eq|].
    split; [|done]. by rewrite Hlen, length_insert.
Qed.

(** The new objects of the loop of [search]: one entry per turn taken
    on a matched entry, each listed by the overlay group; every other
    object that was there is as it was. *)
Lemma search_loop_news (finded : list objid) :
  ∀ (st st' : KeePass) (sg : objid) (g : KeeGroup),
  search_group st = VRef sg → heap st !! sg = Some (OGroup g) →
  search_loop finded st = Ok st' →
  ∃ g' news,
    heap st' !! sg = Some (OGroup g') ∧
    g_items g' = (g_items g ++ news)%list ∧
    news = seq (List.length (heap st)) (List.length news) ∧
    List.length (heap st') = List.length (heap st) + List.length news ∧
    (∀ i, i ∈ news → ∃ e', heap st' !! i = Some (OEntry e')) ∧
    (∀ i, i ≠ sg → i < List.length (heap st) → heap st' !! i = heap st !! i).
Proof.
  induction finded as [|item rest IH]; intros st st' sg g Hsg Hg Hloop.
  - injection Hloop as <-. exists g, []. rewrite app_nil_r.
    split_and!; [done | done | done | simpl; lia | | done].
    intros i Hi. by apply elem_of_nil in Hi.
  - cbn [search_loop] in Hloop.
    destruct (is_KeeEntry (heap st) (VRef item)); [|by eapply IH].
    rewrite KeeEntry_init_fresh in Hloop. cbv beta iota zeta in Hloop.
    cbn [heap with_uuid_drawn with_heap search_group] in Hloop.
    apply bind_Ok in Hloop as (strings & _ & Hloop).
    apply bind_Ok in Hloop as (h1 & Happ & Hloop).
    rewrite Hsg in Hloop.
    apply bind_Ok in Hloop as (h2 & Hgapp & Hloop).
    set (temp := List.length (heap st)) in *.
    assert (Hlt : sg < temp) by by eapply lookup_lt_Some.
    assert (Hold1 : ∀ i, i < temp → h1 !! i = heap st !! i).
    { intros i Hi. rewrite (append_all_other _ _ _ _ Happ i) by lia.
      by apply lookup_app_l. }
    destruct (append_all_entry _ _ _ _ _ Happ (list_lookup_middle _ [] _ _ eq_refl))
      as [Hlen1 [e1 He1]].
    rewrite length_app in Hlen1. cbn [List.length] in Hlen1. fold temp in Hlen1.
    assert (Hg1 : h1 !! sg = Some (OGroup g)) by by rewrite Hold1.
    unfold KeeGroup_append in Hgapp. rewrite Hg1 in Hgapp.
    destruct (negb _ && negb _); [discriminate Hgapp|].
    injection Hgapp as <-.
    match type of Hloop with search_loop rest ?s = _ => set (st1 := s) in * end.
    assert (Hheap1 : heap st1 = <[sg := OGroup (g_with_base
                       (mkBase (_parent (g_base g)) (page (g_base g)) (size (g_base g) + 1))
                       (g_with_items (g_items g ++ [temp])%list g))]> h1) by reflexivity.
    assert (Hlen2 : List.length (heap st1) = S temp).
    { rewrite Hheap1, length_insert. lia. }
    assert (Hg2 : ∃ g2, heap st1 !! sg = Some (OGroup g2) ∧
                        g_items g2 = (g_items g ++ [temp])%list).
    { eexists. split.
      - rewrite Hheap1. apply list_lookup_insert_eq. lia.
      - reflexivity. }
    destruct Hg2 as (g2 & Hg2 & Hitems2).
    destruct (IH st1 st' sg g2 Hsg Hg2 Hloop)
      as (g' & news & Hg' & Hitems & Hnews & Hlen & Hentries & Hsame).
    rewrite Hlen2 in Hnews, Hlen, Hsame.
    assert (Htemp : heap st' !! temp = Some (OEntry e1)).
    { rewrite Hsame by lia. rewrite Hheap1, list_lookup_insert_ne by lia. done. }
    exists g', (temp :: news). split_and!.
    + done.
    + by rewrite Hitems, Hitems2, <- app_assoc.
    + cbn [List.length seq]. by rewrite <- Hnews.
    + cbn [List.length]. lia.
    + intros i Hi. apply elem_of_cons in Hi as [->|Hi]; [eauto | by apply Hentries].
    + intros i Hne Hi. rewrite Hsame by lia.
      rewrite Hheap1, list_lookup_insert_ne by done. by apply Hold1.
Qed.

(** The objects that [search] creates are the overlay group and the
    entries that it lists. *)
Lemma search_news (word : string) (st st' : KeePass) :
  search word st = Ok st' →
  ∃ overlay,
    heap st' !! List.length (heap st) = Some (OGroup overlay) ∧
    ∀ i, List.length (heap st) < i < List.length (heap st') →
         i ∈ g_items overlay ∧ ∃ e', heap st' !! i = Some (OEntry e').
Proof.
  unfold search. intros H.
  apply bind_Ok in H as (finded_items & _ & H).
  rewrite KeeGroup_init_fresh in H. cbv beta iota zeta in H.
  apply bind_Ok in H as (st3 & Hloop & H). injection H as <-.
  unfold activate. cbn [heap with_active_item].
  set (sg := List.length (heap st)) in *.
  match type of Hloop with search_loop _ ?s = _ => set (st2 := s) in * end.
  assert (Hlen2 : List.length (heap st2) = S sg).
  { unfold st2; cbn [heap with_search_group with_uuid_drawn with_heap].
    rewrite length_app. cbn [List.length]. unfold sg. lia. }
  assert (Hg2 : ∃ g2, heap st2 !! sg = Some (OGroup g2) ∧ g_items g2 = []).
  { eexists. split.
    - unfold st2; cbn [heap with_search_group with_uuid_drawn with_heap].
      unfold sg. by rewrite list_lookup_middle.
    - reflexivity. }
  destruct Hg2 as (g2 & Hg2 & Hitems2).
  destruct (search_loop_news finded_items st2 st3 sg g2 eq_refl Hg2 Hloop)
    as (g' & news & Hg' & Hitems & Hnews & Hlen & Hentries & _).
  rewrite Hitems2 in Hitems. cbn [app] in Hitems. rewrite Hlen2 in Hnews, Hlen.
  exists g'. split; [done|]. intros i Hi.
  assert (Hin : i ∈ news).
  { rewrite Hnews. apply list_elem_of_In, in_seq. lia. }
  split; [by rewrite Hitems | by apply Hentries].
Qed.

(** C4, amended: on a searchable session [search] returns, and every
    string that the overlay reaches is an object of the document tree,
    the very one that an entry of the match list holds, not a copy: the
    overlay shares its strings with the source tree.  The search leaves
    the objects that were there as they were, those strings among them,
    and the only objects it creates are the overlay group and the
    entries that the overlay lists. *)
Theorem overlay_strings_are_document_strings (word : string) (st : KeePass) :
  searchable st →
  ∃ finded_items st' sg overlay,
    search_item word st = Ok finded_items ∧
    search word st = Ok st' ∧
    search_group st' = VRef sg ∧
    heap st' !! sg = Some (OGroup overlay) ∧
    (∀ s, overlay_string st' s →
          (in_document st' s ∧ in_document st s ∧ heap st' !! s = heap st !! s) ∧
          ∃ item e d, item ∈ finded_items ∧ in_document st item ∧
                      heap st !! item = Some (OEntry e) ∧ s ∈ e_items e ∧
                      heap st !! s = Some (OString d)) ∧
    (∀ i, i < List.length (heap st) → heap st' !! i = heap st !! i) ∧
    (∀ i, List.length (heap st) ≤ i < List.length (heap st') →
          i = sg ∨ (i ∈ g_items overlay ∧ ∃ e', heap st' !! i = Some (OEntry e'))).
Proof.
  intros Hst. destruct (search_item_returns word st Hst) as [finded_items Hfind].
  assert (Hwf : ∀ item e, item ∈ finded_items → heap st !! item = Some (OEntry e) →
                Forall (appendable (heap st)) (e_items e)).
  { intros item e _. apply Hst. }
  destruct (search_spec word st finded_items Hfind Hwf)
    as (st' & overlay & Hs & Hsg & Hact & Hroot & Hsame & Hov & Hname & Hall & Hdoc).
  exists finded_items, st', (List.length (heap st)), overlay.
  split_and!; [done | done | done | done | | done |].
  - intros s (sg & ov & new & e' & Hsg' & Hov' & Hnew & He' & Hin).
    rewrite Hsg in Hsg'. injection Hsg' as <-.
    rewrite Hov in Hov'. injection Hov' as <-.
    apply list_elem_of_lookup_1 in Hnew as [k Hk].
    destruct (Forall2_lookup_r _ _ _ _ _ Hall Hk)
      as (item & Hitem & _ & e & e1 & He & He1 & Hitems & _).
    rewrite He' in He1. injection He1 as <-.
    apply list_elem_of_lookup_2, list_elem_of_filter in Hitem as [_ Hitem].
    pose proof (proj1 (Forall_forall _ _) Hdoc _ Hitem) as [Hlt (r & Hr & Hreach)].
    rewrite Hitems in Hin.
    assert (Hsdoc : reachable (heap st) r s).
    { eapply reach_item; [exact Hreach | | exact Hin]. cbn [get_items]. by rewrite He. }
    pose proof (proj1 (Forall_forall _ _) (Hwf item e Hitem He) s Hin) as (d & Hd & _).
    assert (Hslt : s < List.length (heap st)) by by eapply lookup_lt_Some.
    split; [split_and!|].
    + exists r. split; [by rewrite Hroot|].
      eapply reachable_agree; [exact Hsame | exact Hsdoc].
    + by exists r.
    + by apply Hsame.
    + exists item, e, d. split_and!; try done. by exists r.
  - intros i Hi.
    destruct (decide (i = List.length (heap st))) as [->|Hne]; [by left|]. right.
    destruct (search_news word st st' Hs) as (ov & Hov' & Hnews).
    rewrite Hov in Hov'. injection Hov' as <-.
    apply Hnews. lia.
Qed.

(** *** The codec *)

Lemma Tree_nested_ind (P : Tree -> Prop) :
  (∀ uuid name notes icon_id items,
     Forall P items → P (TGroup uuid name notes icon_id items)) →
  (∀ uuid icon_id name items autotype, P (TEntry uuid icon_id name items autotype)) →
  ∀ t, P t.
Proof.
  intros HG HE. fix IH 1. intros [uuid name notes icon_id items|uuid icon_id name items a].
  - apply HG. induction items as [|x items IHitems]; constructor; [apply IH | exact IHitems].
  - apply HE.
Qed.

Lemma str_of_int_roundtrip (z : Z) :
  int_of_text (Some (str_of_int z)) = Ok z ∧ str_of_int z ≠ "".
Proof.
  assert (H : DecimalString.NilZero.int_of_string (str_of_int z) = Some (Z.to_int z)).
  { unfold str_of_int.
    apply DecimalString.NilZero.isi; destruct z as [|p|p]; simpl; try discriminate;
      intros [= H]; by apply (DecimalPos.Unsigned.to_uint_nonnil p). }
  split.
  - unfold int_of_text, canonical_int. rewrite H, DecimalZ.of_to.
    by rewrite bool_decide_eq_true_2.
  - intros Heq. rewrite Heq in H. discriminate H.
Qed.

Lemma as_text_reread (v : PyVal) (t : option string) :
  as_text v = Ok t → of_text (reparse_text t) = reread_text v.
Proof.
  destruct v as [|s| | | | |]; simpl; try done.
  - by intros [= <-].
  - destruct (xml_compatible s); [|done]. intros [= <-]. simpl. by case_bool_decide.
Qed.

(** The text that [lxml] keeps of a string is the string. *)
Lemma as_text_str (s : string) (t : option string) :
  as_text (VStr s) = Ok t → t = Some s.
Proof. simpl. destruct (xml_compatible s); [|done]. by intros [= <-]. Qed.

Lemma el_tag_reparse (e : Element) : el_tag (reparse e) = el_tag e.
Proof. by destruct e. Qed.

Lemma find_app (tag t : string) (x : option string) (l1 l2 : list Element) :
  find tag (Elem t x (l1 ++ l2)) =
  match find tag (Elem t x l1) with
  | Some c => Some c
  | None => find tag (Elem t x l2)
  end.
Proof.
  unfold find, findall; simpl. rewrite filter_app.
  by destruct (filter _ l1).
Qed.

Lemma findall_app (tag t : string) (x : option string) (l1 l2 : list Element) :
  findall tag (Elem t x (l1 ++ l2)) =
  (findall tag (Elem t x l1) ++ findall tag (Elem t x l2))%list.
Proof. unfold findall; simpl. apply filter_app. Qed.

Lemma findall_none (tag t : string) (x : option string) (l : list Element) :
  Forall (fun c => el_tag c ≠ tag) l → findall tag (Elem t x l) = [].
Proof.
  unfold findall; simpl. induction 1 as [|c l Hc _ IH]; [done|].
  by rewrite filter_cons_False.
Qed.

Lemma findall_all (tag t : string) (x : option string) (l : list Element) :
  Forall (fun c => el_tag c = tag) l → findall tag (Elem t x l) = l.
Proof.
  unfold findall; simpl. induction 1 as [|c l Hc _ IH]; [done|].
  rewrite filter_cons_True by done. by rewrite IH.
Qed.

(** The loop of [inner_init] visits [findall('Group') + findall('Entry')]:
    each pass only acts on the children with its tag. *)
Lemma groups_pass_findall (rec : Element -> nat -> Res (list Tree * nat))
    (e : Element) (drawn : nat) :
  groups_pass rec (el_children e) drawn = groups_pass rec (findall "Group" e) drawn.
Proof.
  unfold findall. revert drawn. induction (el_children e) as [|c l IH]; intros drawn; [done|].
  simpl. case_bool_decide as Hc.
  - rewrite filter_cons_True by done. simpl. rewrite bool_decide_eq_true_2 by done.
    destruct (decode_group_attrs c drawn) as [[[[[u n] no] ic] d1]|]; [|done]. simpl.
    destruct (rec c d1) as [[items d2]|]; [|done]. simpl. by rewrite IH.
  - rewrite filter_cons_False by done. apply IH.
Qed.

Lemma entries_pass_findall (e : Element) (drawn : nat) :
  entries_pass (el_children e) drawn = entries_pass (findall "Entry" e) drawn.
Proof.
  unfold findall. revert drawn. induction (el_children e) as [|c l IH]; intros drawn; [done|].
  simpl. case_bool_decide as Hc.
  - rewrite filter_cons_True by done. simpl. rewrite bool_decide_eq_true_2 by done.
    destruct (decode_entry c drawn) as [[t d1]|]; [|done]. simpl. by rewrite IH.
  - rewrite filter_cons_False by done. apply IH.
Qed.

Lemma groups_pass_skip (rec : Element -> nat -> Res (list Tree * nat))
    (l1 l2 : list Element) (drawn : nat) :
  Forall (fun c => el_tag c ≠ "Group") l1 →
  groups_pass rec (l1 ++ l2) drawn = groups_pass rec l2 drawn.
Proof.
  induction 1 as [|c l Hc _ IH]; [done|].
  simpl. by rewrite bool_decide_eq_false_2.
Qed.

Lemma entries_pass_skip (l1 l2 : list Element) (drawn : nat) :
  Forall (fun c => el_tag c ≠ "Entry") l1 →
  entries_pass (l1 ++ l2) drawn = entries_pass l2 drawn.
Proof.
  induction 1 as [|c l Hc _ IH]; [done|].
  simpl. by rewrite bool_decide_eq_false_2.
Qed.

Lemma strings_get_xml_spec (items : list (PyVal * PyVal)) :
  ∀ xs, strings_get_xml items = Ok xs →
  Forall (fun c => el_tag c = "String") xs ∧
  ∀ acc, decode_strings (map reparse xs) acc =
         Ok (fold_left title_step (map reread_string items) (fst acc),
             (snd acc ++ map reread_string items)%list).
Proof.
  induction items as [|s rest IH]; intros xs Hxs.
  - injection Hxs as <-. split; [constructor|]. intros [name l]. simpl. by rewrite app_nil_r.
  - simpl in Hxs.
    apply bind_Ok in Hxs as (x & Hx & Hxs).
    apply bind_Ok in Hxs as (xs' & Hrest & Hxs). injection Hxs as <-.
    unfold EntryString_get_xml_element in Hx.
    apply bind_Ok in Hx as (k & Hk & Hx).
    apply bind_Ok in Hx as (v & Hv & Hx). injection Hx as <-.
    destruct (IH xs' Hrest) as [Htags Hdec].
    split; [by constructor|].
    intros [name l]. cbn [map reparse decode_strings].
    assert (Hone : decode_string (Elem "String" (reparse_text None)
                                    [reparse (leaf "Key" k); reparse (leaf "Value" v)])
                     (name, l)
                   = Ok (title_step name (reread_string s), (l ++ [reread_string s])%list)).
    { unfold decode_string, child_text, child, find, findall, leaf. simpl.
      rewrite (as_text_reread _ _ Hk), (as_text_reread _ _ Hv).
      unfold title_step, reread_string; simpl.
      by destruct (py_eq (reread_text s.1) (VStr "Title")). }
    rewrite Hone, bind_Ok_l, Hdec. simpl. by rewrite <- app_assoc.
Qed.

Lemma AutoType_get_xml_element_tag (a : AutoType) (at_el : Element) :
  AutoType_get_xml_element a = Ok at_el →
  ∃ text children, at_el = Elem "AutoType" text children.
Proof.
  unfold AutoType_get_xml_element. intros H.
  apply bind_Ok in H as (en & Hen & H).
  apply bind_Ok in H as (dt & Hdt & H).
  destruct (association a) as [[window key_sec]|].
  - apply bind_Ok in H as (w & Hw & H).
    apply bind_Ok in H as (k & Hk & H). injection H as <-. eauto.
  - injection H as <-. eauto.
Qed.

Lemma AutoType_roundtrip (a : AutoType) (at_el item : Element) :
  AutoType_get_xml_element a = Ok at_el →
  find "AutoType" item = Some (reparse at_el) →
  el_tag at_el = "AutoType" ∧ decode_autotype item = Ok (reread_autotype a).
Proof.
  unfold AutoType_get_xml_element, decode_autotype, child. intros H ->.
  rewrite bind_Ok_l.
  apply bind_Ok in H as (en & Hen & H).
  apply bind_Ok in H as (dt & Hdt & H).
  unfold reread_autotype.
  destruct (association a) as [[window key_sec]|].
  - apply bind_Ok in H as (w & Hw & H).
    apply bind_Ok in H as (k & Hk & H). injection H as <-.
    split; [done|].
    unfold child_text, child, find, findall, leaf. simpl.
    by rewrite (as_text_reread _ _ Hen), (as_text_reread _ _ Hdt),
      (as_text_reread _ _ Hw), (as_text_reread _ _ Hk).
  - injection H as <-. split; [done|].
    unfold child_text, child, find, findall, leaf. simpl.
    by rewrite (as_text_reread _ _ Hen), (as_text_reread _ _ Hdt).
Qed.

Lemma keep_uuid_given (uuid : string) (drawn : nat) :
  uuid ≠ "" → keep_uuid (reparse_text (Some uuid)) drawn = (uuid, drawn).
Proof. intros H. unfold keep_uuid, reparse_text. by rewrite !bool_decide_eq_false_2. Qed.

Lemma reparse_str_of_int (z : Z) :
  reparse_text (Some (str_of_int z)) = Some (str_of_int z).
Proof.
  unfold reparse_text. rewrite bool_decide_eq_false_2; [done|].
  apply str_of_int_roundtrip.
Qed.

(** An encoded entry is decoded to the entry as [reread] gives it. *)
Lemma decode_entry_encoded (uuid : string) (icon_id : Z)
    (items : list (PyVal * PyVal)) (autotype : AutoType) (tick tick' drawn : nat)
    (x : Element) :
  KeeEntry_get_xml_element uuid icon_id items autotype tick = Ok (x, tick') →
  uuid ≠ "" →
  el_tag x = "Entry" ∧
  ∀ name, decode_entry (reparse x) drawn =
          Ok (reread (TEntry uuid icon_id name items autotype), drawn).
Proof.
  unfold KeeEntry_get_xml_element. intros H Huuid.
  apply bind_Ok in H as (uuid_text & Hut & H). apply as_text_str in Hut as ->.
  apply bind_Ok in H as (strings & Hstrings & H).
  apply bind_Ok in H as (at_el & Hat & H). injection H as <- <-.
  split; [done|]. intros name.
  destruct (strings_get_xml_spec items strings Hstrings) as [Htags Hdec].
  assert (Htags' : ∀ tag, tag ≠ "String" →
            Forall (fun c => el_tag c ≠ tag) (map reparse strings)).
  { intros tag Htag. apply Forall_forall. intros c Hc.
    apply list_elem_of_fmap in Hc as (c0 & -> & Hc0).
    rewrite el_tag_reparse. rewrite (proj1 (Forall_forall _ _) Htags c0 Hc0). congruence. }
  cbn [reparse].
  change (map reparse _) with
    (map reparse ([ leaf "UUID" (Some uuid);
                    leaf "IconID" (Some (str_of_int icon_id));
                    leaf "ForegroundColor" None;
                    leaf "BackgroundColor" None;
                    leaf "OverrideURL" None;
                    leaf "Tags" None;
                    times_element (strftime_now tick) ]
                  ++ strings ++ [ at_el; leaf "History" None ])%list).
  rewrite !map_app.
  set (header := map reparse [_; _; _; _; _; _; _]).
  set (tail := map reparse [at_el; _]).
  assert (Hfind_at : find "AutoType" (Elem "Entry" (reparse_text None)
                       (header ++ map reparse strings ++ tail)) = Some (reparse at_el)).
  { rewrite !find_app. unfold find at 2.
    rewrite (findall_none "AutoType" _ _ (map reparse strings)) by by apply Htags'.
    destruct (AutoType_get_xml_element_tag _ _ Hat) as (tx & cs & Heq).
    subst header tail. rewrite Heq. by vm_compute. }
  destruct (AutoType_roundtrip _ _ _ Hat Hfind_at) as [_ Hauto].
  unfold decode_entry. rewrite Hauto, bind_Ok_l.
  assert (Hicon : child_text "IconID" (Elem "Entry" (reparse_text None)
                    (header ++ map reparse strings ++ tail))
                  = Ok (reparse_text (Some (str_of_int icon_id)))).
  { unfold child_text, child. rewrite find_app. subst header. by vm_compute. }
  assert (Huu : child_text "UUID" (Elem "Entry" (reparse_text None)
                    (header ++ map reparse strings ++ tail))
                  = Ok (reparse_text (Some uuid))).
  { unfold child_text, child. rewrite find_app. subst header. by vm_compute. }
  rewrite Hicon, bind_Ok_l, Huu, bind_Ok_l, keep_uuid_given by done.
  rewrite reparse_str_of_int, (proj1 (str_of_int_roundtrip icon_id)), bind_Ok_l.
  rewrite !findall_app.
  rewrite (findall_all "String" _ _ (map reparse strings)).
  2:{ apply Forall_forall. intros c Hc.
      apply list_elem_of_fmap in Hc as (c0 & -> & Hc0).
      rewrite el_tag_reparse. exact (proj1 (Forall_forall _ _) Htags c0 Hc0). }
  assert (Hh : findall "String" (Elem "Entry" (reparse_text None) header) = []).
  { subst header. by vm_compute. }
  assert (Ht : findall "String" (Elem "Entry" (reparse_text None) tail) = []).
  { subst tail. destruct (AutoType_get_xml_element_tag _ _ Hat) as (tx & cs & Heq).
    rewrite Heq. by vm_compute. }
  rewrite Hh, Ht, app_nil_r. cbn [app].
  rewrite Hdec. by simpl.
Qed.

Lemma reread_group (uuid : string) (name notes : PyVal) (icon_id : Z) (items : list Tree) :
  reread (TGroup uuid name notes icon_id items) =
  TGroup uuid (reread_text name) VNone icon_id
    (tree_children (reread (TGroup uuid name notes icon_id items))).
Proof. done. Qed.

Lemma is_group_reread (t : Tree) : is_group (reread t) = is_group t.
Proof. by destruct t. Qed.

(** The two passes of [inner_init] over the encoded items of a group. *)
Lemma passes_over_encoded (items : list Tree) :
  Forall (fun t => ∀ tick x tick', get_xml_element t tick = Ok (x, tick') →
                   uuids_nonempty t = true → decodes_to_reread t x) items →
  ∀ tick xs tick',
  items_get_xml get_xml_element items tick = Ok (xs, tick') →
  forallb uuids_nonempty items = true →
  ∀ drawn,
  groups_pass inner_init (map reparse xs) drawn =
    Ok (List.filter is_group (map reread items), drawn) ∧
  entries_pass (map reparse xs) drawn =
    Ok (List.filter (fun k => negb (is_group k)) (map reread items), drawn).
Proof.
  induction 1 as [|item rest Hitem _ IH]; intros tick xs tick' Hxs Hok drawn.
  - injection Hxs as <- <-. done.
  - cbn [items_get_xml] in Hxs.
    apply bind_Ok in Hxs as ([x tick1] & Hx & Hxs).
    apply bind_Ok in Hxs as ([xs' tick2] & Hrest & Hxs). injection Hxs as <- <-.
    cbn [forallb] in Hok. apply andb_prop in Hok as [Hok1 Hok2].
    destruct (IH _ _ _ Hrest Hok2 drawn) as [Hg He].
    specialize (Hitem _ _ _ Hx Hok1 drawn).
    cbn [map groups_pass entries_pass List.filter]. rewrite is_group_reread.
    destruct item as [uuid name notes icon_id kids|uuid icon_id name strings a].
    + destruct Hitem as (Htag & Hattrs & Hinner).
      rewrite el_tag_reparse, Htag.
      rewrite bool_decide_eq_true_2 by done.
      rewrite bool_decide_eq_false_2 by done.
      rewrite Hattrs, bind_Ok_l. cbv beta iota.
      rewrite Hinner, bind_Ok_l. cbv beta iota.
      rewrite Hg, bind_Ok_l. cbv beta iota. cbn [is_group negb].
      by rewrite He.
    + destruct Hitem as (Htag & Hentry).
      rewrite el_tag_reparse, Htag.
      rewrite bool_decide_eq_false_2 by done.
      rewrite bool_decide_eq_true_2 by done.
      rewrite Hentry, bind_Ok_l. cbv beta iota.
      rewrite He, bind_Ok_l. cbv beta iota. cbn [is_group negb].
      by rewrite Hg.
Qed.

(** Decoding the encoding of a node gives the node as [reread] has it. *)
Lemma get_xml_element_decodes (t : Tree) :
  ∀ tick x tick', get_xml_element t tick = Ok (x, tick') →
  uuids_nonempty t = true → decodes_to_reread t x.
Proof.
  induction t as [uuid name notes icon_id items IH|uuid icon_id name items a]
    using Tree_nested_ind; intros tick x tick' Hx Hok drawn.
  - cbn [get_xml_element] in Hx.
    apply bind_Ok in Hx as (uuid_text & Hut & Hx). apply as_text_str in Hut as ->.
    apply bind_Ok in Hx as (name_text & Hname & Hx).
    apply bind_Ok in Hx as ([children tick1] & Hkids & Hx). injection Hx as <- <-.
    cbn [uuids_nonempty] in Hok. apply andb_prop in Hok as [Huuid Hok].
    apply negb_true_iff, bool_decide_eq_false in Huuid.
    destruct (passes_over_encoded items IH _ _ _ Hkids Hok drawn) as [Hg He].
    split; [done|].
    cbn [reparse].
    change (map reparse _) with
      (map reparse (group_header (Some uuid) name_text icon_id (strftime_now tick)
                    ++ children)%list).
    rewrite map_app.
    set (header := map reparse (group_header _ _ _ _)).
    split.
    + unfold decode_group_attrs, child_text, child. rewrite !find_app.
      assert (Hn : find "Name" (Elem "Group" (reparse_text None) header)
                   = Some (leaf "Name" (reparse_text name_text))) by by vm_compute.
      assert (Hno : find "Notes" (Elem "Group" (reparse_text None) header)
                   = Some (leaf "Notes" None)) by by vm_compute.
      assert (Hi : find "IconID" (Elem "Group" (reparse_text None) header)
                   = Some (leaf "IconID" (reparse_text (Some (str_of_int icon_id)))))
        by by vm_compute.
      assert (Hu : find "UUID" (Elem "Group" (reparse_text None) header)
                   = Some (leaf "UUID" (reparse_text (Some uuid)))) by by vm_compute.
      rewrite Hn, Hno, Hi, Hu, !bind_Ok_l. cbn [el_text leaf].
      rewrite keep_uuid_given by done.
      rewrite reparse_str_of_int, (proj1 (str_of_int_roundtrip icon_id)), bind_Ok_l.
      by rewrite (as_text_reread _ _ Hname).
    + cbn [inner_init].
      rewrite groups_pass_skip, Hg, bind_Ok_l.
      2:{ subst header. unfold group_header. cbn [map].
          repeat (constructor; [by vm_compute|]). constructor. }
      cbv beta iota.
      rewrite entries_pass_skip, He, bind_Ok_l.
      2:{ subst header. unfold group_header. cbn [map].
          repeat (constructor; [by vm_compute|]). constructor. }
      done.
  - cbn [get_xml_element] in Hx. cbn [uuids_nonempty] in Hok.
    apply negb_true_iff, bool_decide_eq_false in Hok.
    destruct (decode_entry_encoded _ _ _ _ _ _ drawn _ Hx Hok) as [Htag Hdec].
    split; [done | apply Hdec].
Qed.

Lemma find_tag (tag : string) (e c : Element) : find tag e = Some c → el_tag c = tag.
Proof.
  unfold find, findall. intros H.
  assert (Hin : c ∈ filter (fun c => el_tag c = tag) (el_children e)).
  { destruct (filter _ _) as [|c' l]; [done|]. injection H as ->. by left. }
  by apply list_elem_of_filter in Hin as [Hc _].
Qed.

Lemma reread_children_perm (t : Tree) :
  tree_children (reread t) ≡ₚ map reread (tree_children t).
Proof.
  destruct t as [uuid name notes icon_id items|]; [|done]. simpl.
  induction (map reread items) as [|k kids IH]; [done|].
  simpl. destruct (is_group k); simpl.
  - by constructor.
  - rewrite <- Permutation_middle. by constructor.
Qed.

(** C2, amended: when the tree under a root group whose nodes all
    carry an identifier is encoded by [generate_root], decoding the
    document succeeds, draws no new identifier and returns [reread t].
    That tree has the identifiers, icon ids, keys, values and AutoType
    settings of [t] and the same children under every group, with these
    differences: the notes of every group are [None]; under every group
    the child groups come first and the child entries after them, each
    kind in its original order; a text that was the empty string is
    [None]; the name of an entry is the value of its last "Title"
    string.  Timestamps are not part of the tree. *)
Theorem decode_of_encode (root_obj : Element) (t : Tree) (tick tick' drawn : nat)
    (doc : Element) :
  is_group t = true →
  uuids_nonempty t = true →
  generate_root root_obj t tick = Ok (doc, tick') →
  _init_root_group true doc drawn = Ok (reread t, drawn) ∧
  tree_uuid (reread t) = tree_uuid t ∧
  tree_name (reread t) = reread_text (tree_name t) ∧
  tree_children (reread t) ≡ₚ map reread (tree_children t).
Proof.
  intros Hgroup Hok Hgen. split; [|split_and!; [by destruct t | by destruct t | apply reread_children_perm]].
  unfold generate_root in Hgen.
  destruct (find "Meta" root_obj) as [meta|] eqn:Hmeta; [|done].
  apply bind_Ok in Hgen as ([group tick1] & Hx & Hgen). injection Hgen as <- <-.
  pose proof (get_xml_element_decodes t _ _ _ Hx Hok drawn) as Hdec.
  destruct t as [uuid name notes icon_id items|]; [|done].
  destruct Hdec as (Htag & Hattrs & Hinner).
  unfold _init_root_group. cbn [negb].
  assert (Hfind : find_root_group (Elem "KeePassFile" None
                    [reparse meta;
                     Elem "Root" None [reparse group; Elem "DeletedObjects" None []]])
                  = Some (reparse group)).
  { unfold find_root_group, findall. cbn [el_children].
    rewrite filter_cons_False
      by (rewrite el_tag_reparse, (find_tag _ _ _ Hmeta); discriminate).
    rewrite filter_cons_True by done. cbn [filter list_filter mbind list_bind app el_children].
    rewrite decide_True by by rewrite el_tag_reparse. done. }
  rewrite Hfind, Hattrs, bind_Ok_l. cbv beta iota.
  by rewrite Hinner.
Qed.

(** *** [size] under [append] and [delete] *)

Lemma list_remove_length (x : objid) (l l' : list objid) :
  list_remove x l = Ok l' → S (List.length l') = List.length l.
Proof.
  revert l'. induction l as [|y l IH]; intros l' H; [done|]. simpl in H.
  case_bool_decide; [by injection H as <-|].
  apply bind_Ok in H as (l'' & Hl & H). injection H as <-. simpl. by rewrite (IH l'').
Qed.

(** [append] keeps [size] equal to the number of items. *)
Lemma append_keeps_size (h h' : list Obj) (self : objid) (item : PyVal) (o : Obj) :
  h !! self = Some o → size_matches o →
  KeeGroup_append self item h = Ok h' ∨ KeeEntry_append self item h = Ok h' →
  ∃ o', h' !! self = Some o' ∧ size_matches o'.
Proof.
  intros Hself Hsize Happ.
  assert (Hlt : self < List.length h) by by eapply lookup_lt_Some.
  destruct Happ as [Happ|Happ].
  - unfold KeeGroup_append in Happ. rewrite Hself in Happ.
    destruct o as [g| |]; try done.
    destruct (negb _ && negb _); [done|]. destruct item; try done.
    injection Happ as <-. eexists. split; [by apply list_lookup_insert_eq|].
    simpl in *. rewrite length_app. simpl. lia.
  - unfold KeeEntry_append in Happ. rewrite Hself in Happ.
    destruct o as [|e|]; try done.
    destruct (negb _); [done|]. destruct item; try done.
    apply bind_Ok in Happ as (k & Hk & Happ).
    destruct (py_eq k (VStr "Title")).
    + apply bind_Ok in Happ as (v & Hv & Happ). injection Happ as <-.
      eexists. split; [by apply list_lookup_insert_eq|].
      simpl in *. rewrite length_app. simpl. lia.
    + injection Happ as <-. eexists. split; [by apply list_lookup_insert_eq|].
      simpl in *. rewrite length_app. simpl. lia.
Qed.

(** The removal that [delete] performs drops the node from its
    parent's items and leaves the parent's [size] as it was: after it
    [size] is one more than the number of items. *)
Lemma remove_from_parent_keeps_size (h h' : list Obj) (self p : objid) (o : Obj) :
  get_parent h (VRef self) = Ok (VRef p) →
  h !! p = Some o → size_matches o →
  remove_from_parent self h = Ok h' →
  ∃ o', h' !! p = Some o' ∧ ¬ size_matches o'.
Proof.
  intros Hpar Hp Hsize Hrem. unfold remove_from_parent in Hrem.
  rewrite Hpar, bind_Ok_l, Hp in Hrem.
  assert (Hlt : p < List.length h) by by eapply lookup_lt_Some.
  destruct o as [g|e|d]; [| |done].
  - apply bind_Ok in Hrem as (l & Hl & Hrem). injection Hrem as <-.
    eexists. split; [by apply list_lookup_insert_eq|].
    apply list_remove_length in Hl. simpl in *. lia.
  - apply bind_Ok in Hrem as (l & Hl & Hrem). injection Hrem as <-.
    eexists. split; [by apply list_lookup_insert_eq|].
    apply list_remove_length in Hl. simpl in *. lia.
Qed.

(** *** The commit of a group draft *)

(** The Edit loop on the two fields of a group draft assigns the name
    and nothing else: the key it compares for the notes is 'Note'. *)
Lemma edit_group_assigns_name_only (h : list Obj) (g : objid) (grp : KeeGroup)
    (n no : PyVal) :
  h !! g = Some (OGroup grp) →
  edit_group (VRef g) [("Name", n); ("Notes", no)] h =
  Ok (<[g := OGroup (g_with_name n grp)]> h).
Proof.
  intros Hg. cbn [edit_group].
  rewrite (bool_decide_eq_true_2 ("Name" = "Name")) by done.
  rewrite (bool_decide_eq_false_2 ("Name" = "Note")) by done.
  rewrite (bool_decide_eq_false_2 ("Notes" = "Name")) by done.
  rewrite (bool_decide_eq_false_2 ("Notes" = "Note")) by done.
  by rewrite (set_name_limit h g (OGroup grp) n Hg).
Qed.

(** The name that the Add branch gives the new group is the value of
    the draft's Name field, [None] when it was never set: the mapping
    of a group draft always has the key, so the initial "None" never
    survives the loop. *)
Lemma group_name_of_draft (n no : PyVal) :
  group_name_of [("Name", n); ("Notes", no)] (VStr "None") = n.
Proof. done. Qed.

(** ** Further properties of the code *)

(** *** The page cursor within its range *)

(** X1: a cursor between 1 and the last page
    [ceil(size / NUMBER_OF_ENTRIES_ON_PAGE)] is still between 1 and the
    last page after [next_page] and after [previous_page]. *)
Theorem page_cursor_stays_in_range (b : BaseKeePass) :
  (1 ≤ page b ≤ math_ceil (true_div (size b) NUMBER_OF_ENTRIES_ON_PAGE))%Z →
  (1 ≤ page (next_page b) ≤ math_ceil (true_div (size b) NUMBER_OF_ENTRIES_ON_PAGE))%Z ∧
  (1 ≤ page (previous_page b) ≤ math_ceil (true_div (size b) NUMBER_OF_ENTRIES_ON_PAGE))%Z.
Proof.
  intros Hrange. unfold next_page, previous_page, base_with_page; simpl.
  rewrite next_page_value_spec. unfold previous_page_value.
  destruct (Z.ltb_spec (page b) (math_ceil (true_div (size b) NUMBER_OF_ENTRIES_ON_PAGE)));
    destruct (Z.gtb_spec (page b) 1); lia.
Qed.

(** X2: on a cursor between 1 and the last page, [previous_page] undoes
    [next_page] and [next_page] undoes [previous_page], the wrap-around
    at both ends included. *)
Theorem page_cursor_steps_are_inverse (b : BaseKeePass) :
  (1 ≤ page b ≤ math_ceil (true_div (size b) NUMBER_OF_ENTRIES_ON_PAGE))%Z →
  previous_page (next_page b) = b ∧ next_page (previous_page b) = b.
Proof.
  intros Hrange. destruct b as [parent pg sz]. simpl in Hrange.
  unfold next_page, previous_page, base_with_page; simpl.
  rewrite !next_page_value_spec. unfold previous_page_value.
  set (last := math_ceil (true_div sz NUMBER_OF_ENTRIES_ON_PAGE)) in *.
  split; f_equal.
  - destruct (Z.ltb_spec pg last).
    + destruct (Z.gtb_spec (pg + 1) 1); lia.
    + destruct (Z.gtb_spec 1 1); lia.
  - destruct (Z.gtb_spec pg 1).
    + destruct (Z.ltb_spec (pg - 1) last); lia.
    + destruct (Z.ltb_spec last last); lia.
Qed.

(** *** The items shown on a page *)

Lemma page_window_loop_slice {A : Type} (page : Z) (items : list A) :
  ∀ i : Z, (0 ≤ i)%Z → (1 ≤ page)%Z →
  page_window_loop page i items =
  take (Z.to_nat (page * Z.pos NUMBER_OF_ENTRIES_ON_PAGE + 1
                  - Z.max i ((page - 1) * Z.pos NUMBER_OF_ENTRIES_ON_PAGE)))
       (drop (Z.to_nat ((page - 1) * Z.pos NUMBER_OF_ENTRIES_ON_PAGE - i)) items).
Proof.
  set (N := Z.pos NUMBER_OF_ENTRIES_ON_PAGE).
  assert (HN : (0 < N)%Z) by (unfold N; lia).
  induction items as [|item rest IH]; intros i Hi Hpage.
  - by rewrite drop_nil, take_nil.
  - cbn [page_window_loop]. fold N. rewrite (IH (i + 1)%Z) by lia.
    assert (Hlo : (page * N - N = (page - 1) * N)%Z) by lia. rewrite Hlo.
    destruct (Z.geb_spec (page * N) i) as [Hhi|Hhi];
      destruct (Z.geb_spec i ((page - 1) * N)) as [Hl|Hl]; cbn [andb app].
    + replace (Z.to_nat ((page - 1) * N - i)) with 0 by lia.
      replace (Z.to_nat ((page - 1) * N - (i + 1))) with 0 by lia.
      rewrite !drop_0.
      replace (Z.to_nat (page * N + 1 - Z.max i ((page - 1) * N)))
        with (S (Z.to_nat (page * N + 1 - Z.max (i + 1) ((page - 1) * N)))) by lia.
      done.
    + replace (Z.to_nat ((page - 1) * N - i))
        with (S (Z.to_nat ((page - 1) * N - (i + 1)))) by lia.
      cbn [drop]. do 2 f_equal. lia.
    + replace (Z.to_nat (page * N + 1 - Z.max i ((page - 1) * N))) with 0 by lia.
      replace (Z.to_nat (page * N + 1 - Z.max (i + 1) ((page - 1) * N))) with 0 by lia.
      by rewrite !take_0.
    + lia.
Qed.

(** X3: from page 1 on, the items that the loops of [_generate_keyboard]
    and [get_message] show on a page are the slice of the item list that
    starts at index [(page - 1) * NUMBER_OF_ENTRIES_ON_PAGE] and is
    [NUMBER_OF_ENTRIES_ON_PAGE + 1] long: one item more than the page
    length.  So the item at index [page * NUMBER_OF_ENTRIES_ON_PAGE],
    when there is one, is shown both last on that page and first on the
    next. *)
Theorem page_window_is_a_slice {A : Type} (page : Z) (items : list A) :
  (1 ≤ page)%Z →
  page_window page items =
    take (S (Pos.to_nat NUMBER_OF_ENTRIES_ON_PAGE))
         (drop (Z.to_nat ((page - 1) * Z.pos NUMBER_OF_ENTRIES_ON_PAGE)) items) ∧
  ∀ x, items !! Z.to_nat (page * Z.pos NUMBER_OF_ENTRIES_ON_PAGE) = Some x →
       last (page_window page items) = Some x ∧
       head (page_window (page + 1) items) = Some x.
Proof.
  intros Hpage.
  assert (Hslice : ∀ pg, (1 ≤ pg)%Z →
    page_window pg items =
    take (S (Pos.to_nat NUMBER_OF_ENTRIES_ON_PAGE))
         (drop (Z.to_nat ((pg - 1) * Z.pos NUMBER_OF_ENTRIES_ON_PAGE)) items)).
  { intros pg Hpg. unfold page_window. rewrite page_window_loop_slice by lia.
    assert (0 ≤ (pg - 1) * Z.pos NUMBER_OF_ENTRIES_ON_PAGE)%Z
      by (apply Z.mul_nonneg_nonneg; lia).
    f_equal; [lia | f_equal; lia]. }
  split; [by apply Hslice|].
  intros x Hx. rewrite !Hslice by lia.
  pose proof (lookup_lt_Some _ _ _ Hx) as Hlt.
  assert (0 ≤ (page - 1) * Z.pos NUMBER_OF_ENTRIES_ON_PAGE)%Z
    by (apply Z.mul_nonneg_nonneg; lia).
  split.
  - rewrite last_lookup, length_take, length_drop.
    replace (Init.Nat.pred (S (Pos.to_nat NUMBER_OF_ENTRIES_ON_PAGE)
               `min` (List.length items
                      - Z.to_nat ((page - 1) * Z.pos NUMBER_OF_ENTRIES_ON_PAGE))))
      with (Pos.to_nat NUMBER_OF_ENTRIES_ON_PAGE) by lia.
    rewrite lookup_take_lt by lia. rewrite lookup_drop.
    rewrite <- Hx. f_equal. lia.
  - rewrite head_lookup, lookup_take_lt by lia. rewrite lookup_drop.
    rewrite <- Hx. f_equal. lia.
Qed.

(** *** [get_item] and [update_item] *)

Lemma string_ok_key (h : list Obj) (s : objid) :
  string_ok h s → ∃ k, get_string_attr h s "key" = Ok k.
Proof.
  intros (d & Hd & [k Hk] & _). exists k.
  unfold get_string_attr, dict_get. by rewrite Hd, Hk.
Qed.

Lemma get_item_loop_spec (h : list Obj) (key : PyVal) (items : list objid) :
  Forall (string_ok h) items →
  (∃ i s, items !! i = Some s ∧ get_string_attr h s "key" = Ok key ∧
          (∀ j s', j < i → items !! j = Some s' →
                   get_string_attr h s' "key" ≠ Ok key) ∧
          get_item_loop items key h = Ok (VRef s)) ∨
  ((∀ s', s' ∈ items → get_string_attr h s' "key" ≠ Ok key) ∧
   get_item_loop items key h = Ok VNone).
Proof.
  induction 1 as [|item rest Hitem _ IH].
  - right. split; [|done]. intros s' Hs'. by apply elem_of_nil in Hs'.
  - destruct (string_ok_key h item Hitem) as [k Hk].
    cbn [get_item_loop]. rewrite Hk, bind_Ok_l. unfold py_eq.
    case_bool_decide as Hkk.
    + left. exists 0, item. subst k. split_and!; [done | done | | done].
      intros j s' Hj. lia.
    + destruct IH as [(i & s & Hi & Hs & Hfirst & Hres)|[Hnone Hres]].
      * left. exists (S i), s. split_and!; [done | done | | done].
        intros [|j] s' Hj Hs'.
        -- injection Hs' as <-. rewrite Hk. congruence.
        -- apply (Hfirst j s'); [lia | done].
      * right. split; [|done]. intros s' Hs'.
        apply elem_of_cons in Hs' as [->|Hs']; [|by apply Hnone].
        rewrite Hk. congruence.
Qed.

(** X4: on an entry whose items are well-formed strings, [get_item]
    with a key other than [None] returns the first item of the list
    whose key equals it, and returns [None], without raising, when no
    item carries the key. *)
Theorem get_item_returns_first_match (h : list Obj) (e : objid) (ent : KeeEntry)
    (key : PyVal) :
  h !! e = Some (OEntry ent) →
  Forall (string_ok h) (e_items ent) →
  key ≠ VNone →
  (∃ i s, e_items ent !! i = Some s ∧ get_string_attr h s "key" = Ok key ∧
          (∀ j s', j < i → e_items ent !! j = Some s' →
                   get_string_attr h s' "key" ≠ Ok key) ∧
          get_item e key h = Ok (VRef s)) ∨
  ((∀ s', s' ∈ e_items ent → get_string_attr h s' "key" ≠ Ok key) ∧
   get_item e key h = Ok VNone).
Proof.
  intros He Hok Hkey. unfold get_item. rewrite He.
  unfold py_eq. rewrite bool_decide_eq_false_2 by done.
  by apply get_item_loop_spec.
Qed.

(** X5: on an entry whose items are well-formed strings,
    [update_item(key, value)] with a key other than [None] ends
    normally and assigns the value to every item that carries the key,
    not to the first one only; every other string of the store is as it
    was; with a key other than "Title" the groups and entries are as
    they were too; and the item that [get_item(key)] returned before is
    the one it returns after, now holding the value. *)
Theorem update_item_assigns_every_match (h : list Obj) (e : objid) (ent : KeeEntry)
    (key v : PyVal) :
  h !! e = Some (OEntry ent) →
  Forall (string_ok h) (e_items ent) →
  key ≠ VNone →
  ∃ h', update_item e key v h = Ok h' ∧
        (∀ s d, h !! s = Some (OString d) →
           h' !! s = Some (OString (if bool_decide (s ∈ e_items ent ∧ d !! "key" = Some key)
                                    then <["value" := v]> d else d))) ∧
        (key ≠ VStr "Title" →
           ∀ q o, h !! q = Some o → (∀ d, o ≠ OString d) → h' !! q = Some o) ∧
        (∀ s, get_item e key h = Ok (VRef s) →
              get_item e key h' = Ok (VRef s) ∧ get_string_attr h' s "value" = Ok v).
Proof.
  intros He Hok Hkey.
  destruct (update_item_loop_spec key v (e_items ent) h Hok)
    as (h' & Hloop & Hshape & Hstr & Hnd).
  exists h'. split_and!.
  - unfold update_item. rewrite He. unfold py_eq.
    by rewrite bool_decide_eq_false_2.
  - done.
  - intros Hnt q o Hq Hnq. by destruct (Hnd q o Hq Hnq) as [?|[? _]].
  - intros s Hget.
    unfold get_item in Hget. rewrite He in Hget. unfold py_eq in Hget.
    rewrite bool_decide_eq_false_2 in Hget by done.
    destruct (get_item_loop_spec h key (e_items ent) Hok)
      as [(i & s0 & Hi & Hs0 & Hfirst & Hres)|[_ Hres]];
      [|rewrite Hres in Hget; discriminate].
    rewrite Hres in Hget. injection Hget as <-.
    assert (Hin : s0 ∈ e_items ent) by by eapply list_elem_of_lookup_2.
    assert (Hkeys : ∀ s, s ∈ e_items ent →
              get_string_attr h' s "key" = get_string_attr h s "key").
    { intros s Hs. rewrite Forall_forall in Hok.
      destruct (Hok s Hs) as (d & Hd & _). destruct Hshape as (_ & A2 & _).
      destruct (A2 s d Hd) as (d' & Hd' & Hk' & _).
      unfold get_string_attr, dict_get. by rewrite Hd, Hd', Hk'. }
    split.
    + pose proof Hshape as (_ & _ & A3). destruct (A3 e ent He) as (ent' & He' & Hitems).
      assert (Hok' : Forall (string_ok h') (e_items ent)).
      { eapply Forall_impl; [exact Hok|]. intros s. by apply keeps_shape_string_ok. }
      unfold get_item. rewrite He', Hitems. unfold py_eq.
      rewrite bool_decide_eq_false_2 by done.
      destruct (get_item_loop_spec h' key (e_items ent) Hok')
        as [(i' & s' & Hi' & Hs' & Hfirst' & Hres')|[Hnone _]].
      * rewrite Hres'. do 2 f_equal.
        destruct (Nat.lt_trichotomy i i') as [Hlt|[->|Hlt]].
        -- exfalso. apply (Hfirst' i s0 Hlt Hi). by rewrite Hkeys.
        -- congruence.
        -- exfalso. apply (Hfirst i' s' Hlt Hi').
           rewrite <- Hkeys; [done|]. by eapply list_elem_of_lookup_2.
      * exfalso. apply (Hnone s0 Hin). by rewrite Hkeys.
    + rewrite Forall_forall in Hok. destruct (Hok s0 Hin) as (d & Hd & _).
      unfold get_string_attr in Hs0 |- *. rewrite Hd in Hs0.
      rewrite (Hstr s0 d Hd). unfold dict_get in Hs0 |- *.
      destruct (d !! "key") as [k|] eqn:Hk; [|discriminate]. injection Hs0 as ->.
      rewrite bool_decide_eq_true_2 by done. by rewrite lookup_insert_eq.
Qed.

(** X6: [update_item] with a key that no item of the entry carries
    changes nothing and does not raise. *)
Theorem update_item_without_match_is_silent (h : list Obj) (e : objid)
    (ent : KeeEntry) (key v : PyVal) :
  h !! e = Some (OEntry ent) →
  Forall (string_ok h) (e_items ent) →
  (∀ s, s ∈ e_items ent → get_string_attr h s "key" ≠ Ok key) →
  update_item e key v h = Ok h.
Proof.
  intros He Hok Hnone. unfold update_item. rewrite He.
  destruct (py_eq key VNone); [done|].
  induction (e_items ent) as [|item rest IH]; [done|].
  apply Forall_cons in Hok as [Hitem Hrest].
  destruct (string_ok_key h item Hitem) as [k Hk].
  cbn [update_item_loop]. rewrite Hk, bind_Ok_l. unfold py_eq.
  rewrite bool_decide_eq_false_2.
  - rewrite bind_Ok_l. apply IH; [done|].
    intros s Hs. apply Hnone. by right.
  - intros ->. apply (Hnone item); [by left | done].
Qed.

(** *** The draft of an edit *)

Lemma dict_lookup_set_ne (k k' : string) (v : PyVal) (d : list (string * PyVal)) :
  k ≠ k' → dict_lookup k (dict_set k' v d) = dict_lookup k d.
Proof.
  intros Hne. induction d as [|[k0 v0] d IH]; simpl.
  - by rewrite bool_decide_eq_false_2.
  - case_bool_decide as Hk; simpl.
    + subst k0. by rewrite !bool_decide_eq_false_2.
    + by rewrite IH.
Qed.

Lemma keys_dict_set_in (k : string) (v : PyVal) (d : list (string * PyVal)) :
  k ∈ keys d → keys (dict_set k v d) = keys d.
Proof.
  induction d as [|[k0 v0] d IH]; simpl; intros Hin.
  - by apply elem_of_nil in Hin.
  - case_bool_decide as Hk; simpl; [done|]. f_equal. apply IH.
    apply elem_of_cons in Hin as [->|Hin]; done.
Qed.

Lemma keys_dict_set_notin (k : string) (v : PyVal) (d : list (string * PyVal)) :
  k ∉ keys d → keys (dict_set k v d) = (keys d ++ [k])%list.
Proof.
  induction d as [|[k0 v0] d IH]; simpl; intros Hin; [done|].
  apply not_elem_of_cons in Hin as [Hne Hin].
  rewrite bool_decide_eq_false_2 by done. simpl. f_equal. by apply IH.
Qed.

Lemma dict_set_notin (k : string) (v : PyVal) (d : list (string * PyVal)) :
  k ∉ keys d → dict_set k v d = (d ++ [(k, v)])%list.
Proof.
  induction d as [|[k0 v0] d IH]; simpl; intros Hin; [done|].
  apply not_elem_of_cons in Hin as [Hne Hin].
  rewrite bool_decide_eq_false_2 by done. f_equal. by apply IH.
Qed.

Lemma get_string_attr_raises (h : list Obj) (s : objid) (attr : string) (e : exn) :
  get_string_attr h s attr = Raise e → e = AttributeError.
Proof.
  unfold get_string_attr, dict_get.
  destruct (h !! s) as [[g|en|d]|]; try congruence.
  destruct (d !! attr); congruence.
Qed.

Lemma get_item_unfold (h : list Obj) (e : objid) (ent : KeeEntry) (name : string) :
  h !! e = Some (OEntry ent) →
  get_item e (VStr name) h = get_item_loop (e_items ent) (VStr name) h.
Proof. intros He. unfold get_item. by rewrite He. Qed.

Lemma fill_from_entry_missing (h : list Obj) (o : objid) (ent : KeeEntry)
    (name : string) (names : list string) :
  h !! o = Some (OEntry ent) →
  Forall (string_ok h) (e_items ent) →
  (∀ s, s ∈ e_items ent → get_string_attr h s "key" ≠ Ok (VStr name)) →
  name ∈ names →
  ∀ d, fill_from_entry names o h d = Raise AttributeError.
Proof.
  intros Ho Hok Hnone. induction names as [|n rest IH]; intros Hin d.
  - by apply elem_of_nil in Hin.
  - cbn [fill_from_entry]. rewrite (get_item_unfold h o ent n Ho).
    destruct (get_item_loop_spec h (VStr n) (e_items ent) Hok)
      as [(i & s & Hi & Hs & _ & Hres)|[_ Hres]]; rewrite Hres, bind_Ok_l; [|done].
    destruct (get_string_attr h s "value") as [v|ex] eqn:Hv.
    + rewrite bind_Ok_l. apply IH.
      apply elem_of_cons in Hin as [->|Hin]; [|done].
      exfalso. apply (Hnone s); [by eapply list_elem_of_lookup_2 | done].
    + by rewrite (get_string_attr_raises _ _ _ _ Hv).
Qed.

Lemma AddEditState_init_entry (h : list Obj) (o : objid) (ent : KeeEntry) :
  h !! o = Some (OEntry ent) →
  AddEditState_init None (VRef o) h =
  fields1 ← fill_from_entry ["Title"; "UserName"; "Password"; "URL"; "Notes"] o h
              [("Title", VNone); ("UserName", VNone); ("Password", VNone);
               ("URL", VNone); ("Notes", VNone)];
  Ok (mkAddEditState ENTRY EDIT fields1 ["Title"; "Password"] "Title").
Proof.
  intros Ho. unfold AddEditState_init, py_eq. cbn [get_type]. rewrite Ho.
  rewrite (bool_decide_eq_false_2 (VRef o = VNone)) by done.
  rewrite !bind_Ok_l. cbv beta iota.
  by rewrite (bool_decide_eq_true_2 (VEnum ENTRY = VEnum ENTRY)) by done.
Qed.

(** X7: starting the edit of an entry that lacks a string for one of
    the five draft fields (Title, UserName, Password, URL, Notes)
    raises [AttributeError]: no draft is built. *)
Theorem edit_of_entry_without_a_field_raises (h : list Obj) (o : objid)
    (ent : KeeEntry) (name : string) :
  h !! o = Some (OEntry ent) →
  Forall (string_ok h) (e_items ent) →
  name ∈ ["Title"; "UserName"; "Password"; "URL"; "Notes"] →
  (∀ s, s ∈ e_items ent → get_string_attr h s "key" ≠ Ok (VStr name)) →
  AddEditState_init None (VRef o) h = Raise AttributeError.
Proof.
  intros Ho Hok Hin Hnone. rewrite (AddEditState_init_entry h o ent Ho).
  by rewrite (fill_from_entry_missing h o ent name _ Ho Hok Hnone Hin).
Qed.

Lemma fill_from_entry_spec (h : list Obj) (o : objid) (ent : KeeEntry)
    (names : list string) :
  h !! o = Some (OEntry ent) →
  Forall (string_ok h) (e_items ent) →
  Forall (fun s => ∃ v, get_string_attr h s "value" = Ok v) (e_items ent) →
  (∀ n, n ∈ names → ∃ s, s ∈ e_items ent ∧ get_string_attr h s "key" = Ok (VStr n)) →
  ∀ d, names ⊆ keys d →
  ∃ d', fill_from_entry names o h d = Ok d' ∧
        keys d' = keys d ∧
        (∀ n, n ∉ names → dict_lookup n d' = dict_lookup n d) ∧
        (∀ n s, n ∈ names → get_item o (VStr n) h = Ok (VRef s) →
           ∃ v, get_string_attr h s "value" = Ok v ∧ dict_lookup n d' = Some v).
Proof.
  intros Ho Hok Hval. induction names as [|n rest IH]; intros Hall d Hsub.
  - exists d. split_and!; [done | done | done |]. intros n s Hn. by apply elem_of_nil in Hn.
  - cbn [fill_from_entry]. rewrite (get_item_unfold h o ent n Ho).
    destruct (get_item_loop_spec h (VStr n) (e_items ent) Hok)
      as [(i & s & Hi & Hs & _ & Hres)|[Hnone _]].
    2: { destruct (Hall n) as (s & Hs & Hk); [by left|]. by destruct (Hnone s Hs). }
    rewrite Hres, bind_Ok_l.
    assert (Hin : s ∈ e_items ent) by by eapply list_elem_of_lookup_2.
    rewrite Forall_forall in Hval. destruct (Hval s Hin) as [v Hv].
    rewrite Hv, bind_Ok_l.
    assert (Hnk : n ∈ keys d) by (apply Hsub; by left).
    destruct (IH (fun n' Hn' => Hall n' (list_elem_of_further _ _ _ Hn'))
                 (dict_set n v d)) as (d' & Hfill & Hkeys & Hout & Hin').
    { rewrite keys_dict_set_in by done. intros n' Hn'. apply Hsub. by right. }
    exists d'. split_and!; [done | | |].
    + by rewrite Hkeys, keys_dict_set_in.
    + intros n' Hn'. apply not_elem_of_cons in Hn' as [Hne Hn'].
      rewrite (Hout n' Hn'). by apply dict_lookup_set_ne.
    + intros n' s' Hn' Hget.
      destruct (decide (n' ∈ rest)) as [Hr|Hr]; [by apply Hin'|].
      apply elem_of_cons in Hn' as [->|Hn']; [|done].
      rewrite (get_item_unfold h o ent n Ho), Hres in Hget. injection Hget as <-.
      exists v. split; [done|]. rewrite (Hout n Hr). apply dict_lookup_set.
Qed.

(** X8: starting the edit of an entry whose items are well-formed
    strings with values, one at least for each of the five draft
    fields, builds an Edit draft with the cursor on Title, whose fields
    are the five in their fixed order, each holding the value of the
    string that [get_item] returns for it: the first one with that
    key. *)
Theorem edit_of_entry_shows_first_values (h : list Obj) (o : objid) (ent : KeeEntry) :
  h !! o = Some (OEntry ent) →
  Forall (string_ok h) (e_items ent) →
  Forall (fun s => ∃ v, get_string_attr h s "value" = Ok v) (e_items ent) →
  (∀ n, n ∈ ["Title"; "UserName"; "Password"; "URL"; "Notes"] →
        ∃ s, s ∈ e_items ent ∧ get_string_attr h s "key" = Ok (VStr n)) →
  ∃ a, AddEditState_init None (VRef o) h = Ok a ∧
       aes_type a = ENTRY ∧ process_type a = EDIT ∧ current_field a = "Title" ∧
       keys (fields a) = ["Title"; "UserName"; "Password"; "URL"; "Notes"] ∧
       (∀ n s, n ∈ ["Title"; "UserName"; "Password"; "URL"; "Notes"] →
          get_item o (VStr n) h = Ok (VRef s) →
          ∃ v, get_string_attr h s "value" = Ok v ∧ dict_lookup n (fields a) = Some v).
Proof.
  intros Ho Hok Hval Hall.
  destruct (fill_from_entry_spec h o ent ["Title"; "UserName"; "Password"; "URL"; "Notes"]
              Ho Hok Hval Hall
              [("Title", VNone); ("UserName", VNone); ("Password", VNone);
               ("URL", VNone); ("Notes", VNone)])
    as (d' & Hfill & Hkeys & _ & Hin); [done|].
  eexists. split.
  - rewrite (AddEditState_init_entry h o ent Ho), Hfill. reflexivity.
  - split_and!; done.
Qed.

(** X9: [generate_password] touches no field of the draft but
    Password.  On a draft that has the field its place is kept; on a
    draft without it, as the draft of a group is, the field is added
    after the others. *)
Theorem generate_password_touches_password_only (choice : list nat) (a : AddEditState) :
  (∀ k, k ≠ "Password" →
        dict_lookup k (fields (generate_password choice a)) = dict_lookup k (fields a)) ∧
  ("Password" ∈ keys (fields a) →
     keys (fields (generate_password choice a)) = keys (fields a)) ∧
  ("Password" ∉ keys (fields a) →
     ∃ pw, fields (generate_password choice a) =
             (fields a ++ [("Password", VStr pw)])%list).
Proof.
  unfold generate_password, set_cur_field_value, set_cur_field; cbn [fields current_field].
  split_and!.
  - intros k Hk. by apply dict_lookup_set_ne.
  - apply keys_dict_set_in.
  - intros Hnot. eexists. by apply dict_set_notin.
Qed.

(** *** [delete] *)

Lemma list_remove_first (x : objid) (l : list objid) :
  x ∈ l →
  ∃ l1 l2, l = (l1 ++ x :: l2)%list ∧ (x ∉ l1) ∧ list_remove x l = Ok (l1 ++ l2)%list.
Proof.
  induction l as [|y l IH]; intros Hin; [by apply elem_of_nil in Hin|].
  cbn [list_remove]. case_bool_decide as Hy.
  - subst y. exists [], l. split_and!; [done | apply not_elem_of_nil | done].
  - apply elem_of_cons in Hin as [->|Hin]; [done|].
    destruct (IH Hin) as (l1 & l2 & -> & Hl1 & ->).
    exists (y :: l1), l2. split_and!; [done | | done].
    apply not_elem_of_cons. split; [congruence | done].
Qed.

Lemma list_remove_absent (x : objid) (l : list objid) :
  x ∉ l → list_remove x l = Raise ValueError.
Proof.
  induction l as [|y l IH]; intros Hin; [done|].
  apply not_elem_of_cons in Hin as [Hne Hin].
  cbn [list_remove]. rewrite bool_decide_eq_false_2 by congruence.
  by rewrite (IH Hin).
Qed.

Lemma update_kdb_in_db_keeps (st st' : KeePass) :
  update_kdb_in_db st = Ok st' →
  heap st' = heap st ∧ active_item st' = active_item st ∧
  search_group st' = search_group st ∧ root_group st' = root_group st ∧
  add_edit_state st' = add_edit_state st.
Proof.
  unfold update_kdb_in_db. intros H.
  destruct (_root_obj st) as [root_obj|]; [|discriminate H].
  destruct (root_group st) as [| | | | | |r] eqn:Hr; try discriminate H.
  apply bind_Ok in H as (t & _ & H).
  apply bind_Ok in H as ([doc tick] & _ & H).
  apply bind_Ok in H as (n & _ & H).
  destruct n; try discriminate H. injection H as <-.
  by rewrite <- Hr.
Qed.

Lemma delete_unfold (st : KeePass) (self p : objid) (g : KeeGroup) :
  is_node (heap st) self →
  get_parent (heap st) (VRef self) = Ok (VRef p) →
  heap st !! p = Some (OGroup g) →
  delete self st =
  l ← list_remove self (g_items g);
  update_kdb_in_db
    (with_heap (<[p := OGroup (g_with_items l g)]> (heap st))
       (with_active_item (VRef p)
          (if py_eq (active_item st) (search_group st)
           then with_search_group VNone st else st))).
Proof.
  intros Hnode Hpar Hp. apply is_node_lookup in Hnode as (o & Ho & Hno).
  unfold delete, deactivate. rewrite Ho.
  assert (Hheap : heap (if py_eq (active_item st) (search_group st)
                        then with_search_group VNone st else st) = heap st)
    by by destruct (py_eq _ _).
  destruct o as [go|eo|d]; [| |by destruct (Hno d)].
  - rewrite Hheap, Hpar, !bind_Ok_l. cbn [heap with_active_item].
    unfold remove_from_parent. rewrite Hheap, Hpar, bind_Ok_l, Hp.
    by destruct (list_remove self (g_items g)).
  - rewrite Hheap, Hpar, !bind_Ok_l. cbn [heap with_active_item].
    unfold remove_from_parent. rewrite Hheap, Hpar, bind_Ok_l, Hp.
    by destruct (list_remove self (g_items g)).
Qed.

(** X10: [delete] on a group or an entry that its parent group lists
    is the save, by [update_kdb_in_db], of the session in which the
    first occurrence of the node is taken out of the parent's items,
    the parent is the active node, and the search group is dropped if
    it was the active node.  When it returns, that is the store it
    leaves: no other object is touched, and the node itself stays in
    the store. *)
Theorem delete_detaches_node (st : KeePass) (self p : objid) (g : KeeGroup) :
  is_node (heap st) self →
  get_parent (heap st) (VRef self) = Ok (VRef p) →
  heap st !! p = Some (OGroup g) →
  self ∈ g_items g →
  ∃ l1 l2,
    g_items g = (l1 ++ self :: l2)%list ∧ (self ∉ l1) ∧
    delete self st =
      update_kdb_in_db
        (with_heap (<[p := OGroup (g_with_items (l1 ++ l2)%list g)]> (heap st))
           (with_active_item (VRef p)
              (if py_eq (active_item st) (search_group st)
               then with_search_group VNone st else st))) ∧
    ∀ st', delete self st = Ok st' →
      heap st' = <[p := OGroup (g_with_items (l1 ++ l2)%list g)]> (heap st) ∧
      active_item st' = VRef p ∧
      root_group st' = root_group st.
Proof.
  intros Hnode Hpar Hp Hin.
  destruct (list_remove_first self (g_items g) Hin) as (l1 & l2 & Hitems & Hl1 & Hrem).
  exists l1, l2.
  assert (Hdel := delete_unfold st self p g Hnode Hpar Hp).
  rewrite Hrem, bind_Ok_l in Hdel.
  split_and!; [done | done | done |].
  intros st' Hst'. rewrite Hdel in Hst'.
  apply update_kdb_in_db_keeps in Hst' as (Hh & Ha & _ & Hr & _).
  rewrite Hh, Ha, Hr. cbn [heap active_item root_group with_heap with_active_item].
  split_and!; [done | done |]. by destruct (py_eq _ _).
Qed.

(** X11: [delete] on a group or an entry that its parent does not list
    raises [ValueError] and saves nothing.  The root group, which is
    its own parent, and the overlay group of a search, which names the
    node that was active as its parent, are such nodes. *)
Theorem delete_of_unlisted_node_raises (st : KeePass) (self p : objid) (g : KeeGroup) :
  is_node (heap st) self →
  get_parent (heap st) (VRef self) = Ok (VRef p) →
  heap st !! p = Some (OGroup g) →
  self ∉ g_items g →
  delete self st = Raise ValueError.
Proof.
  intros Hnode Hpar Hp Hin.
  rewrite (delete_unfold st self p g Hnode Hpar Hp).
  by rewrite (list_remove_absent self (g_items g) Hin).
Qed.

(** *** Leaving a search *)

(** The loop of [search] leaves the parent of the overlay group as the
    constructor set it. *)
Lemma search_loop_keeps_overlay_parent (finded : list objid) :
  ∀ (st st' : KeePass) (sg : objid) (g : KeeGroup),
  search_group st = VRef sg → heap st !! sg = Some (OGroup g) →
  search_loop finded st = Ok st' →
  ∃ g', heap st' !! sg = Some (OGroup g') ∧ _parent (g_base g') = _parent (g_base g).
Proof.
  induction finded as [|item rest IH]; intros st st' sg g Hsg Hg Hloop.
  - injection Hloop as <-. eauto.
  - cbn [search_loop] in Hloop.
    destruct (is_KeeEntry (heap st) (VRef item)); [|by eapply IH].
    rewrite KeeEntry_init_fresh in Hloop. cbv beta iota zeta in Hloop.
    cbn [heap with_uuid_drawn with_heap search_group] in Hloop.
    apply bind_Ok in Hloop as (strings & _ & Hloop).
    apply bind_Ok in Hloop as (h1 & Happ & Hloop).
    rewrite Hsg in Hloop.
    apply bind_Ok in Hloop as (h2 & Hgapp & Hloop).
    assert (Hlt : sg < List.length (heap st)) by by eapply lookup_lt_Some.
    assert (Hg1 : h1 !! sg = Some (OGroup g)).
    { rewrite (append_all_other _ _ _ _ Happ sg) by lia.
      by rewrite lookup_app_l. }
    unfold KeeGroup_append in Hgapp. rewrite Hg1 in Hgapp.
    destruct (negb _ && negb _); [discriminate Hgapp|].
    injection Hgapp as <-.
    match type of Hloop with search_loop rest ?s = _ => set (st1 := s) in * end.
    assert (Hg2 : ∃ g2, heap st1 !! sg = Some (OGroup g2) ∧
                        _parent (g_base g2) = _parent (g_base g)).
    { eexists. split.
      - unfold st1; cbn [heap with_heap].
        apply list_lookup_insert_eq. by eapply lookup_lt_Some.
      - reflexivity. }
    destruct Hg2 as (g2 & Hg2 & Hp2).
    destruct (IH st1 st' sg g2 Hsg Hg2 Hloop) as (g' & Hg' & Hpar).
    exists g'. split; [done | congruence].
Qed.

(** X12: on a searchable session with an active node, [search]
    followed by [deactivate] on the overlay group (the step back out of
    the results) makes the node that was active before the search the
    active one again, clears the search group, and leaves every object
    that existed before the search as it was. *)
Theorem search_then_back_restores (word : string) (st : KeePass) :
  searchable st →
  active_item st ≠ VNone →
  ∃ st' sg st'',
    search word st = Ok st' ∧
    search_group st' = VRef sg ∧
    deactivate (VRef sg) st' = Ok st'' ∧
    active_item st'' = active_item st ∧
    search_group st'' = VNone ∧
    root_group st'' = root_group st ∧
    (∀ i, i < List.length (heap st) → heap st'' !! i = heap st !! i).
Proof.
  intros Hst Hactive.
  destruct (search_item_returns word st Hst) as [finded_items Hfind].
  destruct (search_spec word st finded_items Hfind)
    as (st' & overlay & Hs & Hsg & Hact & Hroot & Hsame & Hov & _).
  { intros item e _. apply Hst. }
  assert (Hpar : _parent (g_base overlay) = active_item st).
  { pose proof Hs as Hs'. unfold search in Hs'.
    rewrite Hfind, bind_Ok_l, KeeGroup_init_fresh in Hs'. cbv beta iota zeta in Hs'.
    apply bind_Ok in Hs' as (st3 & Hloop & Hs'). injection Hs' as <-.
    match type of Hloop with search_loop _ ?s = _ => set (st2 := s) in * end.
    assert (Hg0 : ∃ g0, heap st2 !! List.length (heap st) = Some (OGroup g0) ∧
                        _parent (g_base g0) = active_item st).
    { eexists. split.
      - unfold st2. cbn [heap with_search_group with_uuid_drawn with_heap].
        by rewrite list_lookup_middle.
      - cbn [g_base _parent]. unfold py_eq. by rewrite bool_decide_eq_false_2. }
    destruct Hg0 as (g0 & Hg0 & Hp0).
    destruct (search_loop_keeps_overlay_parent finded_items st2 st3
                (List.length (heap st)) g0 eq_refl Hg0 Hloop) as (g' & Hg' & Hp).
    cbn [heap activate with_active_item] in Hov. rewrite Hov in Hg'.
    injection Hg' as <-. by rewrite Hp. }
  exists st', (List.length (heap st)).
  eexists. split_and!; [done | done | | | | |].
  - unfold deactivate. rewrite Hact, Hsg. unfold py_eq.
    rewrite bool_decide_eq_true_2 by done.
    cbn [heap with_search_group get_parent]. rewrite Hov, bind_Ok_l. reflexivity.
  - cbn [active_item with_active_item]. exact Hpar.
  - reflexivity.
  - cbn [root_group with_active_item with_search_group]. exact Hroot.
  - cbn [heap with_active_item with_search_group]. exact Hsame.
Qed.

(** *** Looking a node up by its identifier *)

Lemma nodes_nested_unfold (n : nat) (h : list Obj) (i : objid) :
  nodes_nested n h i =
  match h !! i with
  | Some (OEntry e) => True
  | Some (OGroup g) =>
    match n with
    | O => False
    | S n' => Forall (nodes_nested n' h) (g_items g)
    end
  | _ => False
  end.
Proof. by destruct n. Qed.

Lemma nodes_nested_mono (n : nat) (h : list Obj) :
  ∀ m i, (n ≤ m)%nat → nodes_nested n h i → nodes_nested m h i.
Proof.
  induction n as [|n IH]; intros m i Hle; rewrite !nodes_nested_unfold;
    destruct (h !! i) as [[g|e|d]|]; try done.
  intros Hitems. destruct m as [|m]; [lia|].
  eapply Forall_impl; [exact Hitems|]. intros j. apply IH. lia.
Qed.

Lemma listed_trans (h : list Obj) (p q i : objid) :
  listed h p q → listed h q i → listed h p i.
Proof. intros Hpq Hqi. induction Hqi; [done | by eapply listed_item]. Qed.

Lemma listed_inv (h : list Obj) (p i : objid) (g : KeeGroup) :
  h !! p = Some (OGroup g) →
  listed h p i → i = p ∨ ∃ item, item ∈ g_items g ∧ listed h item i.
Proof.
  intros Hp Hl. induction Hl as [|q i gq Hq IH Hgq Hi]; [by left|]. right.
  destruct IH as [->|(item & Hitem & Hlq)].
  - rewrite Hp in Hgq. injection Hgq as <-. exists i. split; [done | apply listed_top].
  - exists item. split; [done|]. by eapply listed_item.
Qed.

Lemma listed_entry (h : list Obj) (p i : objid) (e : KeeEntry) :
  h !! p = Some (OEntry e) → listed h p i → i = p.
Proof.
  intros Hp Hl. induction Hl as [|q i gq Hq IH Hgq Hi]; [done|].
  subst q. rewrite Hp in Hgq. discriminate Hgq.
Qed.

Lemma inner_find_uuid_spec (word : PyVal) (h : list Obj) (n : nat) :
  ∀ p g, h !! p = Some (OGroup g) → nodes_nested n h p →
  ∃ res, inner_find_uuid n word h p = Ok res ∧ uuid_found h word (listed h p) res.
Proof.
  induction n as [|n IH]; intros p g Hp; rewrite nodes_nested_unfold, Hp; [done|].
  intros Hitems. cbn [inner_find_uuid get_uuid get_items]. rewrite Hp, !bind_Ok_l.
  unfold py_eq at 1. case_bool_decide as Hword.
  { eexists. split; [done|]. split; [apply listed_top|].
    cbn [get_uuid]. by rewrite Hp, Hword. }
  assert (Hloop : ∀ items, Forall (nodes_nested n h) items →
    ∃ res, find_uuid_loop (inner_find_uuid n word h) word h items = Ok res ∧
           uuid_found h word (fun i => ∃ item, item ∈ items ∧ listed h item i) res).
  { clear Hitems. intros items Hok.
    induction Hok as [|item rest Hitem _ (res & Hres & Hfound)].
    - exists VNone. split; [done|]. intros i (item & Hin & _). by apply elem_of_nil in Hin.
    - pose proof Hitem as Hitem'. rewrite nodes_nested_unfold in Hitem.
      cbn [find_uuid_loop get_type get_uuid].
      destruct (h !! item) as [[gi|ei|di]|] eqn:Hi; try done.
      + rewrite bind_Ok_l.
        change (py_eq (VEnum GROUP) (VEnum GROUP)) with true. cbv iota.
        destruct (IH item gi Hi Hitem') as (sub & -> & Hsub). rewrite bind_Ok_l.
        destruct sub as [| | | | | |i]; try done; cbn [truthy].
        * rewrite bind_Ok_l. unfold py_eq. case_bool_decide as Hu.
          -- eexists. split; [done|]. split.
             ++ exists item. split; [by left | apply listed_top].
             ++ cbn [get_uuid]. by rewrite Hi, Hu.
          -- exists res. split; [done|].
             destruct res as [| | | | | |i]; try done.
             ++ intros i (item' & Hin & Hl).
                apply elem_of_cons in Hin as [->|Hin]; [by apply Hsub|].
                apply Hfound. eauto.
             ++ destruct Hfound as [(item' & Hin & Hl) Hfu]. split; [|done].
                exists item'. split; [by right | done].
        * eexists. split; [done|]. destruct Hsub as [Hl Hu]. split; [|done].
          exists item. split; [by left | done].
      + rewrite bind_Ok_l.
        change (py_eq (VEnum ENTRY) (VEnum GROUP)) with false. cbv iota.
        rewrite bind_Ok_l. cbn [truthy]. rewrite bind_Ok_l.
        unfold py_eq. case_bool_decide as Hu.
        * eexists. split; [done|]. split.
          -- exists item. split; [by left | apply listed_top].
          -- cbn [get_uuid]. by rewrite Hi, Hu.
        * exists res. split; [done|].
          destruct res as [| | | | | |i]; try done.
          -- intros i (item' & Hin & Hl).
             apply elem_of_cons in Hin as [->|Hin]; [|apply Hfound; eauto].
             rewrite (listed_entry h item i ei Hi Hl). cbn [get_uuid]. rewrite Hi.
             congruence.
          -- destruct Hfound as [(item' & Hin & Hl) Hfu]. split; [|done].
             exists item'. split; [by right | done]. }
  destruct (Hloop _ Hitems) as (res & -> & Hfound).
  exists res. split; [done|].
  destruct res as [| | | | | |i]; try done.
  - intros i Hl. destruct (listed_inv h p i g Hp Hl) as [->|Hsub].
    + cbn [get_uuid]. rewrite Hp. congruence.
    + by apply Hfound.
  - destruct Hfound as [(item & Hin & Hl) Hu]. split; [|done].
    eapply listed_trans; [|exact Hl].
    eapply listed_item; [apply listed_top | exact Hp | done].
Qed.

(** X13: on an opened session whose scope (the search group when there
    is one, the root group otherwise) heads a tree of groups and
    entries nested no deeper than the interpreter lets calls nest,
    [get_item_by_uuid] returns: a group or an entry that the scope
    lists, directly or through its groups, and whose identifier is the
    one asked for; or [None], and then no node that the scope lists
    carries the identifier. *)
Theorem get_item_by_uuid_finds_listed_node (word : PyVal) (st : KeePass)
    (r : objid) (g : KeeGroup) (n : nat) :
  opened st = true →
  (if truthy (search_group st) then search_group st else root_group st) = VRef r →
  heap st !! r = Some (OGroup g) →
  nodes_nested n (heap st) r →
  (n ≤ recursion_limit)%nat →
  ∃ res, get_item_by_uuid word st = Ok res ∧
    match res with
    | VRef i => listed (heap st) r i ∧ get_uuid (heap st) (VRef i) = Ok word
    | VNone => ∀ i, listed (heap st) r i → get_uuid (heap st) (VRef i) ≠ Ok word
    | _ => False
    end.
Proof.
  intros Hopened Hscope Hr Hnested Hle.
  unfold get_item_by_uuid. rewrite Hopened, Hscope. cbn [negb].
  apply (inner_find_uuid_spec word (heap st) recursion_limit r g Hr).
  by eapply nodes_nested_mono.
Qed.

(** *** What [search_item] finds *)

Lemma name_matches_fun (word : string) (h : list Obj) (i : objid) (b : bool) :
  name_matches word h (VRef i) = Ok b →
  (name_matches word h (VRef i) = Ok true ↔ b = true).
Proof. intros ->. split; congruence. Qed.

(** On a well nested tree [__inner_find] returns the nodes that the
    groups under [p] list and whose name holds the word. *)
Lemma inner_find_spec (word : string) (h : list Obj) (n : nat) :
  ∀ p g, h !! p = Some (OGroup g) → well_nested n h p →
  ∃ l, inner_find n word h p = Ok l ∧
       ∀ i, i ∈ l ↔ listed h p i ∧ name_matches word h (VRef i) = Ok true.
Proof.
  induction n as [|n IH]; intros p g Hp; rewrite well_nested_unfold, Hp.
  - by intros [_ []].
  - intros [[s Hs] Hitems]. cbn [inner_find].
    assert (Hm : name_matches word h (VRef p) = Ok (contains (lower word) (lower s))).
    { apply name_matches_named. cbn [get_name]. by rewrite Hp, Hs. }
    rewrite Hm.
    assert (Hget : get_items h (VRef p) = Ok (g_items g)) by (cbn [get_items]; by rewrite Hp).
    rewrite Hget, !bind_Ok_l.
    assert (Hloop : ∀ items, Forall (well_nested n h) items → ∃ found,
      (fix loop (l : list objid) : Res (list objid) :=
         match l with
         | [] => Ok []
         | item :: rest =>
           t ← get_type h (VRef item);
           sub ← (if py_eq t (VEnum GROUP) then inner_find n word h item else Ok []);
           mi ← name_matches word h (VRef item);
           more ← loop rest;
           Ok (sub ++ (if mi : bool then [item] else []) ++ more)%list
         end) items = Ok found ∧
      ∀ i, i ∈ found ↔ ∃ item, item ∈ items ∧ listed h item i ∧
                               name_matches word h (VRef i) = Ok true).
    { clear Hitems Hget. intros items Hitems.
      induction Hitems as [|item rest Hitem _ (more & Hmore & Hiff)].
      { exists []. split; [done|]. intros i. split.
        - intros Hi. by apply elem_of_nil in Hi.
        - intros (item & Hin & _). by apply elem_of_nil in Hin. }
      pose proof Hitem as Hitem'.
      rewrite well_nested_unfold in Hitem.
      destruct (h !! item) as [[gi|ei|di]|] eqn:Hi; try done.
      - destruct Hitem as [[si Hsi] _].
        destruct (IH item gi Hi Hitem') as (sub & Hsub & Hsubiff).
        assert (Ht : get_type h (VRef item) = Ok (VEnum GROUP))
          by (cbn [get_type]; by rewrite Hi).
        rewrite Ht, bind_Ok_l.
        change (py_eq (VEnum GROUP) (VEnum GROUP)) with true. cbv iota.
        rewrite Hsub, bind_Ok_l.
        assert (Hmi : name_matches word h (VRef item) =
                      Ok (contains (lower word) (lower si))).
        { apply name_matches_named. cbn [get_name]. by rewrite Hi, Hsi. }
        rewrite Hmi, bind_Ok_l, Hmore. eexists. split; [done|].
        intros i. rewrite !elem_of_app, Hsubiff, Hiff. split.
        + intros [[Hl Hn]|[Hin|(item' & Hin & Hl & Hn)]].
          * exists item. split_and!; [by left | done | done].
          * destruct (contains (lower word) (lower si)) eqn:Hc;
              [|by apply elem_of_nil in Hin].
            apply list_elem_of_singleton in Hin as ->.
            exists item. split_and!; [by left | apply listed_top | by rewrite Hmi].
          * exists item'. split_and!; [by right | done | done].
        + intros (item' & Hin & Hl & Hn).
          apply elem_of_cons in Hin as [->|Hin]; [by left|].
          right. right. eauto.
      - destruct Hitem as [si Hsi].
        assert (Ht : get_type h (VRef item) = Ok (VEnum ENTRY))
          by (cbn [get_type]; by rewrite Hi).
        rewrite Ht, bind_Ok_l.
        change (py_eq (VEnum ENTRY) (VEnum GROUP)) with false. cbv iota.
        rewrite bind_Ok_l.
        assert (Hmi : name_matches word h (VRef item) =
                      Ok (contains (lower word) (lower si))).
        { apply name_matches_named. cbn [get_name]. by rewrite Hi, Hsi. }
        rewrite Hmi, bind_Ok_l, Hmore. eexists. split; [done|].
        intros i. cbn [app]. rewrite elem_of_app, Hiff. split.
        + intros [Hin|(item' & Hin & Hl & Hn)].
          * destruct (contains (lower word) (lower si)) eqn:Hc;
              [|by apply elem_of_nil in Hin].
            apply list_elem_of_singleton in Hin as ->.
            exists item. split_and!; [by left | apply listed_top | by rewrite Hmi].
          * exists item'. split_and!; [by right | done | done].
        + intros (item' & Hin & Hl & Hn).
          apply elem_of_cons in Hin as [->|Hin]; [|right; eauto].
          left. rewrite (listed_entry h item i ei Hi Hl) in Hn |- *.
          rewrite Hmi in Hn. injection Hn as ->. by left. }
    destruct (Hloop _ Hitems) as (found & -> & Hiff). eexists. split; [done|].
    intros i. rewrite elem_of_app, Hiff. split.
    + intros [Hin|(item & Hin & Hl & Hn)].
      * destruct (contains (lower word) (lower s)) eqn:Hc;
          [|by apply elem_of_nil in Hin].
        apply list_elem_of_singleton in Hin as ->.
        split; [apply listed_top | by rewrite Hm].
      * split; [|done]. eapply listed_trans; [|exact Hl].
        eapply listed_item; [apply listed_top | exact Hp | done].
    + intros [Hl Hn]. destruct (listed_inv h p i g Hp Hl) as [->|(item & Hin & Hli)].
      * left. rewrite Hm in Hn. injection Hn as ->. by left.
      * right. eauto.
Qed.

Lemma append_cons (c : ascii) (s1 s2 : string) :
  String c s1 +:+ s2 = String c (s1 +:+ s2).
Proof. reflexivity. Qed.

(** [w in s]: [s] is [w] between two strings. *)
Lemma prefix_app (w s : string) :
  String.prefix w s = true ↔ ∃ post, s = w +:+ post.
Proof.
  revert s. induction w as [|a w IH]; intros [|b s]; simpl.
  - split; [by exists "" | done].
  - split; [by eexists | done].
  - split; [done | by intros [post Hpost]].
  - destruct (ascii_dec a b) as [->|Hab].
    + rewrite IH. split; intros [post Hpost]; exists post;
        rewrite append_cons in *; congruence.
    + split; [done|]. intros [post Hpost]. rewrite append_cons in Hpost. congruence.
Qed.

Lemma contains_app (w s : string) :
  contains w s = true ↔ ∃ pre post, s = pre +:+ w +:+ post.
Proof.
  induction s as [|c s IH]; cbn [contains].
  - rewrite orb_false_r, prefix_app. split.
    + intros [post Hpost]. by exists "", post.
    + intros (pre & post & Hs). destruct pre as [|c pre]; [by exists post | done].
  - rewrite orb_true_iff, prefix_app, IH. split.
    + intros [[post Hpost]|(pre & post & Hs)].
      * by exists "", post.
      * exists (String c pre), post. by rewrite append_cons, Hs.
    + intros (pre & post & Hs). destruct pre as [|c' pre].
      * left. by exists post.
      * right. exists pre, post. rewrite append_cons in Hs. congruence.
Qed.

Lemma name_matches_true (word : string) (h : list Obj) (i : objid) :
  name_matches word h (VRef i) = Ok true ↔
  ∃ s pre post, get_name h (VRef i) = Ok (VStr s) ∧
                lower s = pre +:+ lower word +:+ post.
Proof.
  unfold name_matches. split.
  - intros H. apply bind_Ok in H as (n & Hn & H).
    destruct n as [|s| | | | |]; try done. injection H as H.
    apply contains_app in H as (pre & post & H). by exists s, pre, post.
  - intros (s & pre & post & -> & Hs). rewrite bind_Ok_l. f_equal.
    apply contains_app. by exists pre, post.
Qed.

Lemma lower_bytes_app (s1 s2 : string) :
  lower_bytes (s1 +:+ s2) = lower_bytes s1 +:+ lower_bytes s2.
Proof.
  induction s1 as [|c s1 IH]; [done|].
  rewrite append_cons. cbn [lower_bytes]. by rewrite IH, append_cons.
Qed.

Lemma is_ascii_app (s1 s2 : string) :
  is_ascii (s1 +:+ s2) = is_ascii s1 && is_ascii s2.
Proof.
  induction s1 as [|c s1 IH]; [done|].
  rewrite append_cons. cbn [is_ascii]. by rewrite IH, andb_assoc.
Qed.

Lemma same_letter_lower (a b : ascii) :
  same_letter a b = true → lower_ascii a = lower_ascii b.
Proof.
  unfold same_letter, lower_ascii, capital.
  pose proof (ascii_nat_embedding a) as Ha. pose proof (ascii_nat_embedding b) as Hb.
  set (m := nat_of_ascii a) in *. set (n := nat_of_ascii b) in *.
  intros H. apply orb_prop in H as [H|H]; [apply orb_prop in H as [H|H]|].
  - apply Nat.eqb_eq in H. rewrite H in Ha. rewrite <- Ha, <- Hb. by rewrite H.
  - apply andb_prop in H as [Hc H]. apply Nat.eqb_eq in H. rewrite Hc.
    apply andb_prop in Hc as [H1 H2]. apply Nat.leb_le in H1, H2.
    rewrite (proj2 (Nat.leb_gt n 90)) by lia. rewrite andb_false_r.
    by rewrite <- Hb, H.
  - apply andb_prop in H as [Hc H]. apply Nat.eqb_eq in H. rewrite Hc.
    apply andb_prop in Hc as [H1 H2]. apply Nat.leb_le in H1, H2.
    rewrite (proj2 (Nat.leb_gt m 90)) by lia. rewrite andb_false_r.
    by rewrite <- Ha, H.
Qed.

Lemma same_letter_ascii (a b : ascii) :
  same_letter a b = true →
  (nat_of_ascii a <? 128)%nat = true → (nat_of_ascii b <? 128)%nat = true.
Proof.
  unfold same_letter, capital. intros H Ha. apply Nat.ltb_lt in Ha. apply Nat.ltb_lt.
  apply orb_prop in H as [H|H]; [apply orb_prop in H as [H|H]|].
  - apply Nat.eqb_eq in H. lia.
  - apply andb_prop in H as [Hc H]. apply Nat.eqb_eq in H.
    apply andb_prop in Hc as [H1 H2]. apply Nat.leb_le in H1, H2. lia.
  - apply andb_prop in H as [Hc H]. apply Nat.eqb_eq in H. lia.
Qed.

(** Words of ASCII characters that differ in letter case have the same
    lower case. *)
Lemma same_letters_lower (w1 w2 : string) :
  is_ascii w1 = true → same_letters w1 w2 = true →
  is_ascii w2 = true ∧ lower w1 = lower w2.
Proof.
  intros H1 H.
  assert (Hboth : is_ascii w2 = true ∧ lower_bytes w1 = lower_bytes w2).
  { revert w2 H1 H. induction w1 as [|a w1 IH]; intros [|b w2] H1 H; try done.
    cbn [same_letters is_ascii lower_bytes] in *.
    apply andb_prop in H1 as [Ha H1]. apply andb_prop in H as [Hab H].
    destruct (IH w2 H1 H) as [H2 Heq].
    by rewrite (same_letter_ascii a b Hab Ha), H2, (same_letter_lower a b Hab), Heq. }
  destruct Hboth as [H2 Heq]. split; [done|]. unfold lower. by rewrite H1, H2.
Qed.

(** X14: on a searchable session [search_item] returns, and the nodes
    in its list are exactly the groups and entries that the root group
    lists, directly or through its groups, and whose name in lower case
    has the word in lower case as a substring.  So a listed node whose
    name is made of ASCII characters is found when the name holds, as
    written, a word that differs from the one searched only in the case
    of its letters. *)
Theorem search_item_finds_exactly_the_matches (word : string) (st : KeePass) :
  searchable st →
  ∃ r finded_items,
    root_group st = VRef r ∧
    search_item word st = Ok finded_items ∧
    (∀ i, i ∈ finded_items ↔
          listed (heap st) r i ∧
          ∃ s pre post, get_name (heap st) (VRef i) = Ok (VStr s) ∧
                        lower s = pre +:+ lower word +:+ post) ∧
    (∀ i pre w post,
       listed (heap st) r i →
       get_name (heap st) (VRef i) = Ok (VStr (pre +:+ w +:+ post)) →
       is_ascii (pre +:+ w +:+ post) = true →
       same_letters w word = true →
       i ∈ finded_items).
Proof.
  intros (Hopened & (r & n & Hroot & Hgroup & Hnested & Hle) & _).
  unfold is_KeeGroup in Hgroup.
  destruct (heap st !! r) as [[g| |]|] eqn:Hr; try discriminate Hgroup.
  destruct (inner_find_spec word (heap st) recursion_limit r g Hr) as (l & Hl & Hiff).
  { eapply well_nested_mono; [exact Hle | exact Hnested]. }
  assert (Hiff' : ∀ i, i ∈ l ↔
            listed (heap st) r i ∧
            ∃ s pre post, get_name (heap st) (VRef i) = Ok (VStr s) ∧
                          lower s = pre +:+ lower word +:+ post).
  { intros i. by rewrite Hiff, name_matches_true. }
  exists r, l. split; [done|]. split; [|split; [exact Hiff'|]].
  - unfold search_item. rewrite Hopened, Hroot. cbn [negb]. exact Hl.
  - intros i pre w post Hlisted Hname Hascii Hsame.
    apply Hiff'. split; [done|].
    exists (pre +:+ w +:+ post), (lower_bytes pre), (lower_bytes post).
    split; [done|].
    pose proof Hascii as Hparts.
    rewrite !is_ascii_app in Hparts.
    apply andb_prop in Hparts as [_ Hparts]. apply andb_prop in Hparts as [Hw _].
    destruct (same_letters_lower w word Hw Hsame) as [_ <-].
    unfold lower. by rewrite Hascii, Hw, !lower_bytes_app.
Qed.

(** *** Letter case *)

Lemma name_matches_same_lower (w1 w2 : string) (h : list Obj) (item : PyVal) :
  lower w1 = lower w2 → name_matches w1 h item = name_matches w2 h item.
Proof. intros H. unfold name_matches. by rewrite H. Qed.

Lemma inner_find_same_lower (w1 w2 : string) (h : list Obj) (fuel : nat) :
  lower w1 = lower w2 →
  ∀ p, inner_find fuel w1 h p = inner_find fuel w2 h p.
Proof.
  intros Hw. induction fuel as [|fuel IH]; intros p; [done|].
  cbn [inner_find]. rewrite (name_matches_same_lower w1 w2 h _ Hw).
  destruct (name_matches w2 h (VRef p)) as [m|]; [|done]. rewrite !bind_Ok_l.
  destruct (get_items h (VRef p)) as [items|]; [|done]. rewrite !bind_Ok_l.
  f_equal. induction items as [|item rest IHl]; [done|].
  rewrite IHl, (name_matches_same_lower w1 w2 h _ Hw).
  destruct (get_type h (VRef item)) as [t|]; [|done]. rewrite !bind_Ok_l.
  destruct (py_eq t (VEnum GROUP)); [by rewrite IH | done].
Qed.

(** X15: [search_item] does not tell the letter case of a word of
    ASCII characters: two such words that differ only in the case of
    their letters A to Z give the same result, list or exception, on
    every session. *)
Theorem search_item_ignores_case_of_word (w1 w2 : string) (st : KeePass) :
  is_ascii w1 = true →
  same_letters w1 w2 = true →
  search_item w1 st = search_item w2 st.
Proof.
  intros Hascii Hsame.
  destruct (same_letters_lower w1 w2 Hascii Hsame) as [_ Hlower].
  unfold search_item. destruct (negb (opened st)); [reflexivity|].
  destruct (root_group st) as [| | | | | |r]; [reflexivity..|].
  by apply inner_find_same_lower.
Qed.

(** *** What the encoder accepts *)












(** *** A second round trip *)
















(** *** The strings shown for an entry *)

Lemma EntryString_str_outcome (h : list Obj) (s : objid) :
  printable_or_skipped h s →
  (∃ line, EntryString_str h s = Ok line) ∨ EntryString_str h s = Raise TypeError.
Proof.
  intros (d & Hd & [k Hk] & [v Hv]). unfold EntryString_str, get_string_attr, dict_get.
  rewrite Hd, Hv, Hk, !bind_Ok_l.
  destruct k; try (by right).
  destruct (negb (truthy v)); [left; by eexists|].
  destruct v; try (by right). left. by eexists.
Qed.

Lemma entry_lines_loop_slice (h : list Obj) (page : Z) (items : list objid) :
  Forall (printable_or_skipped h) items →
  ∀ i : Z, (0 ≤ i)%Z → (1 ≤ page)%Z →
  entry_lines_loop h page i items =
  Ok (take (Z.to_nat (page * Z.pos NUMBER_OF_ENTRIES_ON_PAGE + 1
                      - Z.max i ((page - 1) * Z.pos NUMBER_OF_ENTRIES_ON_PAGE)))
        (omap (printed h)
           (drop (Z.to_nat ((page - 1) * Z.pos NUMBER_OF_ENTRIES_ON_PAGE - i)) items))).
Proof.
  set (N := Z.pos NUMBER_OF_ENTRIES_ON_PAGE).
  assert (HN : (0 < N)%Z) by (unfold N; lia).
  induction 1 as [|item rest Hitem _ IH]; intros i Hi Hpage.
  - rewrite drop_nil. cbn [omap list_omap]. by rewrite take_nil.
  - cbn [entry_lines_loop]. fold N.
    assert (Hlo : (page * N - N = (page - 1) * N)%Z) by lia. rewrite Hlo.
    destruct (Z.geb_spec (page * N) i) as [Hhi|Hhi];
      destruct (Z.geb_spec i ((page - 1) * N)) as [Hl|Hl]; cbn [andb].
    + replace (Z.to_nat ((page - 1) * N - i)) with 0 by lia. rewrite drop_0.
      cbn [omap list_omap]. unfold printed at 1.
      destruct (EntryString_str_outcome h item Hitem) as [[line ->]| ->].
      * rewrite (IH (i + 1)%Z) by lia. rewrite bind_Ok_l.
        replace (Z.to_nat ((page - 1) * N - (i + 1))) with 0 by lia. rewrite drop_0.
        replace (Z.to_nat (page * N + 1 - Z.max i ((page - 1) * N)))
          with (S (Z.to_nat (page * N + 1 - Z.max (i + 1) ((page - 1) * N)))) by lia.
        done.
      * rewrite (IH i) by lia.
        replace (Z.to_nat ((page - 1) * N - i)) with 0 by lia. by rewrite drop_0.
    + rewrite (IH (i + 1)%Z) by lia.
      replace (Z.to_nat ((page - 1) * N - i))
        with (S (Z.to_nat ((page - 1) * N - (i + 1)))) by lia.
      cbn [drop]. do 2 f_equal. lia.
    + rewrite (IH (i + 1)%Z) by lia.
      replace (Z.to_nat (page * N + 1 - Z.max i ((page - 1) * N))) with 0 by lia.
      replace (Z.to_nat (page * N + 1 - Z.max (i + 1) ((page - 1) * N))) with 0 by lia.
      by rewrite !take_0.
    + lia.
Qed.

(** X18: from page 1 on, for an entry whose strings have a key and a
    value, the lines that the entry branch of [get_message] shows are
    the first [NUMBER_OF_ENTRIES_ON_PAGE + 1] printable ones among the
    strings from index [(page - 1) * NUMBER_OF_ENTRIES_ON_PAGE] on.  A
    string that [str] cannot print (its key is not a string, or its
    value is neither empty nor a string) is left out without using up a
    place, so that strings from beyond the page's own slice move up
    into the page. *)
Theorem entry_lines_skip_unprintable (h : list Obj) (page : Z) (items : list objid) :
  Forall (printable_or_skipped h) items →
  (1 ≤ page)%Z →
  entry_lines h page items =
  Ok (take (S (Pos.to_nat NUMBER_OF_ENTRIES_ON_PAGE))
        (omap (printed h)
           (drop (Z.to_nat ((page - 1) * Z.pos NUMBER_OF_ENTRIES_ON_PAGE)) items))).
Proof.
  intros Hitems Hpage. unfold entry_lines.
  rewrite (entry_lines_loop_slice h page items Hitems) by lia.
  assert (0 ≤ (page - 1) * Z.pos NUMBER_OF_ENTRIES_ON_PAGE)%Z
    by (apply Z.mul_nonneg_nonneg; lia).
  do 2 f_equal; [lia | do 2 f_equal; lia].
Qed.

(** *** Repeated characters in a generated password *)

Lemma password_alphabet_collisions (i j : nat) :
  i < 63 → j < 63 →
  list_ascii_of_string password_alphabet !! i = list_ascii_of_string password_alphabet !! j →
  i = j ∨ (i = 26 ∧ j = 36) ∨ (i = 36 ∧ j = 26).
Proof.
  assert (H : Forall (fun i => Forall (fun j =>
                list_ascii_of_string password_alphabet !! i =
                list_ascii_of_string password_alphabet !! j →
                i = j ∨ (i = 26 ∧ j = 36) ∨ (i = 36 ∧ j = 26)) (seq 0 63)) (seq 0 63)).
  { apply (bool_decide_unpack _). vm_compute. exact I. }
  intros Hi Hj. rewrite Forall_forall in H.
  assert (Hrow := H i ltac:(apply elem_of_seq; lia)).
  rewrite Forall_forall in Hrow. apply Hrow, elem_of_seq. lia.
Qed.

Lemma NoDup_omap_inj {A B : Type} (f : A -> option B) (l : list A) :
  NoDup l →
  (∀ i j x, i ∈ l → j ∈ l → f i = Some x → f j = Some x → i = j) →
  NoDup (omap f l).
Proof.
  induction 1 as [|i l Hi Hl IH]; intros Hinj; [constructor|].
  cbn [omap list_omap].
  assert (Hrest : NoDup (omap f l)).
  { apply IH. intros i' j' x Hi' Hj'. apply Hinj; by right. }
  destruct (f i) as [x|] eqn:Hx; [|done].
  constructor; [|done]. intros Hin.
  apply list_elem_of_omap in Hin as (j & Hj & Hfj).
  assert (i = j) by (eapply Hinj; [by left | by right | done | done]).
  by subst j.
Qed.

(** X19: when the positions that [random.sample] draws do not include
    both 26 and 36, the two places of the character 0 in the
    population, the password that [generate_password] writes has no
    repeated character. *)
Theorem generate_password_distinct_unless_both_zeros (choice : list nat)
    (a : AddEditState) :
  sample_choice (String.length password_alphabet) passlen choice →
  26 ∉ choice ∨ 36 ∉ choice →
  ∃ pw, dict_lookup "Password" (fields (generate_password choice a)) = Some (VStr pw) ∧
        NoDup (list_ascii_of_string pw).
Proof.
  intros (Hlen & Hnd & Hlt) Hzero. eexists. split.
  - unfold generate_password; simpl. apply dict_lookup_set.
  - rewrite list_ascii_of_string_of_list_ascii. unfold rsample.
    apply NoDup_omap_inj; [done|].
    intros i j x Hi Hj Hfi Hfj.
    rewrite Forall_forall in Hlt.
    assert (Hcol := password_alphabet_collisions i j (Hlt i Hi) (Hlt j Hj)
                      (eq_trans Hfi (eq_sym Hfj))).
    destruct Hcol as [Heq|[[-> ->]|[-> ->]]]; [done | by destruct Hzero..].
Qed.

(** *** The field cursor, there and back *)

Lemma set_cur_field_same (a : AddEditState) : set_cur_field (current_field a) a = a.
Proof. by destruct a. Qed.

(** X20: with the cursor on the field at position [i] of a draft,
    [prev_field] undoes [next_field] unless the cursor is on the last
    field, and [next_field] undoes [prev_field] unless it is on the
    first. *)
Theorem field_cursor_steps_undo_each_other (a : AddEditState) (i : nat) :
  NoDup (keys (fields a)) →
  keys (fields a) !! i = Some (current_field a) →
  (S i < List.length (keys (fields a)) → prev_field (next_field a) = Ok a) ∧
  (0 < i → ∃ a', prev_field a = Ok a' ∧ next_field a' = a).
Proof.
  intros Hnd Hi. split.
  - intros Hlt.
    destruct (lookup_lt_is_Some_2 (keys (fields a)) (S i) Hlt) as [k Hk].
    assert (Hnext : next_field a = set_cur_field k a).
    { unfold next_field. by rewrite (next_field_loop_spec _ _ i Hnd Hi), Hk. }
    rewrite Hnext. unfold prev_field. cbn [fields set_cur_field current_field].
    destruct (keys (fields a)) as [|first ks] eqn:Hks; [done|].
    f_equal.
    assert (Hprev : prev_field_loop (first :: ks) first k = current_field a).
    { apply (inj Some). rewrite (prev_field_loop_spec _ first k (S i) Hnd Hk). exact Hi. }
    rewrite Hprev. by destruct a.
  - intros Hpos. destruct i as [|j]; [lia|].
    unfold prev_field.
    destruct (keys (fields a)) as [|first ks] eqn:Hks; [done|].
    pose proof (lookup_lt_Some _ _ _ Hi) as Hlt.
    destruct (lookup_lt_is_Some_2 (first :: ks) j) as [k Hk]; [lia|].
    assert (Hprev : prev_field_loop (first :: ks) first (current_field a) = k).
    { apply (inj Some). rewrite (prev_field_loop_spec _ first _ (S j) Hnd Hi). exact Hk. }
    exists (set_cur_field k a). split; [by rewrite Hprev|].
    unfold next_field. cbn [fields set_cur_field current_field].
    rewrite Hks, (next_field_loop_spec _ _ j Hnd Hk), Hi. by destruct a.
Qed.

(** *** A new entry from a draft *)

Lemma is_title_empty : is_title ∅ = false.
Proof. unfold is_title. by rewrite lookup_empty. Qed.

Lemma is_title_insert_ne (a : string) (v : PyVal) (d : gmap string PyVal) :
  a ≠ "key" → is_title (<[a := v]> d) = is_title d.
Proof. intros Ha. unfold is_title. by rewrite lookup_insert_ne. Qed.

Lemma is_title_insert_key (k : PyVal) (d : gmap string PyVal) :
  is_title (<["key" := k]> d) = py_eq k (VStr "Title").
Proof. unfold is_title. by rewrite lookup_insert_eq. Qed.

(** One assignment to a string whose parent, if it is a "Title", is the
    entry [e]. *)
Lemma setattr_on_entry_string (h : list Obj) (s e : objid) (d : gmap string PyVal)
    (ent : KeeEntry) (name : string) (v : PyVal) :
  h !! s = Some (OString d) → h !! e = Some (OEntry ent) →
  (is_title d = true → d !! "_parent" = Some (VRef e)) →
  ∃ h', EntryString_setattr s name v h = Ok h' ∧
        List.length h' = List.length h ∧
        h' !! s = Some (OString (<[name := v]> d)) ∧
        h' !! e = Some (OEntry (if is_title d then e_with_name v ent else ent)) ∧
        ∀ i, i ≠ s → i ≠ e → h' !! i = h !! i.
Proof.
  intros Hs He Hpar.
  assert (Hne : s ≠ e) by (intros ->; rewrite Hs in He; discriminate He).
  assert (Hslt : s < List.length h) by by eapply lookup_lt_Some.
  assert (Helt : e < List.length h) by by eapply lookup_lt_Some.
  destruct (is_title d) eqn:Ht.
  - eexists. split.
    { eapply EntryString_setattr_title; [exact Hs | exact Ht | by apply Hpar | exact He | done]. }
    split_and!.
    + by rewrite !length_insert.
    + apply list_lookup_insert_eq. by rewrite length_insert.
    + rewrite list_lookup_insert_ne by done. by apply list_lookup_insert_eq.
    + intros i His Hie. by rewrite !list_lookup_insert_ne.
  - eexists. split; [by eapply EntryString_setattr_plain|]. split_and!.
    + by rewrite length_insert.
    + by apply list_lookup_insert_eq.
    + by rewrite list_lookup_insert_ne.
    + intros i His Hie. by rewrite list_lookup_insert_ne.
Qed.

Lemma e_with_name_twice (v w : PyVal) (ent : KeeEntry) :
  e_with_name v (e_with_name w ent) = e_with_name v ent.
Proof. done. Qed.

(** [EntryString(root, entry, key, value)] for an entry of the store:
    the new string is the next object, built with its seven attributes;
    the entry is renamed if the key is "Title"; nothing else changes. *)
Lemma EntryString_init_spec (h : list Obj) (e : objid) (ent : KeeEntry)
    (key : string) (value : PyVal) :
  h !! e = Some (OEntry ent) →
  ∃ h', EntryString_init (VRef e) (VStr key) value h = Ok (List.length h, h') ∧
        List.length h' = S (List.length h) ∧
        h' !! List.length h = Some (OString (new_string e key value)) ∧
        h' !! e = Some (OEntry (if bool_decide (key = "Title")
                                then e_with_name value ent else ent)) ∧
        ∀ i, i < List.length h → i ≠ e → h' !! i = h !! i.
Proof.
  intros He.
  assert (Helt : e < List.length h) by by eapply lookup_lt_Some.
  unfold EntryString_init, alloc. cbv beta iota zeta.
  set (s := List.length h). set (h0 := (h ++ [OString ∅])%list).
  assert (Hs0 : h0 !! s = Some (OString ∅)) by (unfold h0, s; by rewrite list_lookup_middle).
  assert (He0 : h0 !! e = Some (OEntry ent)) by (unfold h0; by rewrite lookup_app_l).
  assert (Hl0 : List.length h0 = S s) by (unfold h0, s; rewrite length_app; simpl; lia).
  assert (Ho0 : ∀ i, i < s → h0 !! i = h !! i) by (intros i Hi; unfold h0; by rewrite lookup_app_l).
  destruct (setattr_on_entry_string h0 s e _ ent "_root" VRoot Hs0 He0)
    as (h1 & -> & Hl1 & Hs1 & He1 & Ho1); [by rewrite is_title_empty|].
  rewrite is_title_empty in He1. rewrite bind_Ok_l.
  destruct (setattr_on_entry_string h1 s e _ ent "_parent" (VRef e) Hs1 He1)
    as (h2 & -> & Hl2 & Hs2 & He2 & Ho2);
    [by rewrite is_title_insert_ne, is_title_empty|].
  rewrite is_title_insert_ne, is_title_empty in He2 by done. rewrite bind_Ok_l.
  destruct (setattr_on_entry_string h2 s e _ ent "page" (VInt 1) Hs2 He2)
    as (h3 & -> & Hl3 & Hs3 & He3 & Ho3);
    [by rewrite !is_title_insert_ne, is_title_empty|].
  rewrite !is_title_insert_ne, is_title_empty in He3 by done. rewrite bind_Ok_l.
  destruct (setattr_on_entry_string h3 s e _ ent "size" (VInt 0) Hs3 He3)
    as (h4 & -> & Hl4 & Hs4 & He4 & Ho4);
    [by rewrite !is_title_insert_ne, is_title_empty|].
  rewrite !is_title_insert_ne, is_title_empty in He4 by done. rewrite bind_Ok_l.
  destruct (setattr_on_entry_string h4 s e _ ent "type" VNone Hs4 He4)
    as (h5 & -> & Hl5 & Hs5 & He5 & Ho5);
    [by rewrite !is_title_insert_ne, is_title_empty|].
  rewrite !is_title_insert_ne, is_title_empty in He5 by done. rewrite bind_Ok_l.
  destruct (setattr_on_entry_string h5 s e _ ent "key" (VStr key) Hs5 He5)
    as (h6 & -> & Hl6 & Hs6 & He6 & Ho6);
    [by rewrite !is_title_insert_ne, is_title_empty|].
  rewrite !is_title_insert_ne, is_title_empty in He6 by done. rewrite bind_Ok_l.
  assert (Hpar : ∀ d : gmap string PyVal,
            d !! "_parent" = Some (VRef e) →
            ∀ (a : string) (v : PyVal), a ≠ "_parent" → <[a := v]> d !! "_parent" = Some (VRef e)).
  { intros d Hd a v Ha. by rewrite lookup_insert_ne. }
  destruct (setattr_on_entry_string h6 s e _ ent "value" value Hs6 He6)
    as (h7 & -> & Hl7 & Hs7 & He7 & Ho7).
  { intros _. rewrite !lookup_insert_ne by done. by rewrite lookup_insert_eq. }
  rewrite is_title_insert_key in He7. rewrite bind_Ok_l.
  destruct (setattr_on_entry_string h7 s e _ _ "type" (VEnum STRING) Hs7 He7)
    as (h8 & -> & Hl8 & Hs8 & He8 & Ho8).
  { intros _. rewrite !lookup_insert_ne by done. by rewrite lookup_insert_eq. }
  rewrite is_title_insert_ne, is_title_insert_key in He8 by done. rewrite bind_Ok_l.
  assert (Hothers : ∀ i, i < s → i ≠ e → h8 !! i = h !! i).
  { intros i Hi Hie.
    rewrite Ho8, Ho7, Ho6, Ho5, Ho4, Ho3, Ho2, Ho1, Ho0 by lia. done. }
  assert (Hlen : List.length h8 = S s) by congruence.
  assert (Hnew : h8 !! s = Some (OString (new_string e key value))) by exact Hs8.
  unfold py_eq in *.
  destruct (decide (key = "Title")) as [->|Hkey].
  - rewrite (bool_decide_eq_true_2 (VStr "Title" = VStr "Title")) in * by done.
    rewrite (bool_decide_eq_true_2 ("Title" = "Title")) by done.
    unfold get_string_attr, dict_get. rewrite Hs8.
    unfold new_string in Hnew |- *.
    rewrite !lookup_insert_ne by done. rewrite lookup_insert_eq, !bind_Ok_l.
    rewrite (set_name_limit h8 e _ value He8) by done. rewrite bind_Ok_l.
    eexists. split; [done|]. split_and!.
    + by rewrite length_insert.
    + rewrite list_lookup_insert_ne by lia. exact Hs8.
    + rewrite list_lookup_insert_eq by lia. done.
    + intros i Hi Hie. rewrite list_lookup_insert_ne by done. by apply Hothers.
  - rewrite (bool_decide_eq_false_2 (VStr key = VStr "Title")) in * by congruence.
    rewrite (bool_decide_eq_false_2 (key = "Title")) by done.
    rewrite bind_Ok_l. eexists. split; [done|]. split_and!; done.
Qed.

Lemma new_string_key (e : objid) (key : string) (value : PyVal) :
  new_string e key value !! "key" = Some (VStr key) ∧
  new_string e key value !! "value" = Some value ∧
  new_string e key value !! "_parent" = Some (VRef e).
Proof.
  unfold new_string. split_and!.
  - rewrite !lookup_insert_ne by done. by rewrite lookup_insert_eq.
  - rewrite lookup_insert_ne by done. by rewrite lookup_insert_eq.
  - rewrite !lookup_insert_ne by done. by rewrite lookup_insert_eq.
Qed.

(** The loop that fills a new entry from the fields of a draft: one
    new string per field, in order, appended to the entry, which is
    named by the last "Title" among them. *)
Lemma add_strings_spec (e : objid) (raw : list (string * PyVal)) :
  ∀ (h : list Obj) (ent : KeeEntry),
  h !! e = Some (OEntry ent) →
  ∃ h', add_strings e raw h = Ok h' ∧
        List.length h' = List.length h + List.length raw ∧
        h' !! e = Some (OEntry
          (mkEntry (mkBase (_parent (e_base ent)) (page (e_base ent))
                      (size (e_base ent) + Z.of_nat (List.length raw)))
             (e_uuid ent) (e_icon_id ent)
             (e_items ent ++ seq (List.length h) (List.length raw))%list
             (name_from_draft raw (e_name ent)) (e_autotype ent))) ∧
        (∀ i, i < List.length h → i ≠ e → h' !! i = h !! i) ∧
        (∀ k kv, raw !! k = Some kv →
           h' !! (List.length h + k) = Some (OString (new_string e kv.1 kv.2))).
Proof.
  induction raw as [|[key value] rest IH]; intros h ent He.
  - exists h. split_and!; [done | simpl; lia | | done | done].
    rewrite He. simpl. rewrite app_nil_r, Z.add_0_r. by destruct ent as [[]].
  - assert (Helt : e < List.length h) by by eapply lookup_lt_Some.
    cbn [add_strings].
    destruct (EntryString_init_spec h e ent key value He)
      as (h1 & -> & Hl1 & Hs1 & He1 & Ho1).
    rewrite bind_Ok_l. cbv beta iota.
    set (s := List.length h) in *.
    destruct (new_string_key e key value) as (Hk & Hv & _).
    assert (Happ : ∃ ent2, KeeEntry_append e (VRef s) h1 = Ok (<[e := OEntry ent2]> h1) ∧
      ent2 = mkEntry (mkBase (_parent (e_base ent)) (page (e_base ent))
                        (size (e_base ent) + 1))
               (e_uuid ent) (e_icon_id ent) (e_items ent ++ [s])%list
               (if bool_decide (key = "Title") then value else e_name ent)
               (e_autotype ent)).
    { unfold KeeEntry_append. rewrite He1. unfold is_EntryString. rewrite Hs1.
      cbn [negb]. unfold get_string_attr, dict_get. rewrite Hs1, Hk, bind_Ok_l.
      unfold py_eq. destruct (decide (key = "Title")) as [->|Hkey].
      - rewrite (bool_decide_eq_true_2 (VStr "Title" = VStr "Title")) by done.
        rewrite (bool_decide_eq_true_2 ("Title" = "Title")) by done.
        rewrite Hv, bind_Ok_l. eexists. split; [done|]. by destruct ent as [[]].
      - rewrite (bool_decide_eq_false_2 (VStr key = VStr "Title")) by congruence.
        rewrite (bool_decide_eq_false_2 (key = "Title")) by done.
        eexists. split; [done|]. by destruct ent as [[]]. }
    destruct Happ as (ent2 & -> & Hent2). rewrite bind_Ok_l.
    destruct (IH (<[e := OEntry ent2]> h1) ent2) as (h' & Hadd & Hl' & He' & Ho' & Hnew').
    { apply list_lookup_insert_eq. lia. }
    rewrite length_insert, Hl1 in Hl', He', Ho', Hnew'.
    exists h'. split_and!; [done | simpl; lia | | |].
    + rewrite He', Hent2. cbn [e_base e_uuid e_icon_id e_items e_name e_autotype
                                _parent page size List.length name_from_draft fold_left
                                fst snd seq].
      do 3 f_equal; [f_equal; lia | by rewrite <- app_assoc].
    + intros i Hi Hie. rewrite Ho' by lia. rewrite list_lookup_insert_ne by done.
      by apply Ho1.
    + intros [|k] kv Hkv.
      * injection Hkv as <-. rewrite Nat.add_0_r, Ho' by lia.
        rewrite list_lookup_insert_ne by lia. exact Hs1.
      * replace (s + S k) with (S s + k) by lia. by apply Hnew'.
Qed.

(** X21: committing the draft of a new entry while a group is active
    ([finish_add_edit], up to the save) creates the entry as the next
    object, with a fresh identifier, the active group as its parent and
    one new string per field of the draft, in the order of the fields;
    the entry is named by the draft's Title and its [size] is the
    number of fields.  The group lists the entry last, its [size] grows
    by one and it stays the active node.  No other object changes. *)
Theorem commit_adds_entry_from_draft (a : AddEditState) (st : KeePass) (g : objid)
    (grp : KeeGroup) :
  aes_type a = ENTRY →
  process_type a = ADD →
  active_item st = VRef g →
  heap st !! g = Some (OGroup grp) →
  ∃ st', commit a st = Ok st' ∧
    active_item st' = VRef g ∧
    uuid_drawn st' = S (uuid_drawn st) ∧
    List.length (heap st') = S (List.length (heap st)) + List.length (fields a) ∧
    heap st' !! g = Some (OGroup
      (g_with_base (mkBase (_parent (g_base grp)) (page (g_base grp)) (size (g_base grp) + 1))
         (g_with_items (g_items grp ++ [List.length (heap st)])%list grp))) ∧
    heap st' !! List.length (heap st) = Some (OEntry
      (mkEntry (mkBase (VRef g) 1 (Z.of_nat (List.length (fields a))))
         (uuid4 (uuid_drawn st)) 0
         (seq (S (List.length (heap st))) (List.length (fields a)))
         (name_from_draft (fields a) (VStr ""))
         (mkAutoType (VStr "True") (VStr "0") None))) ∧
    (∀ k kv, fields a !! k = Some kv →
       heap st' !! (S (List.length (heap st)) + k) =
         Some (OString (new_string (List.length (heap st)) kv.1 kv.2))) ∧
    (∀ i, i < List.length (heap st) → i ≠ g → heap st' !! i = heap st !! i).
Proof.
  intros Htype Hproc Hact Hg.
  assert (Hglt : g < List.length (heap st)) by by eapply lookup_lt_Some.
  unfold commit. rewrite Hact.
  cbn [enclosing_group get_type]. rewrite Hg, bind_Ok_l.
  change (py_eq (VEnum GROUP) (VEnum GROUP)) with true. cbv iota.
  rewrite bind_Ok_l, Htype, Hproc, KeeEntry_init_fresh. cbv beta iota zeta.
  cbn [heap with_uuid_drawn with_heap]. unfold get_rawstrings.
  set (n := List.length (heap st)).
  set (e0 := mkEntry _ _ _ _ _ _).
  set (h0 := (heap st ++ [OEntry e0])%list).
  assert (Hn : h0 !! n = Some (OEntry e0)) by (unfold h0, n; by rewrite list_lookup_middle).
  assert (Hl0 : List.length h0 = S n) by (unfold h0, n; rewrite length_app; simpl; lia).
  destruct (add_strings_spec n (fields a) h0 e0 Hn) as (h1 & -> & Hl1 & He1 & Ho1 & Hnew1).
  rewrite bind_Ok_l.
  assert (Hg1 : h1 !! g = Some (OGroup grp)).
  { rewrite Ho1 by lia. unfold h0. by rewrite lookup_app_l. }
  rewrite (KeeGroup_append_entry h1 g grp n _ Hg1 He1), !bind_Ok_l.
  eexists. split; [done|].
  unfold activate; cbn [active_item uuid_drawn heap with_active_item with_heap
                        with_uuid_drawn].
  rewrite Hl0 in Hl1, He1, Hnew1.
  split_and!; [done | done | by rewrite length_insert | | | |].
  - apply list_lookup_insert_eq. lia.
  - rewrite list_lookup_insert_ne by lia. rewrite He1. unfold e0.
    cbn [e_base e_uuid e_icon_id e_items e_name e_autotype _parent page size app].
    by rewrite Z.add_0_l.
  - intros k kv Hkv. rewrite list_lookup_insert_ne by lia. by apply Hnew1.
  - intros i Hi Hig. rewrite list_lookup_insert_ne by done.
    rewrite Ho1 by lia. unfold h0. by rewrite lookup_app_l.
Qed.

(** *** What the decoder always delivers *)

Lemma Element_nested_ind (P : Element -> Prop) :
  (∀ tag text children, Forall P children → P (Elem tag text children)) →
  ∀ e, P e.
Proof.
  intros HE. fix IH 1. intros [tag text children]. apply HE.
  induction children as [|c children IHc]; constructor; [apply IH | exact IHc].
Qed.

Lemma decode_strings_name (l : list Element) :
  ∀ acc res, decode_strings l acc = Ok res →
  ∃ new, snd res = (snd acc ++ new)%list ∧ fst res = fold_left title_step new (fst acc).
Proof.
  induction l as [|string rest IH]; intros acc res H.
  - injection H as <-. exists []. by rewrite app_nil_r.
  - cbn [decode_strings] in H. apply bind_Ok in H as (acc1 & Hone & H).
    destruct (IH _ _ H) as (new & Hs & Hn).
    unfold decode_string in Hone.
    apply bind_Ok in Hone as (k & _ & Hone).
    apply bind_Ok in Hone as (v & _ & Hone). injection Hone as <-.
    cbn [fst snd] in Hs, Hn.
    exists ((of_text k, of_text v) :: new). split.
    + by rewrite Hs, <- app_assoc.
    + rewrite Hn. cbn [fold_left]. f_equal. unfold title_step. cbn [fst snd].
      by destruct (py_eq (of_text k) (VStr "Title")).
Qed.

Lemma groups_first_entries (es : list Tree) :
  forallb (fun k => negb (is_group k)) es = true → groups_first es = true.
Proof.
  induction es as [|e es IH]; [done|]. cbn [forallb groups_first].
  intros [He Hes]%andb_prop. by rewrite Hes, (IH Hes), orb_true_r.
Qed.

Lemma groups_first_app (gs es : list Tree) :
  forallb is_group gs = true →
  forallb (fun k => negb (is_group k)) es = true →
  groups_first (gs ++ es) = true.
Proof.
  intros Hgs Hes. induction gs as [|g gs IH]; [by apply groups_first_entries|].
  cbn [forallb] in Hgs. apply andb_prop in Hgs as [Hg Hgs].
  cbn [app groups_first]. by rewrite Hg, (IH Hgs).
Qed.

Section Decoded.

(** [uuid4] never yields the empty string. *)
Hypothesis uuid4_nonempty : ∀ n, uuid4 n ≠ "".

Lemma keep_uuid_nonempty (u : option string) (drawn drawn' : nat) (uuid : string) :
  keep_uuid u drawn = (uuid, drawn') → uuid ≠ "" ∧ (drawn ≤ drawn')%nat.
Proof.
  unfold keep_uuid. destruct u as [s|].
  - case_bool_decide as Hs; intros [= <- <-]; [split; [apply uuid4_nonempty | lia]|].
    split; [done | lia].
  - intros [= <- <-]. split; [apply uuid4_nonempty | lia].
Qed.

Lemma decode_entry_as_decoded (item : Element) (drawn drawn' : nat) (t : Tree) :
  decode_entry item drawn = Ok (t, drawn') →
  is_group t = false ∧ as_decoded t = true ∧ (drawn ≤ drawn')%nat.
Proof.
  unfold decode_entry. intros H.
  apply bind_Ok in H as (autotype & _ & H).
  apply bind_Ok in H as (icon & _ & H).
  apply bind_Ok in H as (u & _ & H).
  destruct (keep_uuid u drawn) as [uuid d1] eqn:Hu.
  apply bind_Ok in H as (icon_id & _ & H).
  apply bind_Ok in H as ([name strings] & Hs & H). injection H as <- <-.
  destruct (keep_uuid_nonempty _ _ _ _ Hu) as [Hne Hle].
  destruct (decode_strings_name _ _ _ Hs) as (new & Hsn & Hn).
  cbn [fst snd app] in Hsn, Hn. subst strings name.
  split_and!; [done | | done].
  cbn [as_decoded]. rewrite (bool_decide_eq_false_2 _ Hne). cbn [negb andb].
  by apply bool_decide_eq_true_2.
Qed.

Lemma entries_pass_as_decoded (l : list Element) :
  ∀ drawn es drawn', entries_pass l drawn = Ok (es, drawn') →
  forallb (fun k => negb (is_group k)) es = true ∧
  forallb as_decoded es = true ∧ (drawn ≤ drawn')%nat.
Proof.
  induction l as [|item rest IH]; intros drawn es drawn' H.
  - injection H as <- <-. split_and!; [done | done | lia].
  - cbn [entries_pass] in H. case_bool_decide as Htag; [|by apply IH].
    apply bind_Ok in H as ([e d1] & He & H).
    apply bind_Ok in H as ([more d2] & Hmore & H). injection H as <- <-.
    destruct (decode_entry_as_decoded _ _ _ _ He) as (Hg & Hd & Hle).
    destruct (IH _ _ _ Hmore) as (Hk & Hall & Hle2).
    cbn [forallb]. rewrite Hg, Hd, Hk, Hall. split_and!; [done | done | lia].
Qed.

Lemma decode_group_attrs_nonempty (item : Element) (drawn drawn' : nat)
    (uuid : string) (name notes : PyVal) (icon_id : Z) :
  decode_group_attrs item drawn = Ok (uuid, name, notes, icon_id, drawn') →
  uuid ≠ "" ∧ (drawn ≤ drawn')%nat.
Proof.
  unfold decode_group_attrs. intros H.
  apply bind_Ok in H as (n & _ & H).
  apply bind_Ok in H as (no & _ & H).
  apply bind_Ok in H as (icon & _ & H).
  apply bind_Ok in H as (u & _ & H).
  destruct (keep_uuid u drawn) as [uuid1 d1] eqn:Hu.
  apply bind_Ok in H as (ic & _ & H). injection H as <- _ _ _ <-.
  by eapply keep_uuid_nonempty.
Qed.

Lemma groups_pass_as_decoded (rec : Element -> nat -> Res (list Tree * nat))
    (l : list Element) :
  Forall (fun c => ∀ d items d', rec c d = Ok (items, d') →
            groups_first items = true ∧ forallb as_decoded items = true ∧
            (d ≤ d')%nat) l →
  ∀ drawn gs drawn', groups_pass rec l drawn = Ok (gs, drawn') →
  forallb is_group gs = true ∧ forallb as_decoded gs = true ∧ (drawn ≤ drawn')%nat.
Proof.
  induction 1 as [|item rest Hitem _ IH]; intros drawn gs drawn' H.
  - injection H as <- <-. split_and!; [done | done | lia].
  - cbn [groups_pass] in H. case_bool_decide as Htag; [|by apply IH].
    apply bind_Ok in H as ([[[[uuid name] notes] icon_id] d1] & Hattrs & H).
    apply bind_Ok in H as ([items d2] & Hrec & H).
    apply bind_Ok in H as ([more d3] & Hmore & H). injection H as <- <-.
    destruct (decode_group_attrs_nonempty _ _ _ _ _ _ _ Hattrs) as [Hne Hle1].
    destruct (Hitem _ _ _ Hrec) as (Hfirst & Hall & Hle2).
    destruct (IH _ _ _ Hmore) as (Hg & Hd & Hle3).
    cbn [forallb is_group as_decoded].
    rewrite (bool_decide_eq_false_2 _ Hne), Hfirst, Hall, Hg, Hd.
    split_and!; [done | done | lia].
Qed.

Lemma inner_init_as_decoded (e : Element) :
  ∀ drawn items drawn', inner_init e drawn = Ok (items, drawn') →
  groups_first items = true ∧ forallb as_decoded items = true ∧ (drawn ≤ drawn')%nat.
Proof.
  induction e as [tag text children IH] using Element_nested_ind.
  intros drawn items drawn' H. cbn [inner_init] in H.
  apply bind_Ok in H as ([groups d1] & Hg & H).
  apply bind_Ok in H as ([entries d2] & He & H). injection H as <- <-.
  destruct (groups_pass_as_decoded inner_init children IH _ _ _ Hg) as (Hgk & Hgd & Hle1).
  destruct (entries_pass_as_decoded _ _ _ _ He) as (Hek & Hed & Hle2).
  split_and!; [by apply groups_first_app | | lia].
  by rewrite forallb_app, Hgd, Hed.
Qed.

Lemma as_decoded_uuids_nonempty (t : Tree) :
  as_decoded t = true → uuids_nonempty t = true.
Proof.
  induction t as [uuid name notes icon_id items IH|uuid icon_id name items a]
    using Tree_nested_ind; cbn [as_decoded uuids_nonempty].
  - intros [[Hu _]%andb_prop Hall]%andb_prop. rewrite Hu. cbn [andb].
    induction IH as [|k l Hk _ IHl]; [done|].
    cbn [forallb] in Hall |- *. apply andb_prop in Hall as [Hkd Hl].
    by rewrite (Hk Hkd), (IHl Hl).
  - by intros [Hu _]%andb_prop.
Qed.

(** X22: whatever the document and whatever [int] makes of its
    [IconID] texts, when [uuid4] never yields the empty string and
    [_init_root_group] returns, the tree it has built is
    headed by a group, every node of it carries an identifier, every
    group lists its groups ahead of its entries, every entry is named
    by the value of its last "Title" string (the empty string without
    one), and identifiers drawn are never given back.  In particular
    each loaded tree meets what the round trip asks of a tree it
    encodes. *)
Theorem init_root_group_delivers_decoded_tree (doc : Element) (drawn drawn' : nat)
    (t : Tree) :
  _init_root_group true doc drawn = Ok (t, drawn') →
  is_group t = true ∧ as_decoded t = true ∧ uuids_nonempty t = true ∧
  (drawn ≤ drawn')%nat.
Proof.
  unfold _init_root_group. cbn [negb]. intros H.
  destruct (find_root_group doc) as [root_group_obj|]; [|discriminate H].
  apply bind_Ok in H as ([[[[uuid name] notes] icon_id] d1] & Hattrs & H).
  apply bind_Ok in H as ([items d2] & Hinner & H). injection H as <- <-.
  destruct (decode_group_attrs_nonempty _ _ _ _ _ _ _ Hattrs) as [Hne Hle1].
  destruct (inner_init_as_decoded _ _ _ _ Hinner) as (Hfirst & Hall & Hle2).
  assert (Hdec : as_decoded (TGroup uuid name notes icon_id items) = true).
  { cbn [as_decoded]. by rewrite (bool_decide_eq_false_2 _ Hne), Hfirst, Hall. }
  split_and!; [done | done | by apply as_decoded_uuids_nonempty | lia].
Qed.

End Decoded.

(** *** An edit that changes nothing *)

Lemma named_same (h : list Obj) (p : objid) (o : Obj) (v : PyVal) :
  h !! p = Some o → (∀ d, o ≠ OString d) → get_name h (VRef p) = Ok v → named v o = o.
Proof.
  intros Hp Ho Hn. cbn [get_name] in Hn. rewrite Hp in Hn.
  destruct o as [g|e|d]; [| |by destruct (Ho d)].
  - injection Hn as <-. by destruct g.
  - injection Hn as <-. by destruct e.
Qed.

Lemma setattr_value_same (h : list Obj) (s : objid) :
  settled_string h s →
  ∀ d v, h !! s = Some (OString d) → d !! "value" = Some v →
  EntryString_setattr s "value" v h = Ok h.
Proof.
  intros (d0 & v0 & Hd0 & _ & Hv0 & Htitle) d v Hd Hv.
  rewrite Hd0 in Hd. injection Hd as <-. rewrite Hv0 in Hv. injection Hv as <-.
  destruct (is_title d0) eqn:Ht.
  - destruct (Htitle eq_refl) as (p & Hp & Hnode & Hname).
    apply is_node_lookup in Hnode as (o & Ho & Hno).
    rewrite (EntryString_setattr_title h s p d0 o "value" v0 Hd0 Ht Hp Ho Hno).
    rewrite (named_same h p o v0 Ho Hno Hname), (list_insert_id h p o Ho).
    by rewrite (insert_id d0 "value" v0 Hv0), (list_insert_id h s _ Hd0).
  - rewrite (EntryString_setattr_plain h s d0 "value" v0 Hd0 Ht).
    by rewrite (insert_id d0 "value" v0 Hv0), (list_insert_id h s _ Hd0).
Qed.

Lemma update_item_loop_same (h : list Obj) (key v : PyVal) (items : list objid) :
  Forall (settled_string h) items →
  (∀ s d, s ∈ items → h !! s = Some (OString d) → d !! "key" = Some key →
          d !! "value" = Some v) →
  update_item_loop items key v h = Ok h.
Proof.
  induction 1 as [|item rest Hitem _ IH]; intros Hsame; [done|].
  pose proof Hitem as (d & v0 & Hd & [k Hk] & Hv0 & _).
  cbn [update_item_loop]. unfold get_string_attr at 1. rewrite Hd. unfold dict_get.
  rewrite Hk, bind_Ok_l. unfold py_eq. case_bool_decide as Hkk.
  - subst k. rewrite (setattr_value_same h item Hitem d v Hd), bind_Ok_l.
    + apply IH. intros s d' Hs. apply Hsame. by right.
    + apply (Hsame item d); [by left | done | done].
  - rewrite bind_Ok_l. apply IH. intros s d' Hs. apply Hsame. by right.
Qed.

Lemma update_items_same (h : list Obj) (e : objid) (ent : KeeEntry)
    (raw : list (string * PyVal)) :
  h !! e = Some (OEntry ent) →
  Forall (settled_string h) (e_items ent) →
  (∀ k v s d, (k, v) ∈ raw → s ∈ e_items ent → h !! s = Some (OString d) →
              d !! "key" = Some (VStr k) → d !! "value" = Some v) →
  update_items (VRef e) raw h = Ok h.
Proof.
  intros He Hok. induction raw as [|[k v] rest IH]; intros Hraw; [done|].
  cbn [update_items]. unfold update_item. rewrite He.
  unfold py_eq. rewrite (bool_decide_eq_false_2 (VStr k = VNone)) by done.
  rewrite (update_item_loop_same h (VStr k) v (e_items ent) Hok), bind_Ok_l.
  - apply IH. intros k' v' s d Hin. apply Hraw. by right.
  - intros s d Hs Hd Hk. apply (Hraw k v s d); [by left | done | done | done].
Qed.

Lemma dict_lookup_elem (k : string) (v : PyVal) (d : list (string * PyVal)) :
  NoDup (keys d) → (k, v) ∈ d → dict_lookup k d = Some v.
Proof.
  induction d as [|[k0 v0] d IH]; intros Hnd Hin; [by apply elem_of_nil in Hin|].
  cbn [keys map fst] in Hnd. apply NoDup_cons in Hnd as [Hk0 Hnd].
  cbn [dict_lookup]. apply elem_of_cons in Hin as [[= -> ->]|Hin].
  - by rewrite bool_decide_eq_true_2.
  - rewrite bool_decide_eq_false_2; [by apply IH|].
    intros ->. apply Hk0. unfold keys. apply list_elem_of_fmap. by exists (k, v).
Qed.

Lemma settled_string_ok (h : list Obj) (s : objid) : settled_string h s → string_ok h s.
Proof.
  intros (d & v & Hd & Hk & _ & Ht). exists d. split_and!; [done | done |].
  intros Htitle. destruct (Ht Htitle) as (p & Hp & Hnode & _). eauto.
Qed.

(** X23: opening the edit of an entry and committing the draft as it
    is changes no object.  The entry is the active node, under a parent
    group; each string holds a value, and a "Title" names the entry;
    strings with the same key hold the same value; the five fields of
    a draft are all present.  Then [start_add_edit] builds the draft,
    [finish_add_edit], up to the save, leaves the store as it was, and
    the parent group is the active node. *)
Theorem edit_without_change_keeps_store (st : KeePass) (e g : objid)
    (ent : KeeEntry) (grp : KeeGroup) :
  active_item st = VRef e →
  heap st !! e = Some (OEntry ent) →
  _parent (e_base ent) = VRef g →
  heap st !! g = Some (OGroup grp) →
  Forall (settled_string (heap st)) (e_items ent) →
  one_value_per_key (heap st) (e_items ent) →
  (∀ n, n ∈ ["Title"; "UserName"; "Password"; "URL"; "Notes"] →
        ∃ s, s ∈ e_items ent ∧ get_string_attr (heap st) s "key" = Ok (VStr n)) →
  ∃ st1 a st2,
    start_add_edit None (VRef e) st = Ok st1 ∧
    add_edit_state st1 = Some a ∧
    process_type a = EDIT ∧
    commit a st1 = Ok st2 ∧
    heap st2 = heap st ∧
    active_item st2 = VRef g.
Proof.
  intros Hact He Hpar Hg Hsettled Hone Hall.
  assert (Hok : Forall (string_ok (heap st)) (e_items ent)).
  { eapply Forall_impl; [exact Hsettled|]. apply settled_string_ok. }
  assert (Hval : Forall (fun s => ∃ v, get_string_attr (heap st) s "value" = Ok v)
                        (e_items ent)).
  { eapply Forall_impl; [exact Hsettled|]. intros s (d & v & Hd & _ & Hv & _).
    exists v. unfold get_string_attr, dict_get. by rewrite Hd, Hv. }
  destruct (fill_from_entry_spec (heap st) e ent
              ["Title"; "UserName"; "Password"; "URL"; "Notes"] He Hok Hval Hall
              [("Title", VNone); ("UserName", VNone); ("Password", VNone);
               ("URL", VNone); ("Notes", VNone)])
    as (d' & Hfill & Hkeys0 & _ & Hin); [done|].
  assert (Hkeys : keys d' = ["Title"; "UserName"; "Password"; "URL"; "Notes"])
    by exact Hkeys0.
  set (a := mkAddEditState ENTRY EDIT d' ["Title"; "Password"] "Title").
  exists (with_add_edit_state (Some a) st), a.
  assert (Hstart : start_add_edit None (VRef e) st = Ok (with_add_edit_state (Some a) st)).
  { unfold start_add_edit. by rewrite (AddEditState_init_entry _ e ent He), Hfill. }
  assert (Hnd : NoDup (keys d')).
  { rewrite Hkeys. apply (bool_decide_unpack _). exact I. }
  assert (Hraw : ∀ k v s d, (k, v) ∈ d' → s ∈ e_items ent →
                   heap st !! s = Some (OString d) →
                   d !! "key" = Some (VStr k) → d !! "value" = Some v).
  { intros k v s d Hkv Hs Hd Hk.
    assert (Hkin : k ∈ ["Title"; "UserName"; "Password"; "URL"; "Notes"]).
    { rewrite <- Hkeys. unfold keys. apply list_elem_of_fmap. by exists (k, v). }
    destruct (get_item_loop_spec (heap st) (VStr k) (e_items ent) Hok)
      as [(i & s0 & Hi & Hs0 & _ & Hres)|[Hnone _]].
    2: { exfalso. apply (Hnone s Hs). unfold get_string_attr, dict_get. by rewrite Hd, Hk. }
    destruct (Hin k s0 Hkin) as (v0 & Hv0 & Hlook).
    { by rewrite (get_item_unfold _ e ent k He). }
    rewrite (dict_lookup_elem k v d' Hnd Hkv) in Hlook. injection Hlook as ->.
    assert (Hs0in : s0 ∈ e_items ent) by by eapply list_elem_of_lookup_2.
    unfold get_string_attr, dict_get in Hs0, Hv0.
    destruct (heap st !! s0) as [[| |d0]|] eqn:Hd0; try discriminate Hs0.
    destruct (d0 !! "key") as [k0|] eqn:Hk0; [|discriminate Hs0]. injection Hs0 as ->.
    destruct (d0 !! "value") as [v1|] eqn:Hv1; [|discriminate Hv0]. injection Hv0 as ->.
    rewrite <- Hv1. apply (Hone s s0 d d0); [done | done | done | done | congruence]. }
  assert (Hlen : ∃ n, List.length (heap st) = S n).
  { pose proof (lookup_lt_Some _ _ _ He). destruct (List.length (heap st)); [lia | eauto]. }
  destruct Hlen as [n Hlen].
  eexists. split_and!; [exact Hstart | done | done | | |].
  - unfold commit. cbn [heap active_item with_add_edit_state]. rewrite Hact, Hlen.
    cbn [enclosing_group get_type get_parent]. rewrite He, !bind_Ok_l.
    change (py_eq (VEnum ENTRY) (VEnum GROUP)) with false. cbv iota.
    rewrite Hpar. cbn [get_type]. rewrite Hg, bind_Ok_l.
    change (py_eq (VEnum GROUP) (VEnum GROUP)) with true. cbv iota.
    rewrite bind_Ok_l. cbn [aes_type process_type a]. unfold get_rawstrings.
    cbn [fields a].
    rewrite (update_items_same (heap st) e ent d' He Hsettled Hraw), !bind_Ok_l.
    reflexivity.
  - reflexivity.
  - reflexivity.
Qed.

(** *** The classes of the items *)

Lemma classes_after_insert (h : list Obj) (self : objid) (o o' : Obj) :
  h !! self = Some o → same_class o o' →
  ∀ j, (is_node (<[self := o']> h) j ↔ is_node h j) ∧
       is_EntryString (<[self := o']> h) (VRef j) = is_EntryString h (VRef j).
Proof.
  intros Hself Hsame j.
  assert (Hlt : self < List.length h) by by eapply lookup_lt_Some.
  unfold is_node, is_KeeEntry, is_KeeGroup, is_EntryString.
  destruct (decide (j = self)) as [->|Hne].
  - rewrite list_lookup_insert_eq by done. rewrite Hself.
    by destruct o, o'.
  - by rewrite list_lookup_insert_ne.
Qed.

Lemma well_typed_insert (h : list Obj) (self : objid) (o o' : Obj) :
  h !! self = Some o → same_class o o' →
  match o' with
  | OGroup g => Forall (is_node h) (g_items g)
  | OEntry e => Forall (fun s => is_EntryString h (VRef s) = true) (e_items e)
  | OString _ => True
  end →
  well_typed h → well_typed (<[self := o']> h).
Proof.
  intros Hself Hsame Hitems Hwt i.
  assert (Hlt : self < List.length h) by by eapply lookup_lt_Some.
  pose proof (classes_after_insert h self o o' Hself Hsame) as Hcls.
  assert (Hnodes : ∀ l, Forall (is_node h) l → Forall (is_node (<[self := o']> h)) l).
  { intros l Hl. eapply Forall_impl; [exact Hl|]. intros j. apply Hcls. }
  assert (Hstrings : ∀ l, Forall (fun s => is_EntryString h (VRef s) = true) l →
            Forall (fun s => is_EntryString (<[self := o']> h) (VRef s) = true) l).
  { intros l Hl. eapply Forall_impl; [exact Hl|]. intros j. by rewrite (proj2 (Hcls j)). }
  destruct (decide (i = self)) as [->|Hne].
  - rewrite list_lookup_insert_eq by done. destruct o'; eauto.
  - rewrite list_lookup_insert_ne by done. specialize (Hwt i).
    destruct (h !! i) as [[g|e|d]|]; eauto.
Qed.

Lemma list_remove_subset (x : objid) (l l' : list objid) :
  list_remove x l = Ok l' → l' ⊆ l.
Proof.
  revert l'. induction l as [|y l IH]; intros l' H; [done|]. cbn [list_remove] in H.
  case_bool_decide.
  - injection H as <-. intros z Hz. by right.
  - apply bind_Ok in H as (l'' & Hl & H). injection H as <-.
    intros z Hz. apply elem_of_cons in Hz as [->|Hz]; [by left|].
    right. by apply (IH l'').
Qed.

(** X24: the three operations that change an [items] list keep the
    classes of the tree apart.  In a store where every group lists
    groups and entries only and every entry lists [EntryString]s only,
    that is still so after [KeeGroup.append], after [KeeEntry.append]
    and after the removal that [delete] performs, whenever they
    return. *)
Theorem items_keep_their_classes (h h' : list Obj) (self : objid) (item : PyVal) :
  well_typed h →
  KeeGroup_append self item h = Ok h' ∨
  KeeEntry_append self item h = Ok h' ∨
  remove_from_parent self h = Ok h' →
  well_typed h'.
Proof.
  intros Hwt [Happ|[Happ|Hrem]].
  - unfold KeeGroup_append in Happ.
    destruct (h !! self) as [[g|e|d]|] eqn:Hself; try discriminate Happ.
    destruct (negb (is_KeeEntry h item) && negb (is_KeeGroup h item)) eqn:Hcls;
      [discriminate Happ|].
    destruct item as [| | | | | |i]; try discriminate Happ. injection Happ as <-.
    eapply well_typed_insert; [exact Hself | done | | exact Hwt].
    cbn [g_with_base g_with_items g_items]. apply Forall_app. split.
    + specialize (Hwt self). by rewrite Hself in Hwt.
    + constructor; [|constructor]. unfold is_node.
      destruct (is_KeeEntry h (VRef i)), (is_KeeGroup h (VRef i)); done.
  - unfold KeeEntry_append in Happ.
    destruct (h !! self) as [[g|e|d]|] eqn:Hself; try discriminate Happ.
    destruct (is_EntryString h item) eqn:Hcls; [|discriminate Happ]. cbn [negb] in Happ.
    destruct item as [| | | | | |i]; try discriminate Happ.
    apply bind_Ok in Happ as (k & _ & Happ).
    assert (Hitems : Forall (fun s => is_EntryString h (VRef s) = true) (e_items e ++ [i])).
    { apply Forall_app. split; [|by repeat constructor].
      specialize (Hwt self). by rewrite Hself in Hwt. }
    destruct (py_eq k (VStr "Title")).
    + apply bind_Ok in Happ as (v & _ & Happ). injection Happ as <-.
      eapply well_typed_insert; [exact Hself | done | exact Hitems | exact Hwt].
    + injection Happ as <-.
      eapply well_typed_insert; [exact Hself | done | exact Hitems | exact Hwt].
  - unfold remove_from_parent in Hrem.
    apply bind_Ok in Hrem as (p & _ & Hrem).
    destruct p as [| | | | | |i]; try discriminate Hrem.
    destruct (h !! i) as [[g|e|d]|] eqn:Hi; try discriminate Hrem.
    + apply bind_Ok in Hrem as (l & Hl & Hrem). injection Hrem as <-.
      eapply well_typed_insert; [exact Hi | done | | exact Hwt].
      cbn [g_with_items g_items]. specialize (Hwt i). rewrite Hi in Hwt.
      apply Forall_forall. intros j Hj.
      apply (proj1 (Forall_forall _ _) Hwt). by eapply list_remove_subset.
    + apply bind_Ok in Hrem as (l & Hl & Hrem). injection Hrem as <-.
      eapply well_typed_insert; [exact Hi | done | | exact Hwt].
      cbn [e_with_items e_items]. specialize (Hwt i). rewrite Hi in Hwt.
      apply Forall_forall. intros j Hj.
      apply (proj1 (Forall_forall _ _) Hwt). by eapply list_remove_subset.
Qed.

(** *** The page cursor of a node without children *)

(** X25: on a node without children, as every new node is, there is
    no last page to wrap to: [previous_page] puts a cursor that is on
    page 1 on page 0, and [next_page] puts a cursor that is on page 0
    or on page 1 on page 1. *)
Theorem page_cursor_of_empty_node (b : BaseKeePass) :
  size b = 0%Z →
  (page b = 1%Z → page (previous_page b) = 0%Z) ∧
  ((page b = 0%Z ∨ page b = 1%Z) → page (next_page b) = 1%Z).
Proof.
  intros Hsize. unfold previous_page, next_page, base_with_page; cbn [page].
  rewrite next_page_value_spec. unfold previous_page_value. rewrite Hsize.
  assert (Hlast : math_ceil (true_div 0 NUMBER_OF_ENTRIES_ON_PAGE) = 0%Z) by reflexivity.
  rewrite Hlast. split.
  - intros ->. reflexivity.
  - intros [-> | ->]; reflexivity.
Qed.

End Program.

(** ** The properties on the sample data *)

(** The samples never reach the built-ins: their searches and their
    documents give the same results whatever [str.lower] makes of a
    string that is not ASCII and [int] of a text that [str] does not
    write. *)
Lemma samples_ignore_builtins (lower' : string → string) (int' : string → option Z) :
  search_item lower' "site" demo_state = search_item demo_lower "site" demo_state ∧
  search_item lower' "SITE" demo_state = search_item demo_lower "SITE" demo_state ∧
  search demo_uuid4 lower' "site" demo_state =
    search demo_uuid4 demo_lower "site" demo_state ∧
  _init_root_group demo_uuid4 int' true demo_loaded_doc 0 =
    _init_root_group demo_uuid4 demo_int_of_str true demo_loaded_doc 0 ∧
  (d ← generate_root demo_now demo_root_obj demo_tree 0;
   _init_root_group demo_uuid4 int' true d.1 0) =
  (d ← generate_root demo_now demo_root_obj demo_tree 0;
   _init_root_group demo_uuid4 demo_int_of_str true d.1 0).
Proof. split_and!; vm_compute; reflexivity. Qed.

(** C8 as worded fails on a node without children: its cursor is on
    page 1, the last page is 0, and [next_page] leaves the cursor on
    page 1 instead of stepping to page 2. *)
Lemma next_page_on_empty_node : ¬ paging_as_claimed 5 demo_fresh_node.
Proof.
  intros (_ & _ & H & _).
  assert (Hne : page demo_fresh_node ≠ math_ceil (true_div (size demo_fresh_node) 5)).
  { intros Heq. vm_compute in Heq. discriminate Heq. }
  apply H in Hne. vm_compute in Hne. discriminate Hne.
Qed.

(** C7 as worded fails on the draft of a group with the cursor on Notes,
    its last field: [next_field] leaves the cursor on Notes instead of
    wrapping to Name. *)
Lemma next_field_stays_on_last_field :
  AddEditState_init (Some GROUP) VNone [] = Ok demo_group_draft ∧
  keys (fields demo_group_draft_on_notes) !! 1 = Some (current_field demo_group_draft_on_notes) ∧
  ¬ field_cursor_as_claimed demo_group_draft_on_notes 1.
Proof.
  split; [reflexivity|]. split; [reflexivity|].
  intros [H _]. vm_compute in H. discriminate H.
Qed.

Lemma field_cursor_moves_witness :
  NoDup (keys (fields demo_group_draft_on_notes)) ∧
  keys (fields demo_group_draft_on_notes) !! 1 =
    Some (current_field demo_group_draft_on_notes) ∧
  Some (current_field (next_field demo_group_draft_on_notes)) = Some "Notes" ∧
  fields (next_field demo_group_draft_on_notes) = fields demo_group_draft_on_notes ∧
  ∃ a', prev_field demo_group_draft_on_notes = Ok a' ∧
        Some (current_field a') = Some "Name" ∧
        fields a' = fields demo_group_draft_on_notes.
Proof.
  assert (Hnd : NoDup (keys (fields demo_group_draft_on_notes))).
  { apply (bool_decide_unpack _). exact I. }
  split; [exact Hnd|]. split; [reflexivity|].
  exact (field_cursor_moves demo_group_draft_on_notes 1 Hnd eq_refl).
Defined.

(** C6 on the sample draw: the positions 26 and 36 are distinct and
    both in range, so [random.sample] may draw them, and the Password
    field then receives "00abcdef", in which the character 0 occurs
    twice. *)
Theorem generate_password_repeats_a_character :
  sample_choice (String.length password_alphabet) passlen demo_choice ∧
  ∀ a, dict_lookup "Password" (fields (generate_password demo_choice a)) =
         Some (VStr "00abcdef") ∧
       current_field (generate_password demo_choice a) = current_field a ∧
       ¬ NoDup (list_ascii_of_string "00abcdef").
Proof.
  split.
  - split_and!; [reflexivity | by apply (bool_decide_unpack _) |].
    change (String.length password_alphabet) with 63.
    unfold demo_choice. repeat (constructor; [lia|]). constructor.
  - intros a. split_and!.
    + unfold generate_password; simpl. apply dict_lookup_set.
    + done.
    + intros Hnd. apply NoDup_cons in Hnd as [Hin _]. apply Hin. by left.
Qed.

Lemma demo_strings_ok : Forall (string_ok demo_heap) (e_items demo_site).
Proof.
  repeat constructor.
  - exists demo_title. split_and!; [reflexivity | by eexists |].
    intros _. exists 1. split; reflexivity.
  - eexists. split_and!; [reflexivity | by eexists |].
    intros H. vm_compute in H. discriminate H.
Defined.

(** C9 on the sample store: [update_item("Title", "")] leaves the entry
    "site" named by the empty string, and appending to it the "Title"
    string of the entry "blog" names it "blog". *)
Lemma title_value_names_entry_witness :
  demo_heap !! 1 = Some (OEntry demo_site) ∧
  Forall (string_ok demo_heap) (e_items demo_site) ∧
  (∃ h', update_item 1 (VStr "Title") (VStr "") demo_heap = Ok h' ∧
         get_name h' (VRef 1) = Ok (VStr "") ∧
         h' !! 2 = Some (OString (<["value" := VStr ""]> demo_title)) ∧
         h' !! 1 = Some (OEntry (e_with_name (VStr "") demo_site))) ∧
  (∃ h', KeeEntry_append 1 (VRef 6) demo_heap = Ok h' ∧
         get_name h' (VRef 1) = Ok (VStr "blog") ∧
         h' !! 6 = Some (demo_string 5 "Title" (VStr "blog")) ∧
         ∃ ent', h' !! 1 = Some (OEntry ent') ∧
                 e_items ent' = ([2; 3] ++ [6])%list ∧
                 e_name ent' = VStr "blog" ∧
                 size (e_base ent') = (2 + 1)%Z).
Proof.
  split; [reflexivity|]. split; [exact demo_strings_ok|]. split.
  - refine (proj1 (title_value_names_entry demo_heap 1 demo_site (VStr "")
                     eq_refl demo_strings_ok) 2 demo_title _ eq_refl eq_refl eq_refl).
    by left.
  - exact (proj2 (title_value_names_entry demo_heap 1 demo_site (VStr "blog")
                     eq_refl demo_strings_ok) 6 _ eq_refl eq_refl eq_refl).
Defined.

Lemma title_string_assignment_renames_parent_witness :
  demo_heap !! 2 = Some (OString demo_title) ∧
  demo_title !! "key" = Some (VStr "Title") ∧
  demo_title !! "_parent" = Some (VRef 1) ∧
  is_node demo_heap 1 ∧
  (∃ h', EntryString_setattr 2 "type" (VEnum STRING) demo_heap = Ok h' ∧
         get_name h' (VRef 1) = Ok (VEnum STRING) ∧
         get_string_attr h' 2 "type" = Ok (VEnum STRING)) ∧
  (∃ h', BaseKeePass_next_page 5 2 demo_heap = Ok h' ∧
         get_name h' (VRef 1) = Ok (VInt (next_page_value 5 1 0))).
Proof.
  split; [reflexivity|]. split; [reflexivity|]. split; [reflexivity|].
  split; [reflexivity|].
  pose proof (title_string_assignment_renames_parent 5 demo_heap 2 1 demo_title
                eq_refl eq_refl eq_refl eq_refl) as [Hset Hpage].
  split.
  - exact (Hset "type" (VEnum STRING)).
  - exact (Hpage 1%Z 0%Z eq_refl eq_refl).
Defined.

(** C3 as worded fails on the sample document: the word "site" matches
    the group "Sites", and the overlay does not hold that group. *)
Lemma search_leaves_matched_groups_out :
  ∃ st', search_item demo_lower "site" demo_state = Ok demo_found ∧
         search demo_uuid4 demo_lower "site" demo_state = Ok st' ∧
         ¬ overlay_as_claimed demo_state demo_found st'.
Proof.
  destruct (search demo_uuid4 demo_lower "site" demo_state) as [st'|e] eqn:Hs;
    [|vm_compute in Hs; discriminate Hs].
  exists st'. split; [vm_compute; reflexivity|]. split; [reflexivity|].
  assert (Hgroup : (st ← search demo_uuid4 demo_lower "site" demo_state; Ok (search_group st))
                   = Ok (VRef 7)) by (vm_compute; reflexivity).
  assert (Hitems : (st ← search demo_uuid4 demo_lower "site" demo_state;
                    get_items (heap st) (VRef 7)) = Ok [8]) by (vm_compute; reflexivity).
  rewrite Hs in Hgroup, Hitems. cbn [mbind Res_bind] in Hgroup, Hitems.
  injection Hgroup as Hgroup.
  intros (sg & overlay & Hsg & _ & Hov & _ & Hgroups).
  rewrite Hgroup in Hsg. injection Hsg as <-.
  cbn [get_items] in Hitems. rewrite Hov in Hitems. injection Hitems as Hitems.
  assert (Hin : 4 ∈ g_items overlay).
  { apply Hgroups; [unfold demo_found; by right; left | reflexivity]. }
  rewrite Hitems in Hin. apply list_elem_of_singleton in Hin. discriminate Hin.
Qed.

Lemma demo_state_searchable : searchable demo_state.
Proof.
  split; [reflexivity|]. split.
  - exists 0, 2. split; [reflexivity|]. split; [reflexivity|]. split.
    + split; [by eexists|]. repeat constructor; [by eexists | by eexists |].
      repeat constructor. by eexists.
    + rewrite recursion_limit_value. lia.
  - intros i e He.
    destruct i as [|[|[|[|[|[|[|i]]]]]]]; try discriminate He; injection He as <-.
    + repeat constructor.
      * exists demo_title. split_and!; [reflexivity | by eexists | by eexists].
      * eexists. split_and!; [reflexivity | by eexists | by eexists].
    + repeat constructor.
      eexists. split_and!; [reflexivity | by eexists | by eexists].
Defined.

Lemma search_builds_overlay_witness :
  searchable demo_state ∧
  ∃ finded_items st' overlay,
    search_item demo_lower "site" demo_state = Ok finded_items ∧
    search demo_uuid4 demo_lower "site" demo_state = Ok st' ∧
    search_group st' = VRef 7 ∧
    active_item st' = VRef 7 ∧
    heap st' !! 7 = Some (OGroup overlay) ∧
    g_name overlay = VStr "Search" ∧
    (∀ i, i < 7 → heap st' !! i = heap demo_state !! i) ∧
    Forall2 (fun item new =>
               7 < new ∧
               ∃ e e', heap demo_state !! item = Some (OEntry e) ∧
                       heap st' !! new = Some (OEntry e') ∧
                       e_items e' = e_items e)
            (matched_entries (heap demo_state) finded_items) (g_items overlay) ∧
    (∀ item, item ∈ finded_items → item ∉ g_items overlay).
Proof.
  split; [exact demo_state_searchable|].
  exact (search_builds_overlay demo_uuid4 demo_lower "site" demo_state demo_state_searchable).
Defined.

(** C4 as worded fails on the sample document: after the search for
    "site" the overlay reaches the "Title" string of the entry "site",
    object 2, which is that entry's own string in the document tree. *)
Lemma overlay_shares_strings_with_document :
  ∃ st', search demo_uuid4 demo_lower "site" demo_state = Ok st' ∧
         ¬ overlay_disjoint_as_claimed st'.
Proof.
  destruct (search demo_uuid4 demo_lower "site" demo_state) as [st'|e] eqn:Hs;
    [|vm_compute in Hs; discriminate Hs].
  exists st'. split; [reflexivity|].
  assert (Hobs : (st ← search demo_uuid4 demo_lower "site" demo_state;
                  overlay ← get_items (heap st) (search_group st);
                  strings ← get_items (heap st) (VRef 8);
                  top ← get_items (heap st) (root_group st);
                  site ← get_items (heap st) (VRef 1);
                  Ok (search_group st, is_KeeGroup (heap st) (search_group st),
                      overlay, is_KeeEntry (heap st) (VRef 8), strings,
                      root_group st, top, site))
                 = Ok (VRef 7, true, [8], true, [2; 3], VRef 0, [1; 4], [2; 3]))
    by (vm_compute; reflexivity).
  rewrite Hs in Hobs. cbn [mbind Res_bind] in Hobs.
  destruct (get_items (heap st') (search_group st')) as [overlay|] eqn:Hoverlay;
    [|discriminate Hobs].
  destruct (get_items (heap st') (VRef 8)) as [strings|] eqn:Hstrings;
    [|discriminate Hobs].
  destruct (get_items (heap st') (root_group st')) as [top|] eqn:Htop;
    [|discriminate Hobs].
  destruct (get_items (heap st') (VRef 1)) as [site|] eqn:Hsite;
    [|discriminate Hobs].
  cbn [mbind Res_bind] in Hobs.
  injection Hobs as Hsg Hisg -> Hise -> Hroot -> ->.
  rewrite Hsg in Hoverlay, Hisg. rewrite Hroot in Htop.
  intros H. apply (H 2).
  - cbn [is_KeeGroup is_KeeEntry get_items] in *.
    destruct (heap st' !! 7) as [[ov| |]|] eqn:H7; try discriminate Hisg.
    destruct (heap st' !! 8) as [[|e8|]|] eqn:H8; try discriminate Hise.
    injection Hoverlay as Hoverlay. injection Hstrings as Hstrings.
    exists 7, ov, 8, e8. rewrite Hoverlay, Hstrings.
    split_and!; [exact Hsg | exact H7 | by left | exact H8 | by left].
  - exists 0. split; [done|].
    eapply (reach_item _ _ 1 2); [|exact Hsite|by left].
    eapply (reach_item _ _ 0 1); [apply reach_root|exact Htop|by left].
Qed.

(** C4, amended, on the sample session searched for "site". *)
Lemma overlay_strings_are_document_strings_witness :
  searchable demo_state ∧
  ∃ finded_items st' sg overlay,
    search_item demo_lower "site" demo_state = Ok finded_items ∧
    search demo_uuid4 demo_lower "site" demo_state = Ok st' ∧
    search_group st' = VRef sg ∧
    heap st' !! sg = Some (OGroup overlay) ∧
    (∀ s, overlay_string st' s →
          (in_document st' s ∧ in_document demo_state s ∧
           heap st' !! s = heap demo_state !! s) ∧
          ∃ item e d, item ∈ finded_items ∧ in_document demo_state item ∧
                      heap demo_state !! item = Some (OEntry e) ∧ s ∈ e_items e ∧
                      heap demo_state !! s = Some (OString d)) ∧
    (∀ i, i < List.length (heap demo_state) → heap st' !! i = heap demo_state !! i) ∧
    (∀ i, List.length (heap demo_state) ≤ i < List.length (heap st') →
          i = sg ∨ (i ∈ g_items overlay ∧ ∃ e', heap st' !! i = Some (OEntry e'))).
Proof.
  split; [exact demo_state_searchable|].
  exact (overlay_strings_are_document_strings demo_uuid4 demo_lower "site" demo_state
           demo_state_searchable).
Defined.

(** C2 as worded fails on the sample document, whose root lists the
    entry "site" before the group "Sites": [update_kdb_in_db] encodes the
    tree, and the tree decoded from the new [_root_obj] lists the group
    first. *)
Lemma roundtrip_reorders_children :
  ∃ st' doc t',
    snapshot recursion_limit (heap demo_state) 0 = Ok demo_tree ∧
    update_kdb_in_db demo_now demo_state = Ok st' ∧
    _root_obj st' = Some doc ∧
    _init_root_group demo_uuid4 demo_int_of_str true doc 0 = Ok (t', 0) ∧
    tree_uuid <$> tree_children demo_tree = ["U0lURQ=="; "R1JQ"] ∧
    tree_uuid <$> tree_children t' = ["R1JQ"; "U0lURQ=="] ∧
    ¬ roundtrip_as_claimed demo_tree t'.
Proof.
  eexists _, _, _. split; [vm_compute; reflexivity|].
  split; [vm_compute; reflexivity|]. split; [reflexivity|].
  split; [vm_compute; reflexivity|].
  split; [reflexivity|]. split; [reflexivity|].
  intros H. vm_compute in H. discriminate H.
Qed.

Lemma decode_of_encode_witness :
  is_group demo_tree = true ∧
  uuids_nonempty demo_tree = true ∧
  ∃ doc tick',
    generate_root demo_now demo_root_obj demo_tree 0 = Ok (doc, tick') ∧
    _init_root_group demo_uuid4 demo_int_of_str true doc 0 = Ok (reread demo_tree, 0) ∧
    tree_uuid (reread demo_tree) = tree_uuid demo_tree ∧
    tree_name (reread demo_tree) = reread_text (tree_name demo_tree) ∧
    tree_children (reread demo_tree) ≡ₚ map reread (tree_children demo_tree).
Proof.
  split; [reflexivity|]. split; [reflexivity|].
  destruct (generate_root demo_now demo_root_obj demo_tree 0) as [[doc tick']|e] eqn:Hgen;
    [|vm_compute in Hgen; discriminate Hgen].
  exists doc, tick'. split; [reflexivity|].
  exact (decode_of_encode demo_uuid4 demo_now demo_int_of_str demo_root_obj demo_tree 0 tick' 0 doc
           eq_refl eq_refl Hgen).
Defined.

(** C1 on the sample document: every [size] equals the number of items
    before; the only child of the group "Sites", the entry "blog", is
    deleted; afterwards the group has no item and its [size] is still 1. *)
Theorem delete_leaves_size_stale :
  Forall size_matches demo_heap ∧
  ∃ st' g, delete demo_now 5 demo_state = Ok st' ∧
           heap st' !! 4 = Some (OGroup g) ∧
           g_items g = [] ∧ size (g_base g) = 1%Z ∧
           ¬ size_matches (OGroup g).
Proof.
  split; [repeat constructor|].
  eexists _, _. split; [vm_compute; reflexivity|].
  split; [reflexivity|]. split; [reflexivity|]. split; [reflexivity|].
  intros H. vm_compute in H. discriminate H.
Qed.

(** C5 on the sample document, with the group "Sites" active.
    Edit: the draft is opened on the group, its Notes field is set to
    "memo", and the commit leaves the group's notes as they were.
    Add: a draft for a new group is committed with its Name never set,
    and the new group is named [None], not "None". *)
Theorem finish_group_draft_on_sample :
  let st0 := with_active_item (VRef 4) demo_state in
  (∃ st1 st2 g,
     start_add_edit None (VRef 4) st0 = Ok st1 ∧
     finish_add_edit demo_uuid4 demo_now
       (edit_draft (fun a => set_cur_field_value (VStr "memo") (set_cur_field "Notes" a)) st1)
       = Ok st2 ∧
     (fields <$> add_edit_state
        (edit_draft (fun a => set_cur_field_value (VStr "memo") (set_cur_field "Notes" a)) st1))
       = Some [("Name", VStr "Sites"); ("Notes", VStr "memo")] ∧
     heap st2 !! 4 = Some (OGroup g) ∧
     g_name g = VStr "Sites" ∧ g_notes g = VStr "") ∧
  (∃ st1 st2 g sites,
     start_add_edit (Some GROUP) VNone st0 = Ok st1 ∧
     finish_add_edit demo_uuid4 demo_now st1 = Ok st2 ∧
     heap st2 !! 4 = Some (OGroup sites) ∧ g_items sites = [5; 7] ∧
     heap st2 !! 7 = Some (OGroup g) ∧
     g_name g = VNone ∧ g_notes g = VStr "").
Proof.
  cbn zeta. split.
  - assert (Hobs :
      (st1 ← start_add_edit None (VRef 4) (with_active_item (VRef 4) demo_state);
       let st1' := edit_draft (fun a => set_cur_field_value (VStr "memo")
                                          (set_cur_field "Notes" a)) st1 in
       st2 ← finish_add_edit demo_uuid4 demo_now st1';
       match heap st2 !! 4 with
       | Some (OGroup g) => Ok (fields <$> add_edit_state st1', g_name g, g_notes g)
       | _ => Raise KeyError
       end)
      = Ok (Some [("Name", VStr "Sites"); ("Notes", VStr "memo")], VStr "Sites", VStr ""))
      by (vm_compute; reflexivity).
    destruct (start_add_edit None (VRef 4) (with_active_item (VRef 4) demo_state))
      as [st1|e] eqn:H1; [|discriminate Hobs].
    cbn [mbind Res_bind] in Hobs. cbv zeta in Hobs.
    destruct (finish_add_edit _ _ _) as [st2|e] eqn:H2; [|discriminate Hobs].
    cbn [mbind Res_bind] in Hobs.
    destruct (heap st2 !! 4) as [[g| |]|] eqn:H4; try discriminate Hobs.
    injection Hobs as Hf Hn Hno.
    exists st1, st2, g. by split_and!.
  - assert (Hobs :
      (st1 ← start_add_edit (Some GROUP) VNone (with_active_item (VRef 4) demo_state);
       st2 ← finish_add_edit demo_uuid4 demo_now st1;
       match heap st2 !! 4, heap st2 !! 7 with
       | Some (OGroup sites), Some (OGroup g) => Ok (g_items sites, g_name g, g_notes g)
       | _, _ => Raise KeyError
       end)
      = Ok ([5; 7], VNone, VStr "")) by (vm_compute; reflexivity).
    destruct (start_add_edit (Some GROUP) VNone (with_active_item (VRef 4) demo_state))
      as [st1|e] eqn:H1; [|discriminate Hobs].
    cbn [mbind Res_bind] in Hobs.
    destruct (finish_add_edit _ _ _) as [st2|e] eqn:H2; [|discriminate Hobs].
    cbn [mbind Res_bind] in Hobs.
    destruct (heap st2 !! 4) as [[sites| |]|] eqn:H4; try discriminate Hobs.
    destruct (heap st2 !! 7) as [[g| |]|] eqn:H7; try discriminate Hobs.
    injection Hobs as Hi Hn Hno.
    exists st1, st2, g, sites. by split_and!.
Qed.


(** ** The further properties on sample inputs *)

(** X1 on a node of 7 children, 5 to a page, on its last page 2. *)
Lemma page_cursor_stays_in_range_witness :
  (1 ≤ page (mkBase (VRef 0) 2 7) ≤ math_ceil (true_div (size (mkBase (VRef 0) 2 7)) 5))%Z ∧
  (1 ≤ page (next_page 5 (mkBase (VRef 0) 2 7))
     ≤ math_ceil (true_div (size (mkBase (VRef 0) 2 7)) 5))%Z ∧
  (1 ≤ page (previous_page 5 (mkBase (VRef 0) 2 7))
     ≤ math_ceil (true_div (size (mkBase (VRef 0) 2 7)) 5))%Z.
Proof.
  assert (Hrange : (1 ≤ page (mkBase (VRef 0) 2 7)
                      ≤ math_ceil (true_div (size (mkBase (VRef 0) 2 7)) 5))%Z).
  { change (math_ceil (true_div (size (mkBase (VRef 0) 2 7)) 5)) with 2%Z. simpl. lia. }
  split; [exact Hrange|].
  exact (page_cursor_stays_in_range 5 (mkBase (VRef 0) 2 7) Hrange).
Defined.

(** X2 on the same node. *)
Lemma page_cursor_steps_are_inverse_witness :
  (1 ≤ page (mkBase (VRef 0) 2 7) ≤ math_ceil (true_div (size (mkBase (VRef 0) 2 7)) 5))%Z ∧
  previous_page 5 (next_page 5 (mkBase (VRef 0) 2 7)) = mkBase (VRef 0) 2 7 ∧
  next_page 5 (previous_page 5 (mkBase (VRef 0) 2 7)) = mkBase (VRef 0) 2 7.
Proof.
  assert (Hrange : (1 ≤ page (mkBase (VRef 0) 2 7)
                      ≤ math_ceil (true_div (size (mkBase (VRef 0) 2 7)) 5))%Z).
  { change (math_ceil (true_div (size (mkBase (VRef 0) 2 7)) 5)) with 2%Z. simpl. lia. }
  split; [exact Hrange|].
  exact (page_cursor_steps_are_inverse 5 (mkBase (VRef 0) 2 7) Hrange).
Defined.

(** X3 on five items, 2 to a page: page 1 shows the items 0, 1 and 2,
    and item 2 is also the first of page 2. *)
Lemma page_window_is_a_slice_witness :
  (1 ≤ 1)%Z ∧
  page_window 2 1 [10; 11; 12; 13; 14] = [10; 11; 12] ∧
  ∀ x, [10; 11; 12; 13; 14] !! 2 = Some x →
       last (page_window 2 1 [10; 11; 12; 13; 14]) = Some x ∧
       head (page_window 2 (1 + 1) [10; 11; 12; 13; 14]) = Some x.
Proof.
  split; [lia|].
  exact (page_window_is_a_slice 2 1 [10; 11; 12; 13; 14] ltac:(lia)).
Defined.


(** X4 on the entry "site" of the sample document, asked for its
    Password. *)
Lemma get_item_returns_first_match_witness :
  demo_heap !! 1 = Some (OEntry demo_site) ∧
  Forall (string_ok demo_heap) (e_items demo_site) ∧
  VStr "Password" ≠ VNone ∧
  ((∃ i s, e_items demo_site !! i = Some s ∧
           get_string_attr demo_heap s "key" = Ok (VStr "Password") ∧
           (∀ j s', j < i → e_items demo_site !! j = Some s' →
                    get_string_attr demo_heap s' "key" ≠ Ok (VStr "Password")) ∧
           get_item 1 (VStr "Password") demo_heap = Ok (VRef s)) ∨
   ((∀ s', s' ∈ e_items demo_site →
           get_string_attr demo_heap s' "key" ≠ Ok (VStr "Password")) ∧
    get_item 1 (VStr "Password") demo_heap = Ok VNone)).
Proof.
  assert (Hkey : VStr "Password" ≠ VNone) by discriminate.
  split; [reflexivity|]. split; [exact demo_strings_ok|]. split; [exact Hkey|].
  exact (get_item_returns_first_match demo_heap 1 demo_site (VStr "Password")
           eq_refl demo_strings_ok Hkey).
Defined.

(** X5 on the same entry, given a new Password. *)
Lemma update_item_assigns_every_match_witness :
  demo_heap !! 1 = Some (OEntry demo_site) ∧
  Forall (string_ok demo_heap) (e_items demo_site) ∧
  VStr "Password" ≠ VNone ∧
  ∃ h', update_item 1 (VStr "Password") (VStr "y") demo_heap = Ok h' ∧
        (∀ s d, demo_heap !! s = Some (OString d) →
           h' !! s = Some (OString
             (if bool_decide (s ∈ e_items demo_site ∧ d !! "key" = Some (VStr "Password"))
              then <["value" := VStr "y"]> d else d))) ∧
        (VStr "Password" ≠ VStr "Title" →
           ∀ q o, demo_heap !! q = Some o → (∀ d, o ≠ OString d) → h' !! q = Some o) ∧
        (∀ s, get_item 1 (VStr "Password") demo_heap = Ok (VRef s) →
              get_item 1 (VStr "Password") h' = Ok (VRef s) ∧
              get_string_attr h' s "value" = Ok (VStr "y")).
Proof.
  assert (Hkey : VStr "Password" ≠ VNone) by discriminate.
  split; [reflexivity|]. split; [exact demo_strings_ok|]. split; [exact Hkey|].
  exact (update_item_assigns_every_match demo_heap 1 demo_site (VStr "Password")
           (VStr "y") eq_refl demo_strings_ok Hkey).
Defined.

(** X6 on the same entry, which has no URL. *)
Lemma update_item_without_match_is_silent_witness :
  demo_heap !! 1 = Some (OEntry demo_site) ∧
  Forall (string_ok demo_heap) (e_items demo_site) ∧
  (∀ s, s ∈ e_items demo_site → get_string_attr demo_heap s "key" ≠ Ok (VStr "URL")) ∧
  update_item 1 (VStr "URL") (VStr "u") demo_heap = Ok demo_heap.
Proof.
  assert (Hnone : ∀ s, s ∈ e_items demo_site →
                       get_string_attr demo_heap s "key" ≠ Ok (VStr "URL")).
  { apply (proj1 (Forall_forall
      (fun s => get_string_attr demo_heap s "key" ≠ Ok (VStr "URL")) (e_items demo_site))).
    repeat constructor; vm_compute; discriminate. }
  split; [reflexivity|]. split; [exact demo_strings_ok|]. split; [exact Hnone|].
  exact (update_item_without_match_is_silent demo_heap 1 demo_site (VStr "URL")
           (VStr "u") eq_refl demo_strings_ok Hnone).
Defined.


(** X7 on the entry "site" of the sample document, which has no URL. *)
Lemma edit_of_entry_without_a_field_raises_witness :
  demo_heap !! 1 = Some (OEntry demo_site) ∧
  Forall (string_ok demo_heap) (e_items demo_site) ∧
  "URL" ∈ ["Title"; "UserName"; "Password"; "URL"; "Notes"] ∧
  (∀ s, s ∈ e_items demo_site → get_string_attr demo_heap s "key" ≠ Ok (VStr "URL")) ∧
  AddEditState_init None (VRef 1) demo_heap = Raise AttributeError.
Proof.
  assert (Hin : "URL" ∈ ["Title"; "UserName"; "Password"; "URL"; "Notes"]).
  { apply (bool_decide_unpack _). exact I. }
  assert (Hnone : ∀ s, s ∈ e_items demo_site →
                       get_string_attr demo_heap s "key" ≠ Ok (VStr "URL")).
  { apply (proj1 (Forall_forall
      (fun s => get_string_attr demo_heap s "key" ≠ Ok (VStr "URL")) (e_items demo_site))).
    repeat constructor; vm_compute; discriminate. }
  split; [reflexivity|]. split; [exact demo_strings_ok|].
  split; [exact Hin|]. split; [exact Hnone|].
  exact (edit_of_entry_without_a_field_raises demo_heap 1 demo_site "URL"
           eq_refl demo_strings_ok Hin Hnone).
Defined.

Lemma demo_login_strings_ok : Forall (string_ok demo_login_heap) (e_items demo_login).
Proof.
  repeat constructor.
  - eexists. split_and!; [reflexivity | by eexists |].
    intros _. exists 1. split; reflexivity.
  - eexists. split_and!; [reflexivity | by eexists |].
    intros H. vm_compute in H. discriminate H.
  - eexists. split_and!; [reflexivity | by eexists |].
    intros H. vm_compute in H. discriminate H.
  - eexists. split_and!; [reflexivity | by eexists |].
    intros H. vm_compute in H. discriminate H.
  - eexists. split_and!; [reflexivity | by eexists |].
    intros H. vm_compute in H. discriminate H.
Defined.

(** X8 on an entry that has the five strings. *)
Lemma edit_of_entry_shows_first_values_witness :
  demo_login_heap !! 1 = Some (OEntry demo_login) ∧
  Forall (string_ok demo_login_heap) (e_items demo_login) ∧
  Forall (fun s => ∃ v, get_string_attr demo_login_heap s "value" = Ok v)
         (e_items demo_login) ∧
  (∀ n, n ∈ ["Title"; "UserName"; "Password"; "URL"; "Notes"] →
        ∃ s, s ∈ e_items demo_login ∧
             get_string_attr demo_login_heap s "key" = Ok (VStr n)) ∧
  ∃ a, AddEditState_init None (VRef 1) demo_login_heap = Ok a ∧
       aes_type a = ENTRY ∧ process_type a = EDIT ∧ current_field a = "Title" ∧
       keys (fields a) = ["Title"; "UserName"; "Password"; "URL"; "Notes"] ∧
       (∀ n s, n ∈ ["Title"; "UserName"; "Password"; "URL"; "Notes"] →
          get_item 1 (VStr n) demo_login_heap = Ok (VRef s) →
          ∃ v, get_string_attr demo_login_heap s "value" = Ok v ∧
               dict_lookup n (fields a) = Some v).
Proof.
  assert (Hval : Forall (fun s => ∃ v, get_string_attr demo_login_heap s "value" = Ok v)
                        (e_items demo_login)).
  { repeat constructor; eexists; reflexivity. }
  assert (Hall : ∀ n, n ∈ ["Title"; "UserName"; "Password"; "URL"; "Notes"] →
                      ∃ s, s ∈ e_items demo_login ∧
                           get_string_attr demo_login_heap s "key" = Ok (VStr n)).
  { apply (proj1 (Forall_forall
      (fun n => ∃ s, s ∈ e_items demo_login ∧
                     get_string_attr demo_login_heap s "key" = Ok (VStr n))
      ["Title"; "UserName"; "Password"; "URL"; "Notes"])).
    repeat constructor.
    - exists 2. split; [apply (bool_decide_unpack _); exact I | reflexivity].
    - exists 3. split; [apply (bool_decide_unpack _); exact I | reflexivity].
    - exists 4. split; [apply (bool_decide_unpack _); exact I | reflexivity].
    - exists 5. split; [apply (bool_decide_unpack _); exact I | reflexivity].
    - exists 6. split; [apply (bool_decide_unpack _); exact I | reflexivity]. }
  split; [reflexivity|]. split; [exact demo_login_strings_ok|].
  split; [exact Hval|]. split; [exact Hall|].
  exact (edit_of_entry_shows_first_values demo_login_heap 1 demo_login
           eq_refl demo_login_strings_ok Hval Hall).
Defined.

(** X9 on the draft of a new group, which has no Password field. *)
Lemma generate_password_touches_password_only_witness :
  ("Password" ∉ keys (fields demo_group_draft)) ∧
  ∃ pw, fields (generate_password demo_choice demo_group_draft) =
          (fields demo_group_draft ++ [("Password", VStr pw)])%list.
Proof.
  assert (Hnot : "Password" ∉ keys (fields demo_group_draft)).
  { apply (bool_decide_unpack _). exact I. }
  split; [exact Hnot|].
  exact (proj2 (proj2 (generate_password_touches_password_only
                         demo_choice demo_group_draft)) Hnot).
Defined.


(** X10 on the entry "blog" of the sample document, the only child of
    the group "Sites". *)
Lemma delete_detaches_node_witness :
  is_node (heap demo_state) 5 ∧
  get_parent (heap demo_state) (VRef 5) = Ok (VRef 4) ∧
  heap demo_state !! 4 =
    Some (OGroup (mkGroup (mkBase (VRef 0) 1 1) "R1JQ" (VStr "Sites") (VStr "") 37 [5])) ∧
  5 ∈ [5] ∧
  ∃ l1 l2,
    [5] = (l1 ++ 5 :: l2)%list ∧ (5 ∉ l1) ∧
    delete demo_now 5 demo_state =
      update_kdb_in_db demo_now
        (with_heap
           (<[4 := OGroup (g_with_items (l1 ++ l2)%list
                     (mkGroup (mkBase (VRef 0) 1 1) "R1JQ" (VStr "Sites") (VStr "") 37 [5]))]>
              (heap demo_state))
           (with_active_item (VRef 4)
              (if py_eq (active_item demo_state) (search_group demo_state)
               then with_search_group VNone demo_state else demo_state))) ∧
    ∀ st', delete demo_now 5 demo_state = Ok st' →
      heap st' =
        <[4 := OGroup (g_with_items (l1 ++ l2)%list
                 (mkGroup (mkBase (VRef 0) 1 1) "R1JQ" (VStr "Sites") (VStr "") 37 [5]))]>
          (heap demo_state) ∧
      active_item st' = VRef 4 ∧
      root_group st' = root_group demo_state.
Proof.
  assert (Hin : 5 ∈ [5]) by (apply (bool_decide_unpack _); exact I).
  split; [reflexivity|]. split; [reflexivity|]. split; [reflexivity|].
  split; [exact Hin|].
  exact (delete_detaches_node demo_now demo_state 5 4
           (mkGroup (mkBase (VRef 0) 1 1) "R1JQ" (VStr "Sites") (VStr "") 37 [5])
           eq_refl eq_refl eq_refl Hin).
Defined.

(** X11 on the root group of the sample document. *)
Lemma delete_of_unlisted_node_raises_witness :
  is_node (heap demo_state) 0 ∧
  get_parent (heap demo_state) (VRef 0) = Ok (VRef 0) ∧
  heap demo_state !! 0 =
    Some (OGroup (mkGroup (mkBase (VRef 0) 1 2) "Uk9PVA==" (VStr "Root") (VStr "") 37 [1; 4])) ∧
  (0 ∉ [1; 4]) ∧
  delete demo_now 0 demo_state = Raise ValueError.
Proof.
  assert (Hnot : 0 ∉ [1; 4]) by (apply (bool_decide_unpack _); exact I).
  split; [reflexivity|]. split; [reflexivity|]. split; [reflexivity|].
  split; [exact Hnot|].
  exact (delete_of_unlisted_node_raises demo_now demo_state 0 0
           (mkGroup (mkBase (VRef 0) 1 2) "Uk9PVA==" (VStr "Root") (VStr "") 37 [1; 4])
           eq_refl eq_refl eq_refl Hnot).
Defined.

(** X12 on the sample session, searched for "site". *)
Lemma search_then_back_restores_witness :
  searchable demo_state ∧
  active_item demo_state ≠ VNone ∧
  ∃ st' sg st'',
    search demo_uuid4 demo_lower "site" demo_state = Ok st' ∧
    search_group st' = VRef sg ∧
    deactivate (VRef sg) st' = Ok st'' ∧
    active_item st'' = active_item demo_state ∧
    search_group st'' = VNone ∧
    root_group st'' = root_group demo_state ∧
    (∀ i, i < List.length (heap demo_state) → heap st'' !! i = heap demo_state !! i).
Proof.
  assert (Hactive : active_item demo_state ≠ VNone) by discriminate.
  split; [exact demo_state_searchable|]. split; [exact Hactive|].
  exact (search_then_back_restores demo_uuid4 demo_lower "site" demo_state
           demo_state_searchable Hactive).
Defined.


(** X13 on the sample session, asked for the identifier of the entry
    "blog". *)
Lemma get_item_by_uuid_finds_listed_node_witness :
  opened demo_state = true ∧
  (if truthy (search_group demo_state)
   then search_group demo_state else root_group demo_state) = VRef 0 ∧
  heap demo_state !! 0 =
    Some (OGroup (mkGroup (mkBase (VRef 0) 1 2) "Uk9PVA==" (VStr "Root") (VStr "") 37 [1; 4])) ∧
  nodes_nested 2 (heap demo_state) 0 ∧
  (2 ≤ recursion_limit)%nat ∧
  ∃ res, get_item_by_uuid (VStr "QkxPRw==") demo_state = Ok res ∧
    match res with
    | VRef i => listed (heap demo_state) 0 i ∧
                get_uuid (heap demo_state) (VRef i) = Ok (VStr "QkxPRw==")
    | VNone => ∀ i, listed (heap demo_state) 0 i →
                    get_uuid (heap demo_state) (VRef i) ≠ Ok (VStr "QkxPRw==")
    | _ => False
    end.
Proof.
  assert (Hnested : nodes_nested 2 (heap demo_state) 0).
  { repeat constructor. }
  assert (Hle : (2 ≤ recursion_limit)%nat) by (rewrite recursion_limit_value; lia).
  split; [reflexivity|]. split; [reflexivity|]. split; [reflexivity|].
  split; [exact Hnested|]. split; [exact Hle|].
  exact (get_item_by_uuid_finds_listed_node (VStr "QkxPRw==") demo_state 0 _ 2
           eq_refl eq_refl eq_refl Hnested Hle).
Defined.


(** X14 on the sample session, searched for "SITE": the entry "site"
    and the group "Sites" are found, and the entry "blog" is not. *)
Lemma search_item_finds_exactly_the_matches_witness :
  searchable demo_state ∧
  ∃ r finded_items,
    root_group demo_state = VRef r ∧
    search_item demo_lower "SITE" demo_state = Ok finded_items ∧
    (∀ i, i ∈ finded_items ↔
          listed (heap demo_state) r i ∧
          ∃ s pre post, get_name (heap demo_state) (VRef i) = Ok (VStr s) ∧
                        lower demo_lower s = pre +:+ lower demo_lower "SITE" +:+ post) ∧
    (∀ i pre w post,
       listed (heap demo_state) r i →
       get_name (heap demo_state) (VRef i) = Ok (VStr (pre +:+ w +:+ post)) →
       is_ascii (pre +:+ w +:+ post) = true →
       same_letters w "SITE" = true →
       i ∈ finded_items).
Proof.
  split; [exact demo_state_searchable|].
  exact (search_item_finds_exactly_the_matches demo_lower "SITE" demo_state
           demo_state_searchable).
Defined.

(** X15 on the sample session: "SITE" and "Site" find the same nodes,
    the entry "site" and the group "Sites". *)
Lemma search_item_ignores_case_of_word_witness :
  is_ascii "SITE" = true ∧
  same_letters "SITE" "Site" = true ∧
  search_item demo_lower "SITE" demo_state = search_item demo_lower "Site" demo_state ∧
  search_item demo_lower "Site" demo_state = Ok demo_found.
Proof.
  split; [reflexivity|]. split; [reflexivity|]. split; [|by vm_compute].
  exact (search_item_ignores_case_of_word demo_lower "SITE" "Site" demo_state
           eq_refl eq_refl).
Defined.





(** X18 on an entry of four strings, 1 to a page: the second string
    has no key and is left out, and the third takes its place on
    page 1. *)
Lemma entry_lines_skip_unprintable_witness :
  Forall (printable_or_skipped demo_keyless_heap) [1; 2; 3; 4] ∧
  (1 ≤ 1)%Z ∧
  entry_lines 1 demo_keyless_heap 1 [1; 2; 3; 4] = Ok ["Title = a"; "URL = "].
Proof.
  assert (Hitems : Forall (printable_or_skipped demo_keyless_heap) [1; 2; 3; 4]).
  { repeat constructor; eexists; (split_and!; [reflexivity | by eexists | by eexists]). }
  split; [exact Hitems|]. split; [lia|].
  exact (entry_lines_skip_unprintable 1 demo_keyless_heap 1 [1; 2; 3; 4]
           Hitems ltac:(lia)).
Defined.


(** X19 on a draw of the first eight positions, the letters a to h. *)
Lemma generate_password_distinct_unless_both_zeros_witness :
  sample_choice (String.length password_alphabet) passlen [0; 1; 2; 3; 4; 5; 6; 7] ∧
  ((26 ∉ [0; 1; 2; 3; 4; 5; 6; 7]) ∨ (36 ∉ [0; 1; 2; 3; 4; 5; 6; 7])) ∧
  ∃ pw, dict_lookup "Password"
          (fields (generate_password [0; 1; 2; 3; 4; 5; 6; 7] demo_group_draft)) =
          Some (VStr pw) ∧
        NoDup (list_ascii_of_string pw).
Proof.
  assert (Hchoice : sample_choice (String.length password_alphabet) passlen
                      [0; 1; 2; 3; 4; 5; 6; 7]).
  { split_and!; [reflexivity | apply (bool_decide_unpack _); exact I |].
    change (String.length password_alphabet) with 63.
    repeat (constructor; [lia|]). constructor. }
  assert (Hzero : (26 ∉ [0; 1; 2; 3; 4; 5; 6; 7]) ∨ (36 ∉ [0; 1; 2; 3; 4; 5; 6; 7])).
  { left. apply (bool_decide_unpack _). exact I. }
  split; [exact Hchoice|]. split; [exact Hzero|].
  exact (generate_password_distinct_unless_both_zeros [0; 1; 2; 3; 4; 5; 6; 7]
           demo_group_draft Hchoice Hzero).
Defined.


(** X20 on the draft of a new group, with the cursor on its first
    field. *)
Lemma field_cursor_steps_undo_each_other_witness :
  NoDup (keys (fields demo_group_draft)) ∧
  keys (fields demo_group_draft) !! 0 = Some (current_field demo_group_draft) ∧
  (1 < List.length (keys (fields demo_group_draft)) →
     prev_field (next_field demo_group_draft) = Ok demo_group_draft) ∧
  (0 < 0 → ∃ a', prev_field demo_group_draft = Ok a' ∧ next_field a' = demo_group_draft).
Proof.
  assert (Hnd : NoDup (keys (fields demo_group_draft))).
  { apply (bool_decide_unpack _). exact I. }
  split; [exact Hnd|]. split; [reflexivity|].
  exact (field_cursor_steps_undo_each_other demo_group_draft 0 Hnd eq_refl).
Defined.


(** X21 on the sample session, whose root group is active, and the
    draft of an entry titled "new". *)
Lemma commit_adds_entry_from_draft_witness :
  aes_type demo_entry_draft = ENTRY ∧
  process_type demo_entry_draft = ADD ∧
  active_item demo_state = VRef 0 ∧
  heap demo_state !! 0 = Some (OGroup demo_root) ∧
  ∃ st', commit demo_uuid4 demo_entry_draft demo_state = Ok st' ∧
    active_item st' = VRef 0 ∧
    uuid_drawn st' = S (uuid_drawn demo_state) ∧
    List.length (heap st') =
      S (List.length (heap demo_state)) + List.length (fields demo_entry_draft) ∧
    heap st' !! 0 = Some (OGroup
      (g_with_base (mkBase (_parent (g_base demo_root)) (page (g_base demo_root))
                      (size (g_base demo_root) + 1))
         (g_with_items (g_items demo_root ++ [List.length (heap demo_state)])%list
            demo_root))) ∧
    heap st' !! List.length (heap demo_state) = Some (OEntry
      (mkEntry (mkBase (VRef 0) 1 (Z.of_nat (List.length (fields demo_entry_draft))))
         (demo_uuid4 (uuid_drawn demo_state)) 0
         (seq (S (List.length (heap demo_state))) (List.length (fields demo_entry_draft)))
         (name_from_draft (fields demo_entry_draft) (VStr ""))
         (mkAutoType (VStr "True") (VStr "0") None))) ∧
    (∀ k kv, fields demo_entry_draft !! k = Some kv →
       heap st' !! (S (List.length (heap demo_state)) + k) =
         Some (OString (new_string (List.length (heap demo_state)) kv.1 kv.2))) ∧
    (∀ i, i < List.length (heap demo_state) → i ≠ 0 →
          heap st' !! i = heap demo_state !! i).
Proof.
  split; [reflexivity|]. split; [reflexivity|]. split; [reflexivity|].
  split; [reflexivity|].
  exact (commit_adds_entry_from_draft demo_uuid4 demo_entry_draft demo_state 0 demo_root
           eq_refl eq_refl eq_refl eq_refl).
Defined.


(** X22 on a document whose root group has no identifier and lists an
    entry ahead of a group. *)
Lemma init_root_group_delivers_decoded_tree_witness :
  (∀ n, demo_uuid4 n ≠ "") ∧
  _init_root_group demo_uuid4 demo_int_of_str true demo_loaded_doc 0 = Ok (demo_loaded_tree, 1) ∧
  is_group demo_loaded_tree = true ∧ as_decoded demo_loaded_tree = true ∧
  uuids_nonempty demo_loaded_tree = true ∧ (0 ≤ 1)%nat.
Proof.
  assert (Hfresh : ∀ n, demo_uuid4 n ≠ "") by (intros n; discriminate).
  assert (Hinit : _init_root_group demo_uuid4 demo_int_of_str true demo_loaded_doc 0 =
                  Ok (demo_loaded_tree, 1)) by (vm_compute; reflexivity).
  split; [exact Hfresh|]. split; [exact Hinit|].
  exact (init_root_group_delivers_decoded_tree demo_uuid4 demo_int_of_str Hfresh demo_loaded_doc 0 1
           demo_loaded_tree Hinit).
Defined.


Lemma demo_login_settled :
  Forall (settled_string (heap demo_login_state)) (e_items demo_login).
Proof.
  repeat constructor.
  - eexists _, _. split_and!; [reflexivity | by eexists | reflexivity |].
    intros _. exists 1. split_and!; reflexivity.
  - eexists _, _. split_and!; [reflexivity | by eexists | reflexivity |].
    intros H. vm_compute in H. discriminate H.
  - eexists _, _. split_and!; [reflexivity | by eexists | reflexivity |].
    intros H. vm_compute in H. discriminate H.
  - eexists _, _. split_and!; [reflexivity | by eexists | reflexivity |].
    intros H. vm_compute in H. discriminate H.
  - eexists _, _. split_and!; [reflexivity | by eexists | reflexivity |].
    intros H. vm_compute in H. discriminate H.
Defined.

Lemma demo_login_one_value_per_key :
  one_value_per_key (heap demo_login_state) (e_items demo_login).
Proof.
  intros s1 s2 d1 d2 H1 H2 Hd1 Hd2 Hk.
  repeat (apply elem_of_cons in H1 as [->|H1]); [..|by apply elem_of_nil in H1];
    (repeat (apply elem_of_cons in H2 as [->|H2]); [..|by apply elem_of_nil in H2]);
    injection Hd1 as <-; injection Hd2 as <-;
    first [reflexivity | vm_compute in Hk; discriminate Hk].
Defined.

Lemma demo_login_has_all_fields :
  ∀ n, n ∈ ["Title"; "UserName"; "Password"; "URL"; "Notes"] →
       ∃ s, s ∈ e_items demo_login ∧
            get_string_attr (heap demo_login_state) s "key" = Ok (VStr n).
Proof.
  apply (proj1 (Forall_forall
    (fun n => ∃ s, s ∈ e_items demo_login ∧
                   get_string_attr (heap demo_login_state) s "key" = Ok (VStr n))
    ["Title"; "UserName"; "Password"; "URL"; "Notes"])).
  repeat constructor.
  - exists 2. split; [apply (bool_decide_unpack _); exact I | reflexivity].
  - exists 3. split; [apply (bool_decide_unpack _); exact I | reflexivity].
  - exists 4. split; [apply (bool_decide_unpack _); exact I | reflexivity].
  - exists 5. split; [apply (bool_decide_unpack _); exact I | reflexivity].
  - exists 6. split; [apply (bool_decide_unpack _); exact I | reflexivity].
Defined.

(** X23 on a session whose active node is an entry with the five
    strings. *)
Lemma edit_without_change_keeps_store_witness :
  active_item demo_login_state = VRef 1 ∧
  heap demo_login_state !! 1 = Some (OEntry demo_login) ∧
  _parent (e_base demo_login) = VRef 0 ∧
  heap demo_login_state !! 0 = Some (OGroup demo_login_root) ∧
  Forall (settled_string (heap demo_login_state)) (e_items demo_login) ∧
  one_value_per_key (heap demo_login_state) (e_items demo_login) ∧
  (∀ n, n ∈ ["Title"; "UserName"; "Password"; "URL"; "Notes"] →
        ∃ s, s ∈ e_items demo_login ∧
             get_string_attr (heap demo_login_state) s "key" = Ok (VStr n)) ∧
  ∃ st1 a st2,
    start_add_edit None (VRef 1) demo_login_state = Ok st1 ∧
    add_edit_state st1 = Some a ∧
    process_type a = EDIT ∧
    commit demo_uuid4 a st1 = Ok st2 ∧
    heap st2 = heap demo_login_state ∧
    active_item st2 = VRef 0.
Proof.
  split; [reflexivity|]. split; [reflexivity|]. split; [reflexivity|].
  split; [reflexivity|]. split; [exact demo_login_settled|].
  split; [exact demo_login_one_value_per_key|].
  split; [exact demo_login_has_all_fields|].
  exact (edit_without_change_keeps_store demo_uuid4 demo_login_state 1 0 demo_login
           demo_login_root eq_refl eq_refl eq_refl eq_refl demo_login_settled
           demo_login_one_value_per_key demo_login_has_all_fields).
Defined.


Lemma demo_heap_well_typed : well_typed demo_heap.
Proof.
  intros i.
  do 7 (destruct i as [|i]; [cbn; repeat constructor|]).
  exact I.
Defined.

(** X24 on the sample document, with the entry "site" appended to the
    group "Sites". *)
Lemma items_keep_their_classes_witness :
  well_typed demo_heap ∧
  (KeeGroup_append 4 (VRef 1) demo_heap =
     Ok (<[4 := OGroup (mkGroup (mkBase (VRef 0) 1 2) "R1JQ" (VStr "Sites") (VStr "") 37
                         [5; 1])]> demo_heap) ∨
   KeeEntry_append 4 (VRef 1) demo_heap =
     Ok (<[4 := OGroup (mkGroup (mkBase (VRef 0) 1 2) "R1JQ" (VStr "Sites") (VStr "") 37
                         [5; 1])]> demo_heap) ∨
   remove_from_parent 4 demo_heap =
     Ok (<[4 := OGroup (mkGroup (mkBase (VRef 0) 1 2) "R1JQ" (VStr "Sites") (VStr "") 37
                         [5; 1])]> demo_heap)) ∧
  well_typed (<[4 := OGroup (mkGroup (mkBase (VRef 0) 1 2) "R1JQ" (VStr "Sites") (VStr "") 37
                              [5; 1])]> demo_heap).
Proof.
  assert (Happ :
    KeeGroup_append 4 (VRef 1) demo_heap =
      Ok (<[4 := OGroup (mkGroup (mkBase (VRef 0) 1 2) "R1JQ" (VStr "Sites") (VStr "") 37
                          [5; 1])]> demo_heap) ∨
    KeeEntry_append 4 (VRef 1) demo_heap =
      Ok (<[4 := OGroup (mkGroup (mkBase (VRef 0) 1 2) "R1JQ" (VStr "Sites") (VStr "") 37
                          [5; 1])]> demo_heap) ∨
    remove_from_parent 4 demo_heap =
      Ok (<[4 := OGroup (mkGroup (mkBase (VRef 0) 1 2) "R1JQ" (VStr "Sites") (VStr "") 37
                          [5; 1])]> demo_heap)).
  { left. reflexivity. }
  split; [exact demo_heap_well_typed|]. split; [exact Happ|].
  exact (items_keep_their_classes demo_heap _ 4 (VRef 1) demo_heap_well_typed Happ).
Defined.

(** X25 on a node as the constructor leaves it, 5 to a page. *)
Lemma page_cursor_of_empty_node_witness :
  size demo_fresh_node = 0%Z ∧
  (page demo_fresh_node = 1%Z → page (previous_page 5 demo_fresh_node) = 0%Z) ∧
  ((page demo_fresh_node = 0%Z ∨ page demo_fresh_node = 1%Z) →
     page (next_page 5 demo_fresh_node) = 1%Z).
Proof.
  split; [reflexivity|].
  exact (page_cursor_of_empty_node 5 demo_fresh_node eq_refl).
Defined.
